(** * ShaarliClient: a shallow embedding of [shaarli_client.py]

    The client drives a Shaarli instance through Selenium.  The browser is an
    external collaborator, so the embedding is parametric in a [WebDriver]
    interface: a type [W] of browser states, a type [E] of element handles and
    one operation per Selenium call the client makes.  The client's methods are
    written in a state-and-exception monad over the Python object's fields;
    an exception leaves the state reached so far in place, as in Python.

    Every call that reaches the browser is recorded in the ghost field
    [calls], so that "which calls were made, in which order" can be stated.
    [logger] calls have no effect on the client or the browser and are left
    out. *)

From Stdlib Require Import String Ascii List Bool Arith ZArith Lia.
Import ListNotations.
Local Open Scope string_scope.
Local Open Scope list_scope.

Set Implicit Arguments.

(** ** Python strings

    A [str] is held as its UTF-8 encoding, one [ascii] per byte.  [in],
    [+], [rstrip('/')] and truthiness are the same on the code points and
    on the bytes; [strip] has to know how white space is encoded. *)

Module PyStr.

(** [needle in hay] *)
Fixpoint contains (needle hay : string) : bool :=
  if String.prefix needle hay then true
  else match hay with
       | EmptyString => false
       | String _ rest => contains needle rest
       end.

(** truthiness of a [str] *)
Definition truthy (s : string) : bool :=
  match s with EmptyString => false | _ => true end.

(** truthiness of a value that is [None] or a [str] *)
Definition truthy_opt (o : option string) : bool :=
  match o with Some s => truthy s | None => false end.

Fixpoint rev_string (s : string) : string :=
  match s with
  | EmptyString => EmptyString
  | String c rest => (rev_string rest ++ String c EmptyString)%string
  end.

Fixpoint lstrip_chars (p : ascii -> bool) (s : string) : string :=
  match s with
  | EmptyString => EmptyString
  | String c rest => if p c then lstrip_chars p rest else s
  end.

Definition rstrip_chars (p : ascii -> bool) (s : string) : string :=
  rev_string (lstrip_chars p (rev_string s)).

(** [s.rstrip('/')] *)
Definition rstrip_slash (s : string) : string :=
  rstrip_chars (fun c => Ascii.eqb c "/"%char) s.

(** The code points for which [str.isspace] holds, by the length of their
    encoding.  One byte: U+0009..U+000D, U+001C..U+001F and U+0020. *)
Definition is_space (c : ascii) : bool :=
  let n := nat_of_ascii c in
  (Nat.leb 9 n && Nat.leb n 13) || (Nat.leb 28 n && Nat.leb n 32).

(** Two bytes: U+0085 (C2 85) and U+00A0 (C2 A0). *)
Definition is_space2 (a b : ascii) : bool :=
  Nat.eqb (nat_of_ascii a) 194
  && (Nat.eqb (nat_of_ascii b) 133 || Nat.eqb (nat_of_ascii b) 160).

(** Three bytes: U+1680 (E1 9A 80), U+2000..U+200A (E2 80 80..8A), U+2028
    and U+2029 (E2 80 A8, E2 80 A9), U+202F (E2 80 AF), U+205F (E2 81 9F)
    and U+3000 (E3 80 80). *)
Definition is_space3 (a b c : ascii) : bool :=
  let x := nat_of_ascii a in
  let y := nat_of_ascii b in
  let z := nat_of_ascii c in
  (Nat.eqb x 225 && Nat.eqb y 154 && Nat.eqb z 128)
  || (Nat.eqb x 226 && Nat.eqb y 128
      && ((Nat.leb 128 z && Nat.leb z 138)
          || Nat.eqb z 168 || Nat.eqb z 169 || Nat.eqb z 175))
  || (Nat.eqb x 226 && Nat.eqb y 129 && Nat.eqb z 159)
  || (Nat.eqb x 227 && Nat.eqb y 128 && Nat.eqb z 128).

(** The string without the white space it starts with, for white space of
    one, two and three bytes. *)
Fixpoint lstrip_spaces (sp1 : ascii -> bool) (sp2 : ascii -> ascii -> bool)
  (sp3 : ascii -> ascii -> ascii -> bool) (s : string) : string :=
  match s with
  | EmptyString => s
  | String a r1 =>
      if sp1 a then lstrip_spaces sp1 sp2 sp3 r1
      else match r1 with
           | EmptyString => s
           | String b r2 =>
               if sp2 a b then lstrip_spaces sp1 sp2 sp3 r2
               else match r2 with
                    | EmptyString => s
                    | String c r3 =>
                        if sp3 a b c then lstrip_spaces sp1 sp2 sp3 r3
                        else s
                    end
           end
  end.

(** [s.strip()]: the end is stripped on the reversed string, where the
    bytes of an encoding come in reverse. *)
Definition strip (s : string) : string :=
  rev_string
    (lstrip_spaces is_space (fun b a => is_space2 a b)
       (fun c b a => is_space3 a b c)
       (rev_string (lstrip_spaces is_space is_space2 is_space3 s))).

(** [sep.join(l)] *)
Definition join (sep : string) (l : list string) : string :=
  String.concat sep l.

(** [l[:n]] for a Python [int] *)
Definition slice_to {A} (n : Z) (l : list A) : list A :=
  if (0 <=? n)%Z then firstn (Z.to_nat n) l
  else firstn (Z.to_nat (Z.of_nat (length l) + n)) l.

(** the string ["\n"] *)
Definition newline : string := String (ascii_of_nat 10) EmptyString.

End PyStr.

(** ** Exceptions and results *)

(** The exception classes the client names or can receive.  All of them are
    subclasses of [Exception]; [KeyboardInterrupt] and the like are outside
    the model. *)
Inductive exn : Type :=
| TimeoutException
| NoSuchElementException
| WebDriverException (msg : string)
| AttributeError
| ImportError
| RuntimeError (msg : string).

Inductive Res (A : Type) : Type :=
| Ok (a : A)
| Raise (e : exn).
Arguments Ok {A} a.
Arguments Raise {A} e.

Definition is_ok {A} (r : Res A) : bool :=
  match r with Ok _ => true | Raise _ => false end.

(** ** The Selenium interface *)

(** [selenium.webdriver.common.by.By] *)
Inductive By : Type :=
| NAME | ID | CSS_SELECTOR | XPATH | TAG_NAME | PARTIAL_LINK_TEXT.

(** A selection rule, as the pairs in [username_selectors] and its kin. *)
Definition Selector : Type := (By * string)%type.

(** The conditions handed to [WebDriverWait(...).until]. *)
Inductive Condition : Type :=
| ReadyStateComplete      (* document.readyState == "complete" *)
| JQueryIdle              (* typeof jQuery === 'undefined' || jQuery.active === 0 *)
| PresenceOfInput.        (* EC.presence_of_element_located((By.TAG_NAME, "input")) *)

Inductive ScriptArg (E : Type) : Type :=
| ArgElem (e : E)
| ArgStr (s : string).
Arguments ArgElem {E} e.
Arguments ArgStr {E} s.

(** One operation per Selenium (or [requests], [time]) call of the client.
    Queries read the browser state; commands may change it.  A scope of
    [None] is the driver itself ([driver.find_elements]), [Some e] is an
    element ([e.find_elements]).  [requests_import] is the statement
    [import requests]; [drv_wait_until] is a whole
    [WebDriverWait(...).until(...)], the polls of the condition included. *)
Class WebDriver (W E : Type) : Type := {
  drv_launch : list string -> Res W;
  drv_set_window_size : nat -> nat -> W -> Res unit * W;
  drv_quit : W -> Res unit * W;
  drv_get : string -> W -> Res unit * W;
  drv_current_url : W -> Res string;
  drv_page_source : W -> Res string;
  drv_find_elements : option E -> By -> string -> W -> Res (list E);
  drv_find_element : option E -> By -> string -> W -> Res E;
  drv_get_attribute : E -> string -> W -> Res (option string);
  drv_tag_name : E -> W -> Res string;
  drv_text : E -> W -> Res string;
  drv_is_selected : E -> W -> Res bool;
  drv_click : E -> W -> Res unit * W;
  drv_clear : E -> W -> Res unit * W;
  drv_send_keys : E -> string -> W -> Res unit * W;
  drv_execute_script : string -> list (ScriptArg E) -> W -> Res unit * W;
  drv_switch_to_frame : E -> W -> Res unit * W;
  drv_switch_to_default_content : W -> Res unit * W;
  drv_wait_until : nat -> Condition -> W -> Res unit * W;
  drv_sleep : nat -> W -> W;
  requests_import : Res unit;
  requests_get : string -> nat -> Res nat
}.

(** The calls that reach the outside world, for the ghost log. *)
Inductive Call (E : Type) : Type :=
| CLaunch (options : list string)
| CSetWindowSize (w h : nat)
| CQuit
| CGet (url : string)
| CCurrentUrl
| CPageSource
| CFindElements (scope : option E) (by_ : By) (value : string)
| CFindElement (scope : option E) (by_ : By) (value : string)
| CGetAttribute (e : E) (name : string)
| CTagName (e : E)
| CText (e : E)
| CIsSelected (e : E)
| CClick (e : E)
| CClear (e : E)
| CSendKeys (e : E) (text : string)
| CExecuteScript (script : string) (args : list (ScriptArg E))
| CSwitchToFrame (e : E)
| CSwitchToDefaultContent
| CWaitUntil (timeout : nat) (c : Condition)
| CSleep (seconds : nat)
| CRequestsGet (url : string) (timeout : nat).
Arguments CLaunch {E} options.
Arguments CSetWindowSize {E} w h.
Arguments CQuit {E}.
Arguments CGet {E} url.
Arguments CCurrentUrl {E}.
Arguments CPageSource {E}.
Arguments CSwitchToDefaultContent {E}.
Arguments CWaitUntil {E} timeout c.
Arguments CSleep {E} seconds.
Arguments CRequestsGet {E} url timeout.
Arguments CExecuteScript {E} script args.

(** ** The client object and its monad *)

Declare Scope py_scope.
Delimit Scope py_scope with py.

Section Client.

Context {W E : Type} {D : WebDriver W E}.

(** The fields of a [ShaarliClient] instance.  [driver] is [None] until
    [start_driver] has run; [calls] is the ghost log. *)
Record ShaarliClient : Type := mkClient {
  base_url : string;
  timeout : nat;
  driver : option W;
  is_logged_in : bool;
  firefox_options : list string;
  calls : list (Call E)
}.

Definition record_call (c : Call E) (s : ShaarliClient) : ShaarliClient :=
  mkClient (base_url s) (timeout s) (driver s) (is_logged_in s)
           (firefox_options s) (calls s ++ [c]).

Definition with_driver (d : option W) (s : ShaarliClient) : ShaarliClient :=
  mkClient (base_url s) (timeout s) d (is_logged_in s)
           (firefox_options s) (calls s).

Definition with_is_logged_in (b : bool) (s : ShaarliClient) : ShaarliClient :=
  mkClient (base_url s) (timeout s) (driver s) b
           (firefox_options s) (calls s).

(** A method body: it runs on the object and returns a value or raises,
    together with the object as it then is. *)
Definition M (A : Type) : Type := ShaarliClient -> Res A * ShaarliClient.

Definition ret {A} (a : A) : M A := fun s => (Ok a, s).

Definition bind {A B} (c : M A) (k : A -> M B) : M B :=
  fun s => match c s with
           | (Ok a, s') => k a s'
           | (Raise e, s') => (Raise e, s')
           end.

Definition raise {A} (e : exn) : M A := fun s => (Raise e, s).

(** [try: c  except Exception as e: h e] *)
Definition try_except {A} (c : M A) (h : exn -> M A) : M A :=
  fun s => match c s with
           | (Ok a, s') => (Ok a, s')
           | (Raise e, s') => h e s'
           end.

Definition read {A} (f : ShaarliClient -> A) : M A := fun s => (Ok (f s), s).

Local Notation "x <- c ;; k" := (bind c (fun x => k))
  (at level 61, c at next level, right associativity) : py_scope.
Local Notation "c ;; k" := (bind c (fun _ => k))
  (at level 61, right associativity) : py_scope.
Local Open Scope py_scope.

(** *** Calls on the driver and on elements

    An attribute access on [self.driver] while it is [None] raises
    [AttributeError] before anything reaches the browser. *)

Definition query {A} (c : Call E) (f : W -> Res A) : M A :=
  fun s => match driver s with
           | None => (Raise AttributeError, s)
           | Some w => (f w, record_call c s)
           end.

Definition command {A} (c : Call E) (f : W -> Res A * W) : M A :=
  fun s => match driver s with
           | None => (Raise AttributeError, s)
           | Some w => let (r, w') := f w in
                       (r, record_call c (with_driver (Some w') s))
           end.

Definition driver_get (url : string) : M unit :=
  command (CGet url) (drv_get url).
Definition driver_current_url : M string :=
  query CCurrentUrl drv_current_url.
Definition driver_page_source : M string :=
  query CPageSource drv_page_source.
Definition find_elements (scope : option E) (by_ : By) (value : string)
  : M (list E) :=
  query (CFindElements scope by_ value) (drv_find_elements scope by_ value).
Definition find_element (scope : option E) (by_ : By) (value : string)
  : M E :=
  query (CFindElement scope by_ value) (drv_find_element scope by_ value).
Definition get_attribute (e : E) (name : string) : M (option string) :=
  query (CGetAttribute e name) (drv_get_attribute e name).
Definition tag_name (e : E) : M string :=
  query (CTagName e) (drv_tag_name e).
Definition element_text (e : E) : M string :=
  query (CText e) (drv_text e).
Definition is_selected (e : E) : M bool :=
  query (CIsSelected e) (drv_is_selected e).
Definition element_click (e : E) : M unit :=
  command (CClick e) (drv_click e).
Definition element_clear (e : E) : M unit :=
  command (CClear e) (drv_clear e).
Definition element_send_keys (e : E) (text : string) : M unit :=
  command (CSendKeys e text) (drv_send_keys e text).
Definition execute_script (script : string) (args : list (ScriptArg E))
  : M unit :=
  command (CExecuteScript script args) (drv_execute_script script args).
Definition switch_to_frame (e : E) : M unit :=
  command (CSwitchToFrame e) (drv_switch_to_frame e).
Definition switch_to_default_content : M unit :=
  command CSwitchToDefaultContent drv_switch_to_default_content.
(** [WebDriverWait(self.driver, t).until(c)].  The library calls the
    condition again and again, until it holds or [t] seconds have passed;
    how often is a matter of timing.  The whole wait is one operation of
    the interface and one entry [CWaitUntil t c] of the log: the calls the
    condition makes at each poll, [polled c], are part of it and are not
    logged on their own. *)
Definition wait_until (t : nat) (c : Condition) : M unit :=
  command (CWaitUntil t c) (drv_wait_until t c).


(** [time.sleep(n)]: the browser goes on while the client waits. *)
Definition time_sleep (n : nat) : M unit :=
  fun s => (Ok tt,
            record_call (CSleep n)
              (with_driver (option_map (drv_sleep n) (driver s)) s)).

(** truthiness of a list *)
Definition nonempty {A} (l : list A) : bool :=
  match l with [] => false | _ => true end.

(** ** [__init__], [start_driver], [close], [test_connectivity] *)

Definition __init__ (url : string) (headless : bool) (tmo : nat)
  : ShaarliClient :=
  mkClient (PyStr.rstrip_slash url) tmo None false
    ((if headless then ["--headless"] else [])
       ++ ["--no-sandbox"; "--disable-dev-shm-usage";
           "--width=1920"; "--height=1080"])
    [].

Definition start_driver : M unit :=
  fun s =>
    let s1 := record_call (CLaunch (firefox_options s)) s in
    match drv_launch (firefox_options s) with
    | Raise e => (Raise e, s1)
    | Ok w =>
        command (CSetWindowSize 1920 1080) (drv_set_window_size 1920 1080)
                (with_driver (Some w) s1)
    end.

Definition close : M unit :=
  fun s => match driver s with
           | None => (Ok tt, s)
           | Some _ => command CQuit drv_quit s
           end.

(** [import requests]: it reaches nothing outside, and nothing is logged. *)
Definition import_requests : M unit := fun s => (requests_import, s).

Definition test_connectivity : M bool :=
  try_except
    (import_requests ;;
     url <- read base_url ;;
     status <- (fun s => (requests_get url 5, record_call (CRequestsGet url 5) s)) ;;
     ret (Nat.ltb status 400))
    (fun e =>
       match e with
       | ImportError =>
           try_except
             (url <- read base_url ;;
              driver_get url ;;
              current <- driver_current_url ;;
              ret (negb (PyStr.contains "neterror" current)))
             (fun _ => ret false)
       | _ => ret false
       end).

(** ** [wait_for_page_ready], [check_for_iframes], [debug_page_elements] *)

Definition wait_for_page_ready (tmo : nat) : M unit :=
  try_except
    (wait_until tmo ReadyStateComplete ;;
     time_sleep 1 ;;
     try_except (wait_until 2 JQueryIdle) (fun _ => ret tt))
    (fun _ => ret tt).

Fixpoint log_iframes (iframes : list E) : M unit :=
  match iframes with
  | [] => ret tt
  | iframe :: rest =>
      _ <- get_attribute iframe "src" ;;
      _ <- get_attribute iframe "name" ;;
      log_iframes rest
  end.

Definition check_for_iframes : M (list E) :=
  try_except
    (iframes <- find_elements None TAG_NAME "iframe" ;;
     if nonempty iframes then log_iframes iframes ;; ret iframes
     else ret [])
    (fun _ => ret []).

Fixpoint debug_inputs (inputs : list E) : M unit :=
  match inputs with
  | [] => ret tt
  | inp :: rest =>
      try_except
        (_ <- get_attribute inp "name" ;;
         _ <- get_attribute inp "type" ;;
         _ <- get_attribute inp "id" ;;
         _ <- get_attribute inp "placeholder" ;;
         ret tt)
        (fun _ => ret tt) ;;
      debug_inputs rest
  end.

Definition debug_page_elements : M unit :=
  try_except
    (inputs <- find_elements None TAG_NAME "input" ;;
     debug_inputs inputs ;;
     _ <- find_elements None TAG_NAME "form" ;;
     _ <- driver_page_source ;;
     ret tt)
    (fun _ => ret tt).

(** ** [try_interact_with_element] *)

Definition scroll_script : string :=
  "arguments[0].scrollIntoView({behavior: 'smooth', block: 'center'});".

(** the value of [text] where the guard [and text] has passed *)
Definition text_value (text : option string) : string :=
  match text with Some t => t | None => "" end.

(** Each [try] block yields [true] where the source returns [True] from
    inside it and [false] where control falls out of it, by an exception or
    because no branch applied. *)
Definition try_interact_with_element
  (element : option E) (action : string) (text : option string) : M bool :=
  match element with
  | None => ret false
  | Some el =>
      r1 <- try_except
              (if action =? "click" then
                 element_click el ;; ret true
               else if (action =? "send_keys") && PyStr.truthy_opt text then
                 element_clear el ;;
                 element_send_keys el (text_value text) ;;
                 ret true
               else ret false)
              (fun _ => ret false) ;;
      if r1 then ret true else
      r2 <- try_except
              (execute_script scroll_script [ArgElem el] ;;
               time_sleep 1 ;;
               if action =? "click" then
                 element_click el ;; ret true
               else if (action =? "send_keys") && PyStr.truthy_opt text then
                 element_clear el ;;
                 element_send_keys el (text_value text) ;;
                 ret true
               else ret false)
              (fun _ => ret false) ;;
      if r2 then ret true else
      r3 <- try_except
              (if action =? "click" then
                 execute_script "arguments[0].click();" [ArgElem el] ;;
                 ret true
               else if (action =? "send_keys") && PyStr.truthy_opt text then
                 execute_script "arguments[0].value = '';" [ArgElem el] ;;
                 execute_script "arguments[0].value = arguments[1];"
                   [ArgElem el; ArgStr (text_value text)] ;;
                 execute_script
                   "arguments[0].dispatchEvent(new Event('input', {bubbles: true}));"
                   [ArgElem el] ;;
                 execute_script
                   "arguments[0].dispatchEvent(new Event('change', {bubbles: true}));"
                   [ArgElem el] ;;
                 ret true
               else ret false)
              (fun _ => ret false) ;;
      if r3 then ret true else ret false
  end.

(** ** The first-match loop over a selector plan

    The source writes this loop out once per field:
<<
    for selector_type, selector_value in plan:
        try:
            elements = self.driver.find_elements(selector_type, selector_value)
            if elements:
                field = elements[0]
                break
        except Exception as e:
            continue
>>
    with [field = None] before it. *)
Fixpoint first_match (plan : list Selector) : M (option E) :=
  match plan with
  | [] => ret None
  | (selector_type, selector_value) :: rest =>
      hit <- try_except
               (elements <- find_elements None selector_type selector_value ;;
                ret (hd_error elements))
               (fun _ => ret None) ;;
      match hit with
      | Some e => ret (Some e)
      | None => first_match rest
      end
  end.

(** ** [login] *)

Definition username_selectors : list Selector :=
  [ (NAME, "login"); (NAME, "username"); (NAME, "user");
    (ID, "login"); (ID, "username"); (ID, "user");
    (CSS_SELECTOR, "input[name='login']");
    (CSS_SELECTOR, "input[name='username']");
    (CSS_SELECTOR, "input[type='text']");
    (CSS_SELECTOR, "input[type='email']");
    (XPATH, "//input[@name='login']");
    (XPATH, "//input[@name='username']");
    (XPATH, "//input[@type='text']");
    (XPATH, "//input[contains(@placeholder, 'user')]");
    (XPATH, "//input[contains(@placeholder, 'login')]");
    (XPATH, "//input[contains(@class, 'user')]");
    (XPATH, "//input[contains(@class, 'login')]") ].

Definition password_selectors : list Selector :=
  [ (NAME, "password"); (ID, "password");
    (CSS_SELECTOR, "input[name='password']");
    (CSS_SELECTOR, "input[type='password']");
    (XPATH, "//input[@name='password']");
    (XPATH, "//input[@type='password']") ].

Definition submit_selectors : list Selector :=
  [ (CSS_SELECTOR, "input[type='submit']");
    (CSS_SELECTOR, "button[type='submit']");
    (CSS_SELECTOR, "input[value*='Login']");
    (CSS_SELECTOR, "input[value*='login']");
    (CSS_SELECTOR, "input[value*='Log in']");
    (CSS_SELECTOR, "button");
    (XPATH, "//input[@type='submit']");
    (XPATH, "//button[@type='submit']");
    (XPATH, "//input[contains(@value, 'Login')]");
    (XPATH, "//button[contains(text(), 'Login')]") ].

(** Approach 2: the first text input of the first form that has one. *)
Fixpoint first_text_input (forms : list E) : M (option E) :=
  match forms with
  | [] => ret None
  | form :: rest =>
      text_inputs <- find_elements (Some form) CSS_SELECTOR
                       "input[type='text'], input:not([type])" ;;
      match text_inputs with
      | e :: _ => ret (Some e)
      | [] => first_text_input rest
      end
  end.

(** [input_type not in ["password", "submit", "button", "hidden"]] *)
Definition not_a_credential_type (input_type : option string) : bool :=
  match input_type with
  | None => true
  | Some t => negb ((t =? "password") || (t =? "submit")
                    || (t =? "button") || (t =? "hidden"))
  end.

(** Approach 3: the first input that is not of password, submit, button or
    hidden type. *)
Fixpoint first_plain_input (all_inputs : list E) : M (option E) :=
  match all_inputs with
  | [] => ret None
  | inp :: rest =>
      input_type <- get_attribute inp "type" ;;
      if not_a_credential_type input_type then ret (Some inp)
      else first_plain_input rest
  end.

(** Lines 258-318: the three approaches in the main document. *)
Definition find_username_in_document : M (option E) :=
  username_field <- first_match username_selectors ;;
  username_field <-
    match username_field with
    | Some _ => ret username_field
    | None =>
        try_except
          (forms <- find_elements None TAG_NAME "form" ;;
           first_text_input forms)
          (fun _ => ret None)
    end ;;
  match username_field with
  | Some _ => ret username_field
  | None =>
      try_except
        (all_inputs <- find_elements None TAG_NAME "input" ;;
         first_plain_input all_inputs)
        (fun _ => ret None)
  end.

(** Lines 326-348: the loop over the iframes.  A hit leaves the loop by
    [break] before [switch_to.default_content()] is reached. *)
Fixpoint search_iframes (iframes : list E) : M (option E) :=
  match iframes with
  | [] => ret None
  | iframe :: rest =>
      hit <- try_except
               (switch_to_frame iframe ;;
                debug_page_elements ;;
                username_field <- first_match (firstn 5 username_selectors) ;;
                match username_field with
                | Some e => ret (Some e)
                | None => switch_to_default_content ;; ret None
                end)
               (fun _ => switch_to_default_content ;; ret None) ;;
      match hit with
      | Some e => ret (Some e)
      | None => search_iframes rest
      end
  end.

(** Lines 321-351, up to the [return False]: the iframe fallback. *)
Definition find_username_in_iframes (iframes : list E) : M (option E) :=
  if nonempty iframes then search_iframes iframes else ret None.

(** Lines 258-351: the username field, from the main document or, where it
    has none, from the iframes [check_for_iframes] returned. *)
Definition find_username (iframes : list E) : M (option E) :=
  username_field <- find_username_in_document ;;
  match username_field with
  | Some _ => ret username_field
  | None => find_username_in_iframes iframes
  end.

(** Lines 427-449; [true] where control reaches line 451. *)
Definition submit_login_form (password_field : E) (submit_button : option E)
  : M bool :=
  match submit_button with
  | None =>
      try_except
        (element_send_keys password_field PyStr.newline ;; ret true)
        (fun _ => ret false)
  | Some _ =>
      clicked <- try_interact_with_element submit_button "click" None ;;
      if clicked then ret true
      else
        try_except
          (element_send_keys password_field PyStr.newline ;; ret true)
          (fun _ => ret false)
  end.

(** Lines 231-449.  The result is [true] where control reaches the settle
    delay of line 452 and [false] where the source returns [False] before. *)
Definition login_until_submitted (username password : string) : M bool :=
  base <- read base_url ;;
  driver_get (base ++ "/login") ;;
  wait_for_page_ready 10 ;;
  iframes <- check_for_iframes ;;
  debug_page_elements ;;
  tmo <- read timeout ;;
  loaded <- try_except
              (wait_until tmo PresenceOfInput ;; ret true)
              (fun e => match e with
                        | TimeoutException => ret false
                        | _ => raise e
                        end) ;;
  if negb loaded then ret false else
  username_field <- find_username iframes ;;
  match username_field with
  | None => ret false
  | Some _ =>
  typed <- try_interact_with_element username_field "send_keys" (Some username) ;;
  if negb typed then ret false else
  password_field <- first_match password_selectors ;;
  password_field <-
    match password_field with
    | Some _ => ret password_field
    | None =>
        try_except
          (password_inputs <- find_elements None CSS_SELECTOR "input[type='password']" ;;
           ret (hd_error password_inputs))
          (fun _ => ret None)
    end ;;
  match password_field with
  | None => ret false
  | Some pf =>
  typed <- try_interact_with_element password_field "send_keys" (Some password) ;;
  if negb typed then ret false else
  submit_button <- first_match submit_selectors ;;
  submit_login_form pf submit_button
  end
  end.

Definition _is_logged_in : M bool :=
  try_except
    (logout_elements <- find_elements None PARTIAL_LINK_TEXT "Logout" ;;
     admin_elements <- find_elements None PARTIAL_LINK_TEXT "Tools" ;;
     add_elements <- find_elements None PARTIAL_LINK_TEXT "Shaare" ;;
     ret (nonempty logout_elements || nonempty admin_elements
          || nonempty add_elements))
    (fun _ => ret false).

(** Lines 451-462. *)
Definition login_verify : M bool :=
  time_sleep 3 ;;
  current_url <- driver_current_url ;;
  success <- (if negb (PyStr.contains "login" current_url) then ret true
              else _is_logged_in) ;;
  if success then
    (fun s => (Ok tt, with_is_logged_in true s)) ;; ret true
  else ret false.

Definition login_body (username password : string) : M bool :=
  submitted <- login_until_submitted username password ;;
  if submitted then login_verify else ret false.

Definition login (username password : string) : M bool :=
  d <- read driver ;;
  match d with
  | None => raise (RuntimeError "WebDriver not initialized. Call start_driver() first.")
  | Some _ =>
      try_except (login_body username password)
        (fun e => match e with
                  | TimeoutException => ret false
                  | _ => ret false
                  end)
  end.

(** ** [add_url] *)

Definition url_selectors : list Selector :=
  [ (NAME, "post"); (ID, "shaare");
    (CSS_SELECTOR, "input[name='post']");
    (CSS_SELECTOR, "input[type='url']");
    (CSS_SELECTOR, "input[type='text']");
    (XPATH, "//input[@name='post']");
    (XPATH, "//input[@id='shaare']");
    (XPATH, "//input[@type='url']") ].

Definition first_submit_selectors : list Selector :=
  [ (CSS_SELECTOR, "input[type='submit']");
    (CSS_SELECTOR, "button[type='submit']");
    (CSS_SELECTOR, "input[value*='Add']");
    (CSS_SELECTOR, "button");
    (XPATH, "//input[@type='submit']");
    (XPATH, "//button[@type='submit']");
    (XPATH, "//input[contains(@value, 'Add')]");
    (XPATH, "//button[contains(text(), 'Add')]") ].

Definition title_selectors : list Selector :=
  [ (NAME, "lf_title"); (NAME, "title"); (ID, "lf_title"); (ID, "title");
    (CSS_SELECTOR, "input[name='lf_title']");
    (CSS_SELECTOR, "input[name='title']");
    (XPATH, "//input[@name='lf_title']");
    (XPATH, "//input[@name='title']") ].

Definition desc_selectors : list Selector :=
  [ (NAME, "lf_description"); (NAME, "description");
    (ID, "lf_description"); (ID, "description");
    (CSS_SELECTOR, "textarea[name='lf_description']");
    (CSS_SELECTOR, "textarea[name='description']");
    (XPATH, "//textarea[@name='lf_description']");
    (XPATH, "//textarea[@name='description']") ].

Definition tags_selectors : list Selector :=
  [ (NAME, "lf_tags"); (NAME, "tags"); (ID, "lf_tags"); (ID, "tags");
    (CSS_SELECTOR, "input[name='lf_tags']");
    (CSS_SELECTOR, "input[name='tags']");
    (XPATH, "//input[@name='lf_tags']");
    (XPATH, "//input[@name='tags']") ].

Definition private_selectors : list Selector :=
  [ (NAME, "lf_private"); (NAME, "private");
    (ID, "lf_private"); (ID, "private");
    (CSS_SELECTOR, "input[name='lf_private']");
    (CSS_SELECTOR, "input[name='private']");
    (XPATH, "//input[@name='lf_private']");
    (XPATH, "//input[@name='private']") ].

Definition save_selectors : list Selector :=
  [ (CSS_SELECTOR, "input[type='submit'][value*='Save']");
    (CSS_SELECTOR, "button[type='submit']");
    (CSS_SELECTOR, "input[type='submit']");
    (CSS_SELECTOR, "button");
    (XPATH, "//input[@type='submit' and contains(@value, 'Save')]");
    (XPATH, "//button[@type='submit']");
    (XPATH, "//button[contains(text(), 'Save')]");
    (XPATH, "//input[@type='submit']") ].

(** Lines 639-649 and 664-674: fill the first field a rule finds; the
    outcome of the interaction is dropped. *)
Fixpoint fill_first_match (plan : list Selector) (text : string) : M unit :=
  match plan with
  | [] => ret tt
  | (selector_type, selector_value) :: rest =>
      done <- try_except
                (elements <- find_elements None selector_type selector_value ;;
                 match elements with
                 | field :: _ =>
                     _ <- try_interact_with_element (Some field) "send_keys"
                            (Some text) ;;
                     ret true
                 | [] => ret false
                 end)
                (fun _ => ret false) ;;
      if done then ret tt else fill_first_match rest text
  end.

(** Lines 689-700: tick the first checkbox a rule finds unless it is
    ticked; an exception of [is_selected] moves on to the next rule. *)
Fixpoint tick_first_match (plan : list Selector) : M unit :=
  match plan with
  | [] => ret tt
  | (selector_type, selector_value) :: rest =>
      done <- try_except
                (elements <- find_elements None selector_type selector_value ;;
                 match elements with
                 | private_checkbox :: _ =>
                     selected <- is_selected private_checkbox ;;
                     (if negb selected then
                        _ <- try_interact_with_element (Some private_checkbox)
                               "click" None ;;
                        ret tt
                      else ret tt) ;;
                     ret true
                 | [] => ret false
                 end)
                (fun _ => ret false) ;;
      if done then ret tt else tick_first_match rest
  end.

(** Lines 588-734, the second page of the form; [true] where control
    reaches the settle delay of line 737. *)
Definition add_url_details (title description tags : string) (private : bool)
  : M bool :=
  title_field <- first_match title_selectors ;;
  match title_field with
  | None => debug_page_elements ;; ret false
  | Some _ =>
  (if PyStr.truthy title then
     _ <- try_interact_with_element title_field "send_keys" (Some title) ;;
     ret tt
   else ret tt) ;;
  (if PyStr.truthy description then fill_first_match desc_selectors description
   else ret tt) ;;
  (if PyStr.truthy tags then fill_first_match tags_selectors tags
   else ret tt) ;;
  (if private then tick_first_match private_selectors else ret tt) ;;
  save_button <- first_match save_selectors ;;
  match save_button with
  | Some _ =>
      clicked <- try_interact_with_element save_button "click" None ;;
      if negb clicked then ret false else ret true
  | None => debug_page_elements ;; ret false
  end
  end.

(** Lines 505-734; [true] where control reaches line 737. *)
Definition add_url_until_saved
  (url title description tags : string) (private : bool) : M bool :=
  base <- read base_url ;;
  driver_get (base ++ "/admin/add-shaare") ;;
  wait_for_page_ready 10 ;;
  url_field <- first_match url_selectors ;;
  match url_field with
  | None => debug_page_elements ;; ret false
  | Some _ =>
  typed <- try_interact_with_element url_field "send_keys" (Some url) ;;
  if negb typed then ret false else
  first_submit_button <- first_match first_submit_selectors ;;
  sent <- match first_submit_button with
          | Some _ => try_interact_with_element first_submit_button "click" None
          | None => try_interact_with_element url_field "send_keys"
                      (Some PyStr.newline)
          end ;;
  if negb sent then ret false else
  time_sleep 2 ;;
  wait_for_page_ready 10 ;;
  add_url_details title description tags private
  end.

(** Lines 736-747. *)
Definition add_url_verify : M bool :=
  time_sleep 3 ;;
  current_url <- driver_current_url ;;
  if negb (PyStr.contains "add-shaare" current_url)
     && negb (PyStr.contains "admin" current_url)
  then ret true
  else ret false.

Definition add_url_body
  (url title description tags : string) (private : bool) : M bool :=
  saved <- add_url_until_saved url title description tags private ;;
  if saved then add_url_verify else ret false.

Definition add_url (url title description tags : string) (private : bool)
  : M bool :=
  d <- read driver ;;
  match d with
  | None => raise (RuntimeError "WebDriver not initialized")
  | Some _ =>
      logged <- read is_logged_in ;;
      if negb logged then raise (RuntimeError "Not logged in. Call login() first.")
      else
        try_except (add_url_body url title description tags private)
          (fun e => match e with
                    | TimeoutException => ret false
                    | _ => ret false
                    end)
  end.

(** ** [get_links] *)

(** The dictionary [link_info]: the value under ["url"] is what
    [get_attribute("href")] gave, a [str] or [None]. *)
Record link_info : Type := mk_link_info {
  li_url : option string;
  li_title : string;
  li_description : string;
  li_tags : string
}.

Definition modern_selectors : list string :=
  [ ".linklist .linklist-item"; ".bookmark"; ".shaare"; ".link";
    "article"; ".post" ].

Definition container_selectors : list string :=
  [ ".main-content"; ".content"; "#content"; "main"; ".container" ].

Definition link_selectors : list string :=
  [ "a[href*='http']"; ".linklist-link"; ".bookmark-title a";
    ".shaare-title a"; "a" ].

(** [desc_selectors] of [get_links] (lines 914-921) *)
Definition description_selectors : list string :=
  [ ".linklist-description"; ".bookmark-description"; ".shaare-description";
    ".description"; "p"; ".text" ].

Definition tag_selectors : list string :=
  [ ".linklist-tags"; ".bookmark-tags"; ".shaare-tags"; ".tags"; ".tag" ].

(** [href and "http" in href and self.base_url not in href] *)
Definition is_external (base : string) (href : option string) : bool :=
  PyStr.truthy_opt href
  && (PyStr.contains "http" (text_value href)
      && negb (PyStr.contains base (text_value href))).

(** Approach 1 (lines 793-803). *)
Fixpoint find_link_elements (selectors : list string) (limit : Z)
  : M (list E) :=
  match selectors with
  | [] => ret []
  | selector :: rest =>
      hit <- try_except
               (elements <- find_elements None CSS_SELECTOR selector ;;
                if nonempty elements
                then ret (Some (PyStr.slice_to limit elements))
                else ret None)
               (fun _ => ret None) ;;
      match hit with
      | Some link_elements => ret link_elements
      | None => find_link_elements rest limit
      end
  end.

(** The anchors of a list whose href is external, in order
    (lines 813-817 and 846-849). *)
Fixpoint filter_external (links : list E) : M (list E) :=
  match links with
  | [] => ret []
  | link :: rest =>
      href <- get_attribute link "href" ;;
      base <- read base_url ;;
      kept <- filter_external rest ;;
      ret (if is_external base href then link :: kept else kept)
  end.

(** Approach 2 (lines 806-824). *)
Definition find_external_anchors (limit : Z) : M (list E) :=
  try_except
    (all_links <- find_elements None TAG_NAME "a" ;;
     potential_links <- filter_external all_links ;;
     if nonempty potential_links
     then ret (PyStr.slice_to limit potential_links)
     else ret [])
    (fun _ => ret []).

(** Approach 3 (lines 827-856). *)
Fixpoint find_links_in_containers (selectors : list string) (limit : Z)
  : M (list E) :=
  match selectors with
  | [] => ret []
  | container_selector :: rest =>
      hit <- try_except
               (container <- find_element None CSS_SELECTOR container_selector ;;
                container_links <- find_elements (Some container) TAG_NAME "a" ;;
                if nonempty container_links then
                  external_links <- filter_external container_links ;;
                  if nonempty external_links
                  then ret (Some (PyStr.slice_to limit external_links))
                  else ret None
                else ret None)
               (fun _ => ret None) ;;
      match hit with
      | Some link_elements => ret link_elements
      | None => find_links_in_containers rest limit
      end
  end.

(** [a.text.strip() or a.get_attribute("title") or "No title"] *)
Definition anchor_title (a : E) : M string :=
  text <- element_text a ;;
  if PyStr.truthy (PyStr.strip text) then ret (PyStr.strip text)
  else
    alt <- get_attribute a "title" ;;
    if PyStr.truthy_opt alt then ret (text_value alt) else ret "No title".

(** Lines 893-897. *)
Fixpoint first_external (found_links : list E) : M (option E) :=
  match found_links with
  | [] => ret None
  | fl :: rest =>
      href <- get_attribute fl "href" ;;
      base <- read base_url ;;
      if is_external base href then ret (Some fl) else first_external rest
  end.

(** Lines 888-901. *)
Fixpoint find_link_inside (element : E) (selectors : list string)
  : M (option E) :=
  match selectors with
  | [] => ret None
  | link_sel :: rest =>
      link_elem <- try_except
                     (found_links <- find_elements (Some element) CSS_SELECTOR link_sel ;;
                      if nonempty found_links then first_external found_links
                      else ret None)
                     (fun _ => ret None) ;;
      match link_elem with
      | Some fl => ret (Some fl)
      | None => find_link_inside element rest
      end
  end.

(** Lines 925-932; [description] is the value assigned so far. *)
Fixpoint find_description (element : E) (selectors : list string)
  (description : string) : M string :=
  match selectors with
  | [] => ret description
  | desc_sel :: rest =>
      found <- try_except
                 (desc_elem <- find_element (Some element) CSS_SELECTOR desc_sel ;;
                  text <- element_text desc_elem ;;
                  ret (Some (PyStr.strip text)))
                 (fun _ => ret None) ;;
      match found with
      | Some d => if PyStr.truthy d then ret d
                  else find_description element rest d
      | None => find_description element rest description
      end
  end.

(** [[te.text.strip() for te in tag_elems if te.text.strip()]] *)
Fixpoint tag_texts (tag_elems : list E) : M (list string) :=
  match tag_elems with
  | [] => ret []
  | te :: rest =>
      text <- element_text te ;;
      if PyStr.truthy (PyStr.strip text) then
        text' <- element_text te ;;
        others <- tag_texts rest ;;
        ret (PyStr.strip text' :: others)
      else tag_texts rest
  end.

(** Lines 947-955. *)
Fixpoint find_tags (element : E) (selectors : list string) : M string :=
  match selectors with
  | [] => ret ""
  | tag_sel :: rest =>
      found <- try_except
                 (tag_elems <- find_elements (Some element) CSS_SELECTOR tag_sel ;;
                  if nonempty tag_elems then
                    texts <- tag_texts tag_elems ;;
                    ret (Some (PyStr.join " " texts))
                  else ret None)
                 (fun _ => ret None) ;;
      match found with
      | Some tags => ret tags
      | None => find_tags element rest
      end
  end.

(** Lines 871-910: the url and title of a candidate; [None] where the
    source says [continue]. *)
Definition link_url_and_title (element : E) : M (option (option string * string)) :=
  tag <- tag_name element ;;
  if tag =? "a" then
    url <- get_attribute element "href" ;;
    title <- anchor_title element ;;
    ret (Some (url, title))
  else
    link_elem <- find_link_inside element link_selectors ;;
    match link_elem with
    | Some le =>
        url <- get_attribute le "href" ;;
        title <- anchor_title le ;;
        ret (Some (url, title))
    | None => ret None
    end.

(** The body of the [try] of lines 867-962 for one candidate: the record
    to append, or [None] where nothing is appended. *)
Definition parse_link_element (element : E) : M (option link_info) :=
  found <- link_url_and_title element ;;
  match found with
  | None => ret None
  | Some (url, title) =>
      tag <- tag_name element ;;
      description <- (if negb (tag =? "a")
                      then find_description element description_selectors ""
                      else ret "") ;;
      tag' <- tag_name element ;;
      tags <- (if negb (tag' =? "a")
               then find_tags element tag_selectors
               else ret "") ;;
      if PyStr.truthy_opt url
      then ret (Some (mk_link_info url title description tags))
      else ret None
  end.

(** Lines 866-966; [links] is the list built so far. *)
Fixpoint extract_links (link_elements : list E) (links : list link_info)
  : M (list link_info) :=
  match link_elements with
  | [] => ret links
  | element :: rest =>
      parsed <- try_except (parse_link_element element) (fun _ => ret None) ;;
      match parsed with
      | Some info => extract_links rest (links ++ [info])
      | None => extract_links rest links
      end
  end.

(** Lines 780-857: the cascade that chooses the candidates. *)
Definition choose_link_elements (limit : Z) : M (list E) :=
  link_elements <- find_link_elements modern_selectors limit ;;
  link_elements <- (if nonempty link_elements then ret link_elements
                    else find_external_anchors limit) ;;
  if nonempty link_elements then ret link_elements
  else find_links_in_containers container_selectors limit.

(** Lines 780-969: the records of the page the browser is on. *)
Definition collect_links (limit : Z) : M (list link_info) :=
  link_elements <- choose_link_elements limit ;;
  if negb (nonempty link_elements) then
    _ <- driver_page_source ;;
    ret []
  else extract_links link_elements [].

(** Lines 770-778: open the list page. *)
Definition open_list_page : M unit :=
  base <- read base_url ;;
  driver_get base ;;
  wait_for_page_ready 10 ;;
  debug_page_elements.

Definition get_links_body (limit : Z) : M (list link_info) :=
  open_list_page ;;
  collect_links limit.

Definition get_links (limit : Z) : M (list link_info) :=
  logged <- read is_logged_in ;;
  if negb logged then raise (RuntimeError "Not logged in. Call login() first.")
  else try_except (get_links_body limit) (fun _ => ret []).

End Client.

Arguments ShaarliClient W E : clear implicits.
Arguments M W E A : clear implicits.

(** ** A small browser

    A concrete [WebDriver] on which the client can be run: a web of static
    pages, each with a table of what the selectors find, in the top document
    and inside each iframe.  A click or an Enter key on a control starts a
    navigation that completes during the next [time.sleep]. *)
Module Toy.

Definition elem : Type := nat.

Record node : Type := mk_node {
  node_tag : string;
  node_attrs : list (string * string);
  node_text : string;
  node_checked : bool
}.

(** What a [find_elements] call finds: inside which iframe the session is
    ([None]: the top document), the scope of the search, and the rule. *)
Record lookup : Type := mk_lookup {
  lk_context : option elem;
  lk_scope : option elem;
  lk_by : By;
  lk_value : string;
  lk_found : list elem
}.

Record page : Type := mk_page {
  page_urls : list string;
  page_nodes : list node;
  page_lookups : list lookup;
  page_click : list (elem * string);      (* control, destination *)
  page_enter : list (elem * string);      (* field, destination on Enter *)
  page_covered : list elem                (* native click and keys intercepted *)
}.

Record world : Type := mk_world {
  web : list page;
  location : string;
  context : option elem;
  pending : option string;
  typed : list (elem * string);
  open_ : bool
}.

Definition by_eqb (a b : By) : bool :=
  match a, b with
  | NAME, NAME | ID, ID | CSS_SELECTOR, CSS_SELECTOR | XPATH, XPATH
  | TAG_NAME, TAG_NAME | PARTIAL_LINK_TEXT, PARTIAL_LINK_TEXT => true
  | _, _ => false
  end.

Definition opt_eqb (a b : option elem) : bool :=
  match a, b with
  | None, None => true
  | Some x, Some y => Nat.eqb x y
  | _, _ => false
  end.

Definition current_page (w : world) : option page :=
  find (fun p => existsb (String.eqb (location w)) (page_urls p)) (web w).

Definition closed {A} : Res A := Raise (WebDriverException "invalid session id").

Definition assoc (e : elem) (l : list (elem * string)) : option string :=
  option_map snd (find (fun p => Nat.eqb (fst p) e) l).

Definition found (w : world) (scope : option elem) (b : By) (v : string)
  : list elem :=
  match current_page w with
  | None => []
  | Some p =>
      match find (fun k => opt_eqb (lk_context k) (context w)
                           && opt_eqb (lk_scope k) scope
                           && by_eqb (lk_by k) b
                           && String.eqb (lk_value k) v)
                 (page_lookups p) with
      | Some k => lk_found k
      | None => []
      end
  end.

Definition node_of (w : world) (e : elem) : Res node :=
  match current_page w with
  | None => Raise (WebDriverException "stale element reference")
  | Some p =>
      match nth_error (page_nodes p) e with
      | Some n => Ok n
      | None => Raise (WebDriverException "stale element reference")
      end
  end.

Definition covered (w : world) (e : elem) : bool :=
  match current_page w with
  | None => false
  | Some p => existsb (Nat.eqb e) (page_covered p)
  end.

Definition destination (w : world) (e : elem) (enter : bool) : option string :=
  match current_page w with
  | None => None
  | Some p => assoc e (if enter then page_enter p else page_click p)
  end.

Definition set_pending (d : option string) (w : world) : world :=
  mk_world (web w) (location w) (context w)
           (match d with Some _ => d | None => pending w end)
           (typed w) (open_ w).

Definition set_typed (t : list (elem * string)) (w : world) : world :=
  mk_world (web w) (location w) (context w) (pending w) t (open_ w).

Definition set_context (c : option elem) (w : world) : world :=
  mk_world (web w) (location w) c (pending w) (typed w) (open_ w).

Definition goto (url : string) (w : world) : world :=
  mk_world (web w) url None None [] (open_ w).

Definition guarded {A} (w : world) (r : Res A) : Res A :=
  if open_ w then r else closed.

Definition act (w : world) (f : world -> Res unit * world) : Res unit * world :=
  if open_ w then f w else (closed, w).

Definition click (e : elem) (w : world) : Res unit * world :=
  act w (fun w =>
    match node_of w e with
    | Raise x => (Raise x, w)
    | Ok _ =>
        if covered w e
        then (Raise (WebDriverException "element click intercepted"), w)
        else (Ok tt, set_pending (destination w e false) w)
    end).

Definition clear (e : elem) (w : world) : Res unit * world :=
  act w (fun w =>
    match node_of w e with
    | Raise x => (Raise x, w)
    | Ok _ =>
        if covered w e
        then (Raise (WebDriverException "element not interactable"), w)
        else (Ok tt, set_typed (filter (fun p => negb (Nat.eqb (fst p) e)) (typed w)) w)
    end).

Definition send_keys (e : elem) (text : string) (w : world) : Res unit * world :=
  act w (fun w =>
    match node_of w e with
    | Raise x => (Raise x, w)
    | Ok _ =>
        if covered w e
        then (Raise (WebDriverException "element not interactable"), w)
        else if String.eqb text PyStr.newline
        then (Ok tt, set_pending (destination w e true) w)
        else (Ok tt, set_typed (typed w ++ [(e, text)]) w)
    end).

Definition execute_script (script : string) (args : list (ScriptArg elem))
  (w : world) : Res unit * world :=
  act w (fun w =>
    match args with
    | [ArgElem e] =>
        if String.eqb script "arguments[0].click();"
        then (Ok tt, set_pending (destination w e false) w)
        else if String.eqb script "arguments[0].value = '';"
        then (Ok tt, set_typed (filter (fun p => negb (Nat.eqb (fst p) e)) (typed w)) w)
        else (Ok tt, w)
    | [ArgElem e; ArgStr text] => (Ok tt, set_typed (typed w ++ [(e, text)]) w)
    | _ => (Ok tt, w)
    end).

Definition wait_until (t : nat) (c : Condition) (w : world) : Res unit * world :=
  act w (fun w =>
    match c with
    | PresenceOfInput =>
        match found w None TAG_NAME "input" with
        | [] => (Raise TimeoutException, w)
        | _ => (Ok tt, w)
        end
    | _ => (Ok tt, w)
    end).

Definition sleep (n : nat) (w : world) : world :=
  match pending w with
  | Some url => if open_ w then goto url w else w
  | None => w
  end.

Definition find_element (scope : option elem) (b : By) (v : string) (w : world)
  : Res elem :=
  guarded w match found w scope b v with
            | e :: _ => Ok e
            | [] => Raise NoSuchElementException
            end.

Definition get_attribute (e : elem) (name : string) (w : world)
  : Res (option string) :=
  guarded w match node_of w e with
            | Ok n => Ok (option_map snd
                            (find (fun p => String.eqb (fst p) name) (node_attrs n)))
            | Raise x => Raise x
            end.

Definition node_field {A} (f : node -> A) (e : elem) (w : world) : Res A :=
  guarded w match node_of w e with
            | Ok n => Ok (f n)
            | Raise x => Raise x
            end.

(** The pages of the two hosts used below. *)

Definition input (name type : string) : node :=
  mk_node "input" [("name", name); ("type", type)] "" false.

Definition anchor (class href text : string) : node :=
  mk_node "a" [("class", class); ("href", href)] text false.

Definition top (b : By) (v : string) (l : list elem) : lookup :=
  mk_lookup None None b v l.

(** [http://shaarli.example]: a login form, the two pages of the add
    form, and a list page whose tag links carry the class [link]. *)
Definition login_page : page :=
  mk_page ["http://shaarli.example/login"]
    [ input "username" "text"; input "password" "password";
      mk_node "button" [("type", "submit")] "Login" false;
      mk_node "form" [] "" false ]
    [ top TAG_NAME "input" [0; 1]; top TAG_NAME "form" [3];
      top NAME "username" [0]; top ID "username" [0];
      top NAME "password" [1];
      top CSS_SELECTOR "input[type='text']" [0];
      top CSS_SELECTOR "input[type='password']" [1];
      top CSS_SELECTOR "button[type='submit']" [2];
      top CSS_SELECTOR "button" [2] ]
    [ (2, "http://shaarli.example/") ]
    [ (1, "http://shaarli.example/") ]
    [].

Definition list_page : page :=
  mk_page ["http://shaarli.example"; "http://shaarli.example/"]
    [ anchor "link" "http://shaarli.example/?searchtags=rocq" "rocq";
      anchor "" "http://shaarli.example/admin/add-shaare" "Shaare" ]
    [ top TAG_NAME "a" [0; 1];
      top CSS_SELECTOR ".link" [0];
      top PARTIAL_LINK_TEXT "Shaare" [1] ]
    [] [] [].

Definition add_page : page :=
  mk_page ["http://shaarli.example/admin/add-shaare"]
    [ input "post" "text";
      mk_node "input" [("type", "submit"); ("value", "Add link")] "" false ]
    [ top TAG_NAME "input" [0; 1];
      top NAME "post" [0];
      top CSS_SELECTOR "input[type='submit']" [1] ]
    [ (1, "http://shaarli.example/admin/shaare") ]
    [ (0, "http://shaarli.example/admin/shaare") ]
    [].

Definition details_page : page :=
  mk_page ["http://shaarli.example/admin/shaare"]
    [ input "lf_title" "text";
      mk_node "textarea" [("name", "lf_description")] "" false;
      input "lf_tags" "text";
      input "lf_private" "checkbox";
      mk_node "input" [("type", "submit"); ("value", "Save")] "" false ]
    [ top TAG_NAME "input" [0; 2; 3; 4];
      top NAME "lf_title" [0]; top NAME "lf_description" [1];
      top NAME "lf_tags" [2]; top NAME "lf_private" [3];
      top CSS_SELECTOR "input[type='submit'][value*='Save']" [4];
      top CSS_SELECTOR "input[type='submit']" [4] ]
    [ (4, "http://shaarli.example/") ]
    [] [].

(** [http://framed.example]: the login form sits in an iframe; the top
    document has a hidden input only. *)
Definition framed_login_page : page :=
  mk_page ["http://framed.example/login"]
    [ input "token" "hidden";
      mk_node "iframe" [("src", "form.html"); ("name", "auth")] "" false;
      input "login" "text"; input "password" "password" ]
    [ top TAG_NAME "input" [0]; top TAG_NAME "iframe" [1];
      mk_lookup (Some 1) None TAG_NAME "input" [2; 3];
      mk_lookup (Some 1) None NAME "login" [2];
      mk_lookup (Some 1) None NAME "password" [3] ]
    [] [ (3, "http://framed.example/") ] [].

(** [http://covered.example]: a banner lies over the login button, so that
    native clicks on it are intercepted. *)
Definition covered_page : page :=
  mk_page ["http://covered.example/login"]
    [ mk_node "button" [("type", "submit")] "Login" false ]
    [ top CSS_SELECTOR "button[type='submit']" [0] ]
    [ (0, "http://covered.example/") ] [] [0].

(** [http://login.example]: the host name has "login" in it, so every URL
    of the site does; the page after the login shows a Logout link. *)
Definition named_login_page : page :=
  mk_page ["http://login.example/login"]
    [ input "login" "text"; input "password" "password";
      mk_node "button" [("type", "submit")] "Login" false ]
    [ top TAG_NAME "input" [0; 1];
      top NAME "login" [0]; top NAME "password" [1];
      top CSS_SELECTOR "button[type='submit']" [2] ]
    [ (2, "http://login.example/") ] [] [].

Definition named_home_page : page :=
  mk_page ["http://login.example"; "http://login.example/"]
    [ anchor "" "http://login.example/?do=logout" "Logout" ]
    [ top TAG_NAME "a" [0]; top PARTIAL_LINK_TEXT "Logout" [0] ]
    [] [] [].

(** [http://portal.example]: three iframes; the first is an advertisement,
    the second and the third each hold a login form. *)
Definition portal_login_page : page :=
  mk_page ["http://portal.example/login"]
    [ input "token" "hidden";
      mk_node "iframe" [("src", "ad.html")] "" false;
      mk_node "iframe" [("src", "form.html"); ("name", "auth")] "" false;
      mk_node "iframe" [("src", "sso.html"); ("name", "sso")] "" false;
      input "login" "text"; input "password" "password";
      input "login" "text" ]
    [ top TAG_NAME "input" [0]; top TAG_NAME "iframe" [1; 2; 3];
      mk_lookup (Some 2) None TAG_NAME "input" [4; 5];
      mk_lookup (Some 2) None NAME "login" [4];
      mk_lookup (Some 2) None NAME "password" [5];
      mk_lookup (Some 3) None TAG_NAME "input" [6];
      mk_lookup (Some 3) None NAME "login" [6] ]
    [] [] [].

(** [http://search.example]: the top document has a search box that no
    rule of the username plan matches; the login form sits in an iframe. *)
Definition search_login_page : page :=
  mk_page ["http://search.example/login"]
    [ input "q" "search";
      mk_node "iframe" [("src", "form.html"); ("name", "auth")] "" false;
      input "login" "text" ]
    [ top TAG_NAME "input" [0]; top TAG_NAME "iframe" [1];
      mk_lookup (Some 1) None TAG_NAME "input" [2];
      mk_lookup (Some 1) None NAME "login" [2] ]
    [] [] [].

Definition the_web : list page :=
  [ login_page; list_page; add_page; details_page; framed_login_page;
    covered_page; named_login_page; named_home_page; portal_login_page;
    search_login_page ].

#[global] Instance browser : WebDriver world elem := {
  drv_launch := fun _ => Ok (mk_world the_web "about:blank" None None [] true);
  drv_set_window_size := fun _ _ w => act w (fun w => (Ok tt, w));
  drv_quit := fun w =>
    act w (fun w => (Ok tt, mk_world (web w) (location w) None None [] false));
  drv_get := fun url w => act w (fun w => (Ok tt, goto url w));
  drv_current_url := fun w => guarded w (Ok (location w));
  drv_page_source := fun w => guarded w (Ok "<html></html>");
  drv_find_elements := fun scope b v w => guarded w (Ok (found w scope b v));
  drv_find_element := find_element;
  drv_get_attribute := get_attribute;
  drv_tag_name := node_field node_tag;
  drv_text := node_field node_text;
  drv_is_selected := node_field node_checked;
  drv_click := click;
  drv_clear := clear;
  drv_send_keys := send_keys;
  drv_execute_script := execute_script;
  drv_switch_to_frame := fun e w => act w (fun w => (Ok tt, set_context (Some e) w));
  drv_switch_to_default_content := fun w => act w (fun w => (Ok tt, set_context None w));
  drv_wait_until := wait_until;
  drv_sleep := sleep;
  requests_import := Ok tt;
  requests_get := fun _ _ => Ok 200
}.

Definition shaarli : string := "http://shaarli.example".

(** A client whose driver has been started. *)
Definition started (url : string) : ShaarliClient world elem :=
  snd (start_driver (__init__ url true 10)).

(** The browser of a client; a closed one where there is none. *)
Definition world_of (s : ShaarliClient world elem) : world :=
  match driver s with
  | Some w => w
  | None => mk_world [] "about:blank" None None [] false
  end.

(** The same client with the browser on a page. *)
Definition on_page (base url : string) : ShaarliClient world elem :=
  snd (driver_get url (started base)).

(** The client of [http://shaarli.example] after a successful login. *)
Definition logged_in : ShaarliClient world elem :=
  snd (login "admin" "secret" (started "http://shaarli.example/")).

End Toy.

(** ** [main]

    The example run at the end of the module.  It works on the client it
    creates and on what it prints, so a script carries both. *)

From Stdlib Require Import DecimalString.

Section Main.

Context {W E : Type} {D : WebDriver W E}.












End Main.

(** ** Variants of the small browser

    The same browser with another [import requests], [requests.get],
    [switch_to.frame] or [find_elements], for the runs in which these
    fail. *)
Module ToyWith.

Definition variant (imp : Res unit) (req : string -> nat -> Res nat)
  (switch : Toy.elem -> Toy.world -> Res unit * Toy.world)
  (find : option Toy.elem -> By -> string -> Toy.world -> Res (list Toy.elem))
  : WebDriver Toy.world Toy.elem := {|
  drv_launch := drv_launch (WebDriver := Toy.browser);
  drv_set_window_size := drv_set_window_size (WebDriver := Toy.browser);
  drv_quit := drv_quit (WebDriver := Toy.browser);
  drv_get := drv_get (WebDriver := Toy.browser);
  drv_current_url := drv_current_url (WebDriver := Toy.browser);
  drv_page_source := drv_page_source (WebDriver := Toy.browser);
  drv_find_elements := find;
  drv_find_element := drv_find_element (WebDriver := Toy.browser);
  drv_get_attribute := drv_get_attribute (WebDriver := Toy.browser);
  drv_tag_name := drv_tag_name (WebDriver := Toy.browser);
  drv_text := drv_text (WebDriver := Toy.browser);
  drv_is_selected := drv_is_selected (WebDriver := Toy.browser);
  drv_click := drv_click (WebDriver := Toy.browser);
  drv_clear := drv_clear (WebDriver := Toy.browser);
  drv_send_keys := drv_send_keys (WebDriver := Toy.browser);
  drv_execute_script := drv_execute_script (WebDriver := Toy.browser);
  drv_switch_to_frame := switch;
  drv_switch_to_default_content :=
    drv_switch_to_default_content (WebDriver := Toy.browser);
  drv_wait_until := drv_wait_until (WebDriver := Toy.browser);
  drv_sleep := drv_sleep (WebDriver := Toy.browser);
  requests_import := imp;
  requests_get := req
|}.



(** The iframe [1] cannot be switched into. *)
Definition broken_frame : WebDriver Toy.world Toy.elem :=
  variant (Ok tt)
          (requests_get (WebDriver := Toy.browser))
          (fun e w =>
             if Nat.eqb e 1
             then (Raise (WebDriverException "no such frame"), w)
             else drv_switch_to_frame (WebDriver := Toy.browser) e w)
          (drv_find_elements (WebDriver := Toy.browser)).

(** The search for the partial link text "Tools" fails in the browser. *)
Definition broken_marker : WebDriver Toy.world Toy.elem :=
  variant (Ok tt)
          (requests_get (WebDriver := Toy.browser))
          (drv_switch_to_frame (WebDriver := Toy.browser))
          (fun scope b v w =>
             if Toy.by_eqb b PARTIAL_LINK_TEXT && String.eqb v "Tools"
             then Raise (WebDriverException "unknown error")
             else drv_find_elements (WebDriver := Toy.browser) scope b v w).

End ToyWith.

(** ** Vocabulary of the statements *)

Section Vocabulary.

Context {W E : Type} {D : WebDriver W E}.

Local Notation "x <- c ;; k" := (bind c (fun x => k))
  (at level 61, c at next level, right associativity) : py_scope.
Local Notation "c ;; k" := (bind c (fun _ => k))
  (at level 61, right associativity) : py_scope.
Local Open Scope py_scope.

(** The object with further calls logged and nothing else changed. *)
Definition add_calls (l : list (Call E)) (s : ShaarliClient W E)
  : ShaarliClient W E :=
  mkClient (base_url s) (timeout s) (driver s) (is_logged_in s)
           (firefox_options s) (calls s ++ l).

(** The call a selection rule makes on the driver. *)
Definition rule_call (r : Selector) : Call E :=
  CFindElements None (fst r) (snd r).

(** *** The three tactics of the interaction engine, each on its own *)

(** the native action: a click, or clear-then-type *)
Definition native_action (el : E) (action : string) (text : option string)
  : M W E unit :=
  if action =? "click" then element_click el
  else element_clear el ;; element_send_keys el (text_value text).

Definition tactic_direct (el : E) (action : string) (text : option string)
  : M W E unit :=
  native_action el action text.

(** the opening of the second tactic: scroll into view, then pause *)
Definition scroll_into_view (el : E) : M W E unit :=
  execute_script scroll_script [ArgElem el] ;;
  time_sleep 1.

Definition tactic_scrolled (el : E) (action : string) (text : option string)
  : M W E unit :=
  scroll_into_view el ;;
  native_action el action text.

Definition tactic_scripted (el : E) (action : string) (text : option string)
  : M W E unit :=
  if action =? "click" then
    execute_script "arguments[0].click();" [ArgElem el]
  else
    execute_script "arguments[0].value = '';" [ArgElem el] ;;
    execute_script "arguments[0].value = arguments[1];"
      [ArgElem el; ArgStr (text_value text)] ;;
    execute_script
      "arguments[0].dispatchEvent(new Event('input', {bubbles: true}));"
      [ArgElem el] ;;
    execute_script
      "arguments[0].dispatchEvent(new Event('change', {bubbles: true}));"
      [ArgElem el].

(** *** What a rule finds in a document *)

(** The first element a rule finds in the browser state [w]; [None] where
    it finds nothing or the query raises. *)
Definition rule_matches (w : W) (r : Selector) : option E :=
  match drv_find_elements None (fst r) (snd r) w with
  | Ok (e :: _) => Some e
  | _ => None
  end.

(** The first element the first matching rule of a plan finds. *)
Fixpoint plan_hit (w : W) (plan : list Selector) : option E :=
  match plan with
  | [] => None
  | r :: rest =>
      match rule_matches w r with
      | Some e => Some e
      | None => plan_hit w rest
      end
  end.

(** The rules of a plan up to and including the first that matches. *)
Fixpoint consulted (w : W) (plan : list Selector) : list Selector :=
  match plan with
  | [] => []
  | r :: rest =>
      match rule_matches w r with
      | Some _ => [r]
      | None => r :: consulted w rest
      end
  end.

(** *** The iframe fallback *)

(** The calls that only read the browser. *)
Definition is_query (c : Call E) : bool :=
  match c with
  | CCurrentUrl | CPageSource | CFindElements _ _ _ | CFindElement _ _ _
  | CGetAttribute _ _ | CTagName _ | CText _ | CIsSelected _ => true
  | _ => false
  end.

(** The object with the browser in state [w] and further calls logged. *)
Definition moved (w : W) (l : list (Call E)) (s : ShaarliClient W E)
  : ShaarliClient W E :=
  add_calls l (with_driver (Some w) s).

(** The calls [debug_page_elements] makes when the browser is in state [w]. *)
Definition debug_calls (w : W) : list (Call E) :=
  calls (snd (debug_page_elements (mkClient "" 0 (Some w) false [] []))).

(** The browser after [switch_to.frame(f)], and after
    [switch_to.default_content()]. *)
Definition enter_frame (w : W) (f : E) : W := snd (drv_switch_to_frame f w).
Definition leave_frame (w : W) : W := snd (drv_switch_to_default_content w).

(** The plan retried inside an iframe. *)
Definition iframe_plan : list Selector := firstn 5 username_selectors.

(** A visit of iframe [f] from the browser state [w] that finds nothing:
    the switch into [f] succeeds, none of the five rules matches inside,
    and the switch back succeeds. *)
Definition frame_misses (w : W) (f : E) : Prop :=
  fst (drv_switch_to_frame f w) = Ok tt
  /\ plan_hit (enter_frame w f) iframe_plan = None
  /\ fst (drv_switch_to_default_content (enter_frame w f)) = Ok tt.

(** An iframe the session cannot enter: the switch into [f] raises, and
    the [switch_to.default_content()] of the handler succeeds. *)
Definition frame_skipped (w : W) (f : E) : Prop :=
  is_ok (fst (drv_switch_to_frame f w)) = false
  /\ fst (drv_switch_to_default_content (enter_frame w f)) = Ok tt.

(** The search passes the iframes [frames] one after the other: each is
    visited without a hit, or cannot be entered. *)
Fixpoint frames_passed (w : W) (frames : list E) : Prop :=
  match frames with
  | [] => True
  | f :: rest =>
      (frame_misses w f \/ frame_skipped w f)
      /\ frames_passed (leave_frame (enter_frame w f)) rest
  end.

(** The browser after the search has passed [frames]. *)
Definition after_passed (w : W) (frames : list E) : W :=
  fold_left (fun w f => leave_frame (enter_frame w f)) frames w.

(** The calls made inside an iframe that yields nothing: the debug queries
    and the five rules. *)
Definition miss_queries (w : W) : list (Call E) :=
  debug_calls w ++ map rule_call iframe_plan.

(** The calls of the search while it passes [frames]: per iframe the
    switch into it, the queries inside if the switch succeeded (none if it
    raised), the switch back. *)
Fixpoint passed_calls (w : W) (frames : list E) : list (Call E) :=
  match frames with
  | [] => []
  | f :: rest =>
      (CSwitchToFrame f
         :: (if is_ok (fst (drv_switch_to_frame f w))
             then miss_queries (enter_frame w f) else [])
         ++ [CSwitchToDefaultContent])
      ++ passed_calls (leave_frame (enter_frame w f)) rest
  end.

(** The queries of the three approaches of lines 258-318 when the browser
    is in state [w]. *)
Definition document_calls (w : W) : list (Call E) :=
  calls (snd (find_username_in_document (mkClient "" 0 (Some w) false [] []))).

(** The queries made inside an iframe where a rule matches: the debug
    queries, then the rules up to the matching one. *)
Definition hit_queries (w : W) : list (Call E) :=
  debug_calls w ++ map rule_call (consulted w iframe_plan).

(** *** The object across a method call *)

(** [s'] is [s] with, at most, the browser moved on and calls logged: the
    configuration and the logged-in flag are the same, and a driver that
    was there is still there. *)
Definition same_object (s s' : ShaarliClient W E) : Prop :=
  base_url s' = base_url s
  /\ timeout s' = timeout s
  /\ firefox_options s' = firefox_options s
  /\ is_logged_in s' = is_logged_in s
  /\ (driver s <> None -> driver s' <> None).

(** A body that only browses: whatever it returns or raises, it leaves the
    same object. *)
Definition browsing {A} (c : M W E A) : Prop :=
  forall s, same_object s (snd (c s)).

(** *** The methods a caller can invoke, and runs of them *)

Inductive Op : Type :=
| Enter                                   (* __enter__ *)
| Exit                                    (* __exit__ *)
| StartDriver
| Close
| TestConnectivity
| WaitForPageReady (tmo : nat)
| CheckForIframes
| TryInteract (element : option E) (action : string) (text : option string)
| DebugPageElements
| Login (username password : string)
| IsLoggedIn                              (* _is_logged_in *)
| AddUrl (url title description tags : string) (private : bool)
| GetLinks (limit : Z).

(** The object after the call, whether the call returned or raised. *)
Definition run_op (op : Op) (s : ShaarliClient W E) : ShaarliClient W E :=
  match op with
  | Enter | StartDriver => snd (start_driver s)
  | Exit | Close => snd (close s)
  | TestConnectivity => snd (test_connectivity s)
  | WaitForPageReady tmo => snd (wait_for_page_ready tmo s)
  | CheckForIframes => snd (check_for_iframes s)
  | TryInteract element action text =>
      snd (try_interact_with_element element action text s)
  | DebugPageElements => snd (debug_page_elements s)
  | Login username password => snd (login username password s)
  | IsLoggedIn => snd (_is_logged_in s)
  | AddUrl url title description tags private =>
      snd (add_url url title description tags private s)
  | GetLinks limit => snd (get_links limit s)
  end.

Definition run_ops (ops : list Op) (s : ShaarliClient W E)
  : ShaarliClient W E :=
  fold_left (fun s op => run_op op s) ops s.

(** *** The urls of the records *)

(** A body run with the browser in state [w] and the base URL [base]: it
    leaves both as they are, and what it returns satisfies [P]. *)
Definition ensures (w : W) (base : string) {A} (P : A -> Prop) (c : M W E A)
  : Prop :=
  forall s,
    driver s = Some w -> base_url s = base ->
    match fst (c s) with Ok a => P a | Raise _ => True end
    /\ driver (snd (c s)) = Some w
    /\ base_url (snd (c s)) = base.

(** An anchor whose href passes the filter of lines 815, 848 and 895. *)
Definition external_anchor (w : W) (base : string) (a : E) : Prop :=
  exists href,
    drv_get_attribute a "href" w = Ok href /\ is_external base href = true.

(** An element one of the selectors matches, as the candidates of tier 1. *)
Definition tier1_match (w : W) (selectors : list string) (el : E) : Prop :=
  exists selector elements,
    In selector selectors
    /\ drv_find_elements None CSS_SELECTOR selector w = Ok elements
    /\ In el elements.

(** A tier-1 candidate that is itself an anchor. *)
Definition tier1_anchor (w : W) (el : E) : Prop :=
  drv_tag_name el w = Ok "a" /\ tier1_match w modern_selectors el.

(** A candidate of the cascade: an external anchor (tiers 2 and 3) or an
    element tier 1 matched. *)
Definition candidate (w : W) (base : string) (el : E) : Prop :=
  external_anchor w base el \/ tier1_match w modern_selectors el.

(** What holds of the url of every record: it is a non-empty string, and
    it does not contain the base URL unless it is the href of a tier-1
    candidate that is itself an anchor. *)
Definition url_invariant (w : W) (base : string) (r : link_info) : Prop :=
  exists u,
    li_url r = Some u /\ u <> ""
    /\ (PyStr.contains base u = false
        \/ exists el, tier1_anchor w el
                      /\ drv_get_attribute el "href" w = Ok (Some u)).

(** A run in which no [login] returns [True]. *)
Fixpoint never_logged_in (ops : list Op) (s : ShaarliClient W E) : Prop :=
  match ops with
  | [] => True
  | op :: rest =>
      match op with
      | Login username password => fst (login username password s) <> Ok true
      | _ => True
      end
      /\ never_logged_in rest (run_op op s)
  end.

(** A body made of queries: in a given browser state it always returns the
    same and makes the same calls, all of them queries, and changes nothing
    else. *)
Definition observing {A} (c : M W E A) : Prop :=
  forall w, exists r l,
    forallb is_query l = true
    /\ forall s, driver s = Some w -> c s = (r, add_calls l s).

End Vocabulary.

(** ** Further vocabulary *)

(** The string of [k] slashes. *)
Fixpoint slashes (k : nat) : string :=
  match k with
  | O => ""
  | S k => String "/" (slashes k)
  end.

(** [needle] occurs in [hay] as a substring. *)
Definition occurs_in (needle hay : string) : Prop :=
  exists pre post, hay = (pre ++ needle ++ post)%string.

Section More_vocabulary.

Context {W E : Type} {D : WebDriver W E}.

(** Both attributes [check_for_iframes] logs can be read. *)
Definition attributes_readable (w : W) (iframe : E) : bool :=
  is_ok (drv_get_attribute iframe "src" w)
  && is_ok (drv_get_attribute iframe "name" w).

(** The links a marker text finds, where the query answers. *)
Definition marker_links (w : W) (text : string) : option (list E) :=
  match drv_find_elements None PARTIAL_LINK_TEXT text w with
  | Ok l => Some l
  | Raise _ => None
  end.

(** The marker check of [_is_logged_in] on the page [w]: the three
    queries answer and one of them finds a link.  It fails where one of
    them raises, whatever the others find. *)
Definition marker_check (w : W) : bool :=
  match marker_links w "Logout", marker_links w "Tools",
        marker_links w "Shaare" with
  | Some logout_elements, Some admin_elements, Some add_elements =>
      nonempty logout_elements || nonempty admin_elements
      || nonempty add_elements
  | _, _, _ => false
  end.

(** What a body returns, where it returns, satisfies [P]. *)
Definition yields {A} (P : A -> Prop) (c : M W E A) : Prop :=
  forall s, match fst (c s) with Ok a => P a | Raise _ => True end.

(** A body that reads the page: with the browser in state [w] and the base
    URL [base] it always returns the same and makes the same calls, all of
    them queries, and changes nothing else. *)
Definition scraping {A} (c : M W E A) : Prop :=
  forall w base, exists r l,
    forallb is_query l = true
    /\ forall s, driver s = Some w -> base_url s = base ->
                 c s = (r, add_calls l s).

(** All the calls a body makes satisfy [P]. *)
Definition emits (P : Call E -> Prop) {A} (c : M W E A) : Prop :=
  forall s, exists l, calls (snd (c s)) = calls s ++ l /\ Forall P l.

(** The calls the interaction engine may make for the element [el]: the
    native calls on [el], a script whose first argument is [el], a pause. *)
Definition touches (el : E) (c : Call E) : Prop :=
  match c with
  | CClick e | CClear e | CSendKeys e _ => e = el
  | CExecuteScript _ (ArgElem e :: _) => e = el
  | CSleep _ => True
  | _ => False
  end.

End More_vocabulary.

(** * Properties *)

Unset Implicit Arguments.

Section Monad_facts.

Context {W E : Type} {D : WebDriver W E}.

Lemma add_calls_nil (s : ShaarliClient W E) : add_calls [] s = s.
Proof. destruct s. unfold add_calls. cbn. rewrite app_nil_r. reflexivity. Qed.

Lemma add_calls_app l1 l2 (s : ShaarliClient W E) :
  add_calls l2 (add_calls l1 s) = add_calls (l1 ++ l2) s.
Proof. unfold add_calls. cbn. rewrite app_assoc. reflexivity. Qed.

Lemma query_run {A} (c : Call E) (f : W -> Res A) (s : ShaarliClient W E) w :
  driver s = Some w -> query c f s = (f w, add_calls [c] s).
Proof. intros H. unfold query. rewrite H. reflexivity. Qed.

(** The two [except] clauses of the public methods do the same. *)
Lemma except_false (e : exn) :
  match e with
  | TimeoutException => ret false
  | _ => ret false
  end = @ret W E bool false.
Proof. destruct e; reflexivity. Qed.

End Monad_facts.

(** Run the next call whose outcome the goal depends on. *)
Ltac run_step :=
  match goal with
  | |- context [match ?x with (_, _) => _ end] =>
      lazymatch x with
      | context [match _ with _ => _ end] => fail
      | _ => destruct x as [[?|?] ?] eqn:?
      end
  end; cbn [fst snd is_ok].

Section Interaction.

Context {W E : Type} {D : WebDriver W E}.

(** C8.  With [None] for the element, [try_interact_with_element] returns
    [False] at once: the object and the browser are as before and no call
    has been made. *)
Theorem try_interact_none (action : string) (text : option string)
  (s : ShaarliClient W E) :
  try_interact_with_element None action text s = (Ok false, s).
Proof. reflexivity. Qed.

(** C4.  For a click, or for send_keys with a text, the engine runs the
    direct tactic, then the scrolled one from where the direct one failed,
    then the scripted one from where the scrolled one failed.  It returns
    [True] in the state left by the first tactic that completes, so no
    later tactic has run; it returns [False] exactly when all three have
    raised; it never raises itself. *)
Theorem try_interact_escalates (el : E) (action : string)
  (text : option string) (s : ShaarliClient W E) :
  action = "click" \/ (action = "send_keys" /\ PyStr.truthy_opt text = true) ->
  let direct := tactic_direct el action text s in
  let scrolled := tactic_scrolled el action text (snd direct) in
  let scripted := tactic_scripted el action text (snd scrolled) in
  try_interact_with_element (Some el) action text s =
    (if is_ok (fst direct) then (Ok true, snd direct)
     else if is_ok (fst scrolled) then (Ok true, snd scrolled)
     else if is_ok (fst scripted) then (Ok true, snd scripted)
     else (Ok false, snd scripted))
  /\ (fst (try_interact_with_element (Some el) action text s) = Ok false
      <-> is_ok (fst direct) = false /\ is_ok (fst scrolled) = false
          /\ is_ok (fst scripted) = false).
Proof.
  intros [-> | [-> Htext]]; cbv zeta.
  - unfold try_interact_with_element, tactic_direct, tactic_scrolled,
      tactic_scripted, native_action.
    cbn [String.eqb Ascii.eqb Bool.eqb andb].
    unfold scroll_into_view, bind, try_except, ret.
    repeat run_step;
      (split; [reflexivity | split; intros; intuition congruence]).
  - unfold try_interact_with_element, tactic_direct, tactic_scrolled,
      tactic_scripted, native_action.
    rewrite Htext.
    cbn [String.eqb Ascii.eqb Bool.eqb andb].
    unfold scroll_into_view, bind, try_except, ret.
    repeat run_step;
      (split; [reflexivity | split; intros; intuition congruence]).
Qed.

(** C9, as amended.  With action "send_keys" and a text that is empty or
    [None], every tactic skips its send_keys branch: the call returns
    [False] for every element, and nothing is cleared, typed or assigned.
    The first and third tactic do nothing at all; the second still runs its
    scroll-into-view script and, where that did not raise, its pause. *)
Theorem try_interact_send_keys_without_text (el : E) (text : option string)
  (s : ShaarliClient W E) :
  PyStr.truthy_opt text = false ->
  let s' := snd (scroll_into_view el s) in
  try_interact_with_element (Some el) "send_keys" text s = (Ok false, s')
  /\ (calls s' = calls s
      \/ calls s' = calls s ++ [CExecuteScript scroll_script [ArgElem el]]
      \/ calls s' = calls s ++ [CExecuteScript scroll_script [ArgElem el];
                                CSleep 1]).
Proof.
  intros Htext.
  unfold try_interact_with_element, scroll_into_view.
  rewrite Htext.
  cbn [String.eqb Ascii.eqb Bool.eqb andb].
  unfold bind, try_except, ret, execute_script, command, time_sleep.
  destruct (driver s) as [w|] eqn:Hd; cbn.
  - destruct (drv_execute_script scroll_script [ArgElem el] w) as [[[]|x] w'];
      cbn; (split; [reflexivity|]).
    + right; right. rewrite <- app_assoc. reflexivity.
    + right; left. reflexivity.
  - split; [reflexivity | left; reflexivity].
Qed.

End Interaction.

Section Resolver.

Context {W E : Type} {D : WebDriver W E}.

Lemma find_elements_run (s : ShaarliClient W E) w b v :
  driver s = Some w ->
  find_elements None b v s
  = (drv_find_elements None b v w, add_calls [rule_call (b, v)] s).
Proof. intros H. unfold find_elements. apply query_run, H. Qed.

(** One turn of the loop: the rule is queried, and its first element, if
    any, is the outcome. *)
Lemma first_match_turn (s : ShaarliClient W E) w b v :
  driver s = Some w ->
  try_except
    (bind (find_elements None b v) (fun elements => ret (hd_error elements)))
    (fun _ => ret None) s
  = (Ok (rule_matches w (b, v)), add_calls [rule_call (b, v)] s).
Proof.
  intros H. unfold try_except, bind, rule_matches.
  rewrite find_elements_run with (w := w) by exact H. cbn [fst snd].
  destruct (drv_find_elements None b v w) as [[|e l]|x]; reflexivity.
Qed.

Lemma first_match_run (plan : list Selector) (s : ShaarliClient W E) w :
  driver s = Some w ->
  first_match plan s
  = (Ok (plan_hit w plan), add_calls (map rule_call (consulted w plan)) s).
Proof.
  revert s. induction plan as [|[b v] rest IH]; intros s H.
  - cbn. rewrite add_calls_nil. reflexivity.
  - cbn [first_match plan_hit consulted].
    unfold bind at 1. rewrite first_match_turn with (w := w) by exact H.
    destruct (rule_matches w (b, v)) as [e|].
    + reflexivity.
    + rewrite IH by exact H. rewrite add_calls_app. reflexivity.
Qed.

(** C3.  Let rule [r] at index [i] of a plan find [e] first in the current
    document, while every rule before it finds nothing (or its query
    raises).  Then the resolver returns [e], and the calls it makes are the
    queries of the rules up to index [i], one each and in order: no rule
    after [i] is consulted, and no element after the first is looked at. *)
Theorem first_match_priority (plan : list Selector) (i : nat) (r : Selector)
  (e : E) (s : ShaarliClient W E) (w : W) :
  driver s = Some w ->
  nth_error plan i = Some r ->
  (forall j r', j < i -> nth_error plan j = Some r' -> rule_matches w r' = None) ->
  rule_matches w r = Some e ->
  first_match plan s
  = (Ok (Some e), add_calls (map rule_call (firstn (S i) plan)) s).
Proof.
  intros Hd. revert i s Hd.
  induction plan as [|[b v] rest IH]; intros i s Hd Hnth Hbefore Hhit.
  - destruct i; discriminate.
  - cbn [first_match]. unfold bind at 1. rewrite first_match_turn with (w := w) by exact Hd.
    destruct i as [|i].
    + cbn in Hnth. injection Hnth as <-. rewrite Hhit. reflexivity.
    + rewrite (Hbefore 0 (b, v)) by (cbn; auto; lia).
      rewrite (IH i); auto.
      * rewrite add_calls_app. reflexivity.
      * intros j r' Hj Hr'. apply (Hbefore (S j) r'); [lia | exact Hr'].
Qed.

End Resolver.

(** ** The iframe fallback of [login] *)

Section Iframes.

Context {W E : Type} {D : WebDriver W E}.

Lemma moved_driver w l (s : ShaarliClient W E) : driver (moved w l s) = Some w.
Proof. reflexivity. Qed.

Lemma moved_moved w1 l1 w2 l2 (s : ShaarliClient W E) :
  moved w2 l2 (moved w1 l1 s) = moved w2 (l1 ++ l2) s.
Proof. unfold moved, add_calls, with_driver. cbn. rewrite app_assoc. reflexivity. Qed.

Lemma add_calls_moved w1 l1 l2 (s : ShaarliClient W E) :
  add_calls l2 (moved w1 l1 s) = moved w1 (l1 ++ l2) s.
Proof. unfold moved, add_calls, with_driver. cbn. rewrite app_assoc. reflexivity. Qed.

Lemma moved_same w (s : ShaarliClient W E) :
  driver s = Some w -> moved w [] s = s.
Proof.
  intros H. destruct s. cbn in H. subst.
  unfold moved, add_calls, with_driver. cbn. rewrite app_nil_r. reflexivity.
Qed.

Lemma command_run {A} (c : Call E) (f : W -> Res A * W)
  (s : ShaarliClient W E) w :
  driver s = Some w ->
  command c f s = (fst (f w), moved (snd (f w)) [c] s).
Proof.
  intros H. unfold command. rewrite H. destruct (f w). reflexivity.
Qed.

Lemma observing_ret {A} (a : A) : observing (W:=W) (E:=E) (ret a).
Proof.
  intros w. exists (Ok a), []. split; [reflexivity|].
  intros s _. rewrite add_calls_nil. reflexivity.
Qed.

Lemma observing_query {A} (c : Call E) (f : W -> Res A) :
  is_query c = true -> observing (query c f).
Proof.
  intros Hc w. exists (f w), [c]. split; [cbn; rewrite Hc; reflexivity|].
  intros s H. apply query_run, H.
Qed.

Lemma observing_bind {A B} (c : M W E A) (k : A -> M W E B) :
  observing c -> (forall a, observing (k a)) -> observing (bind c k).
Proof.
  intros Hc Hk w. destruct (Hc w) as (r & l & Hl & Hrun).
  destruct r as [a|x].
  - destruct (Hk a w) as (r' & l' & Hl' & Hrun').
    exists r', (l ++ l'). split; [rewrite forallb_app, Hl, Hl'; reflexivity|].
    intros s H. unfold bind. rewrite (Hrun s H).
    rewrite (Hrun' (add_calls l s) H). rewrite add_calls_app. reflexivity.
  - exists (Raise x), l. split; [exact Hl|].
    intros s H. unfold bind. rewrite (Hrun s H). reflexivity.
Qed.

Lemma observing_try {A} (c : M W E A) (h : exn -> M W E A) :
  observing c -> (forall e, observing (h e)) -> observing (try_except c h).
Proof.
  intros Hc Hh w. destruct (Hc w) as (r & l & Hl & Hrun).
  destruct r as [a|x].
  - exists (Ok a), l. split; [exact Hl|].
    intros s H. unfold try_except. rewrite (Hrun s H). reflexivity.
  - destruct (Hh x w) as (r' & l' & Hl' & Hrun').
    exists r', (l ++ l'). split; [rewrite forallb_app, Hl, Hl'; reflexivity|].
    intros s H. unfold try_except. rewrite (Hrun s H).
    rewrite (Hrun' (add_calls l s) H). rewrite add_calls_app. reflexivity.
Qed.

Lemma observing_debug_inputs (l : list E) : observing (debug_inputs l).
Proof.
  induction l as [|inp rest IH]; cbn [debug_inputs].
  - apply observing_ret.
  - apply observing_bind; [|intros _; exact IH].
    apply observing_try; [|intros _; apply observing_ret].
    repeat (apply observing_bind;
            [apply observing_query; reflexivity | intros _]).
    apply observing_ret.
Qed.

Lemma observing_debug_page_elements :
  observing (W:=W) (E:=E) debug_page_elements.
Proof.
  unfold debug_page_elements.
  apply observing_try; [|intros _; apply observing_ret].
  apply observing_bind; [apply observing_query; reflexivity | intros inputs].
  apply observing_bind; [apply observing_debug_inputs | intros _].
  apply observing_bind; [apply observing_query; reflexivity | intros _].
  apply observing_bind; [apply observing_query; reflexivity | intros _].
  apply observing_ret.
Qed.

(** [debug_page_elements] returns, makes the calls [debug_calls], which are
    queries, and changes nothing else. *)
Lemma debug_page_elements_run (s : ShaarliClient W E) w :
  driver s = Some w ->
  debug_page_elements s = (Ok tt, add_calls (debug_calls w) s)
  /\ forallb is_query (debug_calls w) = true.
Proof.
  intros H.
  destruct (observing_debug_page_elements w) as (r & l & Hl & Hrun).
  assert (Hl' : debug_calls w = l).
  { unfold debug_calls. rewrite Hrun by reflexivity. reflexivity. }
  rewrite Hl'. split; [|exact Hl].
  rewrite (Hrun s H). f_equal.
  assert (Hr : fst (debug_page_elements s) = Ok tt).
  { unfold debug_page_elements, try_except.
    match goal with |- context [match ?c s with _ => _ end] =>
      destruct (c s) as [[[]|x] s'] end; reflexivity. }
  rewrite (Hrun s H) in Hr. exact Hr.
Qed.

Lemma rule_calls_are_queries (plan : list Selector) :
  forallb is_query (map (rule_call (E:=E)) plan) = true.
Proof. induction plan as [|[b v] rest IH]; [reflexivity | exact IH]. Qed.

(** A visit that finds nothing. *)
Lemma search_iframes_miss (f : E) (rest : list E) (s : ShaarliClient W E) w :
  driver s = Some w ->
  frame_misses w f ->
  search_iframes (f :: rest) s
  = search_iframes rest
      (moved (leave_frame (enter_frame w f))
         (CSwitchToFrame f :: debug_calls (enter_frame w f)
            ++ map rule_call iframe_plan ++ [CSwitchToDefaultContent]) s).
Proof.
  intros Hd (Hin & Hnone & Hout).
  cbn [search_iframes]. unfold bind at 1. unfold try_except.
  unfold bind at 1. unfold switch_to_frame.
  rewrite (command_run _ _ s w Hd). rewrite Hin.
  fold (enter_frame w f).
  set (s1 := moved (enter_frame w f) [CSwitchToFrame f] s).
  unfold bind at 1.
  destruct (debug_page_elements_run s1 (enter_frame w f) eq_refl) as [-> _].
  unfold bind at 1.
  rewrite (first_match_run (firstn 5 username_selectors) _ (enter_frame w f))
    by reflexivity.
  fold iframe_plan. rewrite Hnone.
  assert (Hall : consulted (enter_frame w f) iframe_plan = iframe_plan).
  { revert Hnone. generalize iframe_plan.
    induction l as [|r l IH]; cbn; [reflexivity|].
    destruct (rule_matches (enter_frame w f) r); [discriminate|].
    intros H. rewrite IH by exact H. reflexivity. }
  rewrite Hall. unfold bind at 1. unfold switch_to_default_content.
  subst s1. rewrite !add_calls_moved.
  rewrite (command_run _ _ _ (enter_frame w f)) by reflexivity.
  rewrite Hout. fold (leave_frame (enter_frame w f)).
  rewrite moved_moved. cbn [ret]. 
  repeat (rewrite <- app_assoc; cbn [app]). reflexivity.
Qed.

(** An iframe that cannot be entered: no rule is tried for it. *)
Lemma search_iframes_skip (f : E) (rest : list E) (s : ShaarliClient W E) w :
  driver s = Some w ->
  frame_skipped w f ->
  search_iframes (f :: rest) s
  = search_iframes rest
      (moved (leave_frame (enter_frame w f))
         [CSwitchToFrame f; CSwitchToDefaultContent] s).
Proof.
  intros Hd (Hin & Hout).
  cbn [search_iframes]. unfold bind at 1. unfold try_except.
  unfold bind at 1. unfold switch_to_frame.
  rewrite (command_run _ _ s w Hd).
  destruct (fst (drv_switch_to_frame f w)) as [[]|x]; [discriminate|].
  fold (enter_frame w f).
  unfold bind at 1. unfold switch_to_default_content.
  rewrite (command_run _ _ _ (enter_frame w f)) by reflexivity.
  rewrite Hout. fold (leave_frame (enter_frame w f)).
  rewrite moved_moved. reflexivity.
Qed.

Lemma search_iframes_passed (frames rest : list E) :
  forall (s : ShaarliClient W E) w,
  driver s = Some w ->
  frames_passed w frames ->
  search_iframes (frames ++ rest) s
  = search_iframes rest
      (moved (after_passed w frames) (passed_calls w frames) s).
Proof.
  induction frames as [|f frames IH]; intros s w Hd Hpass.
  - cbn. rewrite moved_same by exact Hd. reflexivity.
  - destruct Hpass as [Hf Hrest]. cbn [app passed_calls].
    destruct Hf as [Hf|Hf].
    + rewrite (search_iframes_miss f _ s w Hd Hf).
      rewrite (IH _ (leave_frame (enter_frame w f)))
        by (reflexivity || exact Hrest).
      rewrite moved_moved. destruct Hf as [-> _]. cbn [is_ok].
      unfold miss_queries. cbn [app]. repeat rewrite <- app_assoc.
      cbn [app]. reflexivity.
    + rewrite (search_iframes_skip f _ s w Hd Hf).
      rewrite (IH _ (leave_frame (enter_frame w f)))
        by (reflexivity || exact Hrest).
      rewrite moved_moved. destruct Hf as [-> _]. reflexivity.
Qed.

(** A visit where a rule matches: the loop ends inside the iframe. *)
Lemma search_iframes_hit (f : E) (rest : list E) (e : E)
  (s : ShaarliClient W E) w :
  driver s = Some w ->
  fst (drv_switch_to_frame f w) = Ok tt ->
  plan_hit (enter_frame w f) iframe_plan = Some e ->
  search_iframes (f :: rest) s
  = (Ok (Some e),
     moved (enter_frame w f)
       (CSwitchToFrame f :: hit_queries (enter_frame w f)) s).
Proof.
  intros Hd Hin Hhit.
  cbn [search_iframes]. unfold bind at 1. unfold try_except.
  unfold bind at 1. unfold switch_to_frame.
  rewrite (command_run _ _ s w Hd). rewrite Hin.
  fold (enter_frame w f).
  set (s1 := moved (enter_frame w f) [CSwitchToFrame f] s).
  unfold bind at 1.
  destruct (debug_page_elements_run s1 (enter_frame w f) eq_refl) as [-> _].
  unfold bind at 1.
  rewrite (first_match_run (firstn 5 username_selectors) _ (enter_frame w f))
    by reflexivity.
  fold iframe_plan. rewrite Hhit. cbn [ret].
  subst s1. rewrite !add_calls_moved. unfold hit_queries.
  repeat (rewrite <- app_assoc; cbn [app]). reflexivity.
Qed.

Lemma observing_first_match (plan : list Selector) :
  observing (first_match plan).
Proof.
  induction plan as [|[b v] rest IH]; cbn [first_match].
  - apply observing_ret.
  - apply observing_bind.
    + apply observing_try; [|intros _; apply observing_ret].
      apply observing_bind; [apply observing_query; reflexivity | intros l].
      apply observing_ret.
    + intros [e|]; [apply observing_ret | exact IH].
Qed.

Lemma observing_first_text_input (forms : list E) :
  observing (first_text_input forms).
Proof.
  induction forms as [|form rest IH]; cbn [first_text_input].
  - apply observing_ret.
  - apply observing_bind; [apply observing_query; reflexivity|].
    intros [|e l]; [exact IH | apply observing_ret].
Qed.

Lemma observing_first_plain_input (all_inputs : list E) :
  observing (first_plain_input all_inputs).
Proof.
  induction all_inputs as [|inp rest IH]; cbn [first_plain_input].
  - apply observing_ret.
  - apply observing_bind; [apply observing_query; reflexivity|].
    intros t. destruct (not_a_credential_type t);
      [apply observing_ret | exact IH].
Qed.

Lemma observing_find_username_in_document :
  observing (W:=W) (E:=E) find_username_in_document.
Proof.
  unfold find_username_in_document.
  apply observing_bind; [apply observing_first_match | intros field].
  apply observing_bind.
  - destruct field; [apply observing_ret|].
    apply observing_try; [|intros _; apply observing_ret].
    apply observing_bind; [apply observing_query; reflexivity | intros forms].
    apply observing_first_text_input.
  - intros field'. destruct field'; [apply observing_ret|].
    apply observing_try; [|intros _; apply observing_ret].
    apply observing_bind; [apply observing_query; reflexivity | intros inputs].
    apply observing_first_plain_input.
Qed.

(** The search of the main document makes the calls [document_calls],
    which are queries, and changes nothing else; a field the plan finds is
    its outcome. *)
Lemma find_username_in_document_run (s : ShaarliClient W E) w :
  driver s = Some w ->
  snd (find_username_in_document s) = add_calls (document_calls w) s
  /\ forallb is_query (document_calls w) = true
  /\ (fst (find_username_in_document s) = Ok None ->
      plan_hit w username_selectors = None).
Proof.
  intros H.
  destruct (observing_find_username_in_document w) as (r & l & Hl & Hrun).
  assert (Hl' : document_calls w = l).
  { unfold document_calls. rewrite Hrun by reflexivity. reflexivity. }
  rewrite Hl'. split; [|split].
  - rewrite (Hrun s H). reflexivity.
  - exact Hl.
  - unfold find_username_in_document, bind.
    rewrite (first_match_run username_selectors s w H).
    destruct (plan_hit w username_selectors); [discriminate | reflexivity].
Qed.

(** C5, as amended.  Let the three approaches of the main document have
    yielded no username field (so that, in particular, no rule of the plan
    matches there); they only query.  Then the iframes are visited in
    document order.  Inside an iframe the session could switch into, the
    debug queries are made and the first five rules of the plan are
    retried, in order; an iframe the session cannot switch into is passed
    without a query.  Either way [switch_to.default_content()] follows, so
    that a search that finds nothing ends in the default context.  The
    first iframe in which one of the five rules matches ends the search
    with that rule's first element, and the session stays inside that
    iframe: after the switch into it only queries are made, and the
    iframes after it are not visited. *)
Theorem iframe_fallback (iframes : list E) (s : ShaarliClient W E) (w : W) :
  driver s = Some w ->
  fst (find_username_in_document s) = Ok None ->
  let s0 := add_calls (document_calls w) s in
  plan_hit w username_selectors = None
  /\ forallb is_query (document_calls w) = true
  /\ (frames_passed w iframes ->
      find_username iframes s
      = (Ok None,
         moved (after_passed w iframes) (passed_calls w iframes) s0))
  /\ (forall before f after e,
        iframes = before ++ f :: after ->
        frames_passed w before ->
        let w1 := after_passed w before in
        fst (drv_switch_to_frame f w1) = Ok tt ->
        plan_hit (enter_frame w1 f) iframe_plan = Some e ->
        find_username iframes s
        = (Ok (Some e),
           moved (enter_frame w1 f)
             (passed_calls w before
                ++ CSwitchToFrame f :: hit_queries (enter_frame w1 f)) s0)
        /\ forallb is_query (hit_queries (enter_frame w1 f)) = true).
Proof.
  intros Hd Hdoc s0.
  destruct (find_username_in_document_run s w Hd) as (Hs0 & Hq & Hplan).
  assert (Hrun : find_username iframes s = find_username_in_iframes iframes s0).
  { unfold find_username, bind.
    destruct (find_username_in_document s) as [r s'] eqn:Hr.
    cbn [fst snd] in Hdoc, Hs0. subst r s'. reflexivity. }
  assert (Hd0 : driver s0 = Some w) by exact Hd.
  split; [exact (Hplan Hdoc)|]. split; [exact Hq|]. split.
  - intros Hpass. rewrite Hrun. unfold find_username_in_iframes.
    destruct iframes as [|f rest] eqn:Hi.
    + cbn. rewrite moved_same by exact Hd0. reflexivity.
    + cbn [nonempty]. rewrite <- Hi in *. clear Hi.
      rewrite <- (app_nil_r iframes) at 1.
      rewrite (search_iframes_passed iframes [] s0 w Hd0 Hpass). reflexivity.
  - intros before f after e Hi Hpass w1 Hin Hhit. split.
    + rewrite Hrun, Hi. unfold find_username_in_iframes.
      assert (Hne : nonempty (before ++ f :: after) = true)
        by (destruct before; reflexivity).
      rewrite Hne.
      rewrite (search_iframes_passed before (f :: after) s0 w Hd0 Hpass).
      fold w1.
      rewrite (search_iframes_hit f after e _ w1 (moved_driver _ _ _) Hin Hhit).
      rewrite moved_moved. reflexivity.
    + unfold hit_queries. rewrite forallb_app.
      destruct (debug_page_elements_run (moved (enter_frame w1 f) [] s)
                  (enter_frame w1 f) eq_refl) as [_ ->].
      rewrite rule_calls_are_queries. reflexivity.
Qed.

End Iframes.

(** ** The object across the methods *)

Section Frame.

Context {W E : Type} {D : WebDriver W E}.

Lemma same_object_refl (s : ShaarliClient W E) : same_object s s.
Proof. unfold same_object. intuition. Qed.

Lemma same_object_trans (s1 s2 s3 : ShaarliClient W E) :
  same_object s1 s2 -> same_object s2 s3 -> same_object s1 s3.
Proof. unfold same_object. intuition congruence. Qed.

Lemma browsing_ret {A} (a : A) : browsing (W:=W) (E:=E) (ret a).
Proof. intros s. apply same_object_refl. Qed.

Lemma browsing_raise {A} (e : exn) : browsing (W:=W) (E:=E) (A:=A) (raise e).
Proof. intros s. apply same_object_refl. Qed.

Lemma browsing_read {A} (f : ShaarliClient W E -> A) : browsing (read f).
Proof. intros s. apply same_object_refl. Qed.

Lemma browsing_bind {A B} (c : M W E A) (k : A -> M W E B) :
  browsing c -> (forall a, browsing (k a)) -> browsing (bind c k).
Proof.
  intros Hc Hk s. unfold bind. specialize (Hc s).
  destruct (c s) as [[a|e] s1]; cbn in *.
  - eapply same_object_trans; [exact Hc | apply Hk].
  - exact Hc.
Qed.

Lemma browsing_try {A} (c : M W E A) (h : exn -> M W E A) :
  browsing c -> (forall e, browsing (h e)) -> browsing (try_except c h).
Proof.
  intros Hc Hh s. unfold try_except. specialize (Hc s).
  destruct (c s) as [[a|e] s1]; cbn in *.
  - exact Hc.
  - eapply same_object_trans; [exact Hc | apply Hh].
Qed.

Lemma browsing_query {A} (c : Call E) (f : W -> Res A) : browsing (query c f).
Proof.
  intros s. unfold query. destruct (driver s) eqn:H; cbn.
  - unfold same_object; cbn. intuition.
  - apply same_object_refl.
Qed.

Lemma browsing_command {A} (c : Call E) (f : W -> Res A * W) :
  browsing (command c f).
Proof.
  intros s. unfold command. destruct (driver s) eqn:H; cbn.
  - destruct (f w) as [r w']. unfold same_object; cbn. intuition discriminate.
  - apply same_object_refl.
Qed.

Lemma browsing_sleep (n : nat) : browsing (W:=W) (E:=E) (time_sleep n).
Proof.
  intros s. unfold time_sleep, same_object; cbn.
  destruct (driver s); cbn; intuition discriminate.
Qed.

End Frame.

(** Decide [browsing] for a body built from the calls above. *)
Create HintDb browsing.
#[global] Hint Resolve browsing_ret browsing_raise browsing_read
  browsing_query browsing_command browsing_sleep : browsing.

Ltac browse :=
  repeat first
    [ progress intros
    | solve [auto with browsing]
    | apply browsing_query | apply browsing_command | apply browsing_sleep
    | apply browsing_bind | apply browsing_try
    | match goal with
      | |- browsing (match ?x with _ => _ end) => destruct x
      end ].

Section Frame_methods.

Context {W E : Type} {D : WebDriver W E}.

Lemma browsing_close : browsing (W:=W) (E:=E) close.
Proof.
  intros s. unfold close. destruct (driver s) eqn:H.
  - apply browsing_command.
  - apply same_object_refl.
Qed.

Lemma browsing_start_driver : browsing (W:=W) (E:=E) start_driver.
Proof.
  intros s. unfold start_driver.
  destruct (drv_launch (firefox_options s)) as [w|e]; cbn.
  - unfold command; cbn. destruct (drv_set_window_size 1920 1080 w); cbn.
    unfold same_object; cbn. intuition discriminate.
  - unfold same_object; cbn. intuition.
Qed.

Lemma browsing_import_requests : browsing (W:=W) (E:=E) import_requests.
Proof. intros s. apply same_object_refl. Qed.

#[local] Hint Resolve browsing_import_requests : browsing.

Lemma browsing_test_connectivity : browsing (W:=W) (E:=E) test_connectivity.
Proof.
  unfold test_connectivity. browse.
  all: intros s; unfold same_object; cbn; intuition.
Qed.

Lemma browsing_wait_for_page_ready tmo :
  browsing (W:=W) (E:=E) (wait_for_page_ready tmo).
Proof. unfold wait_for_page_ready. browse. Qed.

Lemma browsing_log_iframes (l : list E) : browsing (log_iframes l).
Proof. induction l; cbn [log_iframes]; browse. Qed.

Lemma browsing_check_for_iframes : browsing (W:=W) (E:=E) check_for_iframes.
Proof.
  pose proof browsing_log_iframes.
  unfold check_for_iframes. browse.
Qed.

Lemma browsing_debug_inputs (l : list E) : browsing (debug_inputs l).
Proof. induction l; cbn [debug_inputs]; browse. Qed.

Lemma browsing_debug_page_elements :
  browsing (W:=W) (E:=E) debug_page_elements.
Proof.
  pose proof browsing_debug_inputs.
  unfold debug_page_elements. browse.
Qed.

Lemma browsing_try_interact element action text :
  browsing (W:=W) (E:=E) (try_interact_with_element element action text).
Proof. unfold try_interact_with_element. browse. Qed.

#[local] Hint Resolve browsing_debug_page_elements browsing_try_interact
  browsing_wait_for_page_ready browsing_check_for_iframes : browsing.

Lemma browsing_first_match (plan : list Selector) :
  browsing (W:=W) (E:=E) (first_match plan).
Proof. induction plan as [|[b v] rest IH]; cbn [first_match]; browse. Qed.

Lemma browsing_first_text_input (l : list E) : browsing (first_text_input l).
Proof. induction l; cbn [first_text_input]; browse. Qed.

Lemma browsing_first_plain_input (l : list E) : browsing (first_plain_input l).
Proof. induction l; cbn [first_plain_input]; browse. Qed.

Lemma browsing_search_iframes (l : list E) : browsing (search_iframes l).
Proof.
  pose proof browsing_first_match.
  induction l; cbn [search_iframes]; browse.
Qed.

#[local] Hint Resolve browsing_first_match browsing_first_text_input
  browsing_first_plain_input browsing_search_iframes : browsing.

Lemma browsing_find_username_in_document :
  browsing (W:=W) (E:=E) find_username_in_document.
Proof. unfold find_username_in_document. browse. Qed.

Lemma browsing_find_username_in_iframes (l : list E) :
  browsing (find_username_in_iframes l).
Proof. unfold find_username_in_iframes. browse. Qed.

Lemma browsing_submit_login_form (pf : E) (sb : option E) :
  browsing (submit_login_form pf sb).
Proof. unfold submit_login_form. browse. Qed.

#[local] Hint Resolve browsing_find_username_in_document
  browsing_find_username_in_iframes browsing_submit_login_form : browsing.

Lemma browsing_find_username (l : list E) : browsing (find_username l).
Proof. unfold find_username. browse. Qed.

#[local] Hint Resolve browsing_find_username : browsing.

Lemma browsing_login_until_submitted username password :
  browsing (W:=W) (E:=E) (login_until_submitted username password).
Proof. unfold login_until_submitted. browse. Qed.

Lemma browsing__is_logged_in : browsing (W:=W) (E:=E) _is_logged_in.
Proof. unfold _is_logged_in. browse. Qed.

Lemma browsing_fill_first_match (plan : list Selector) (text : string) :
  browsing (W:=W) (E:=E) (fill_first_match plan text).
Proof. induction plan as [|[b v] rest IH]; cbn [fill_first_match]; browse. Qed.

Lemma browsing_tick_first_match (plan : list Selector) :
  browsing (W:=W) (E:=E) (tick_first_match plan).
Proof. induction plan as [|[b v] rest IH]; cbn [tick_first_match]; browse. Qed.

#[local] Hint Resolve browsing_fill_first_match browsing_tick_first_match
  : browsing.

Lemma browsing_add_url_details title description tags private :
  browsing (W:=W) (E:=E) (add_url_details title description tags private).
Proof. unfold add_url_details. browse. Qed.

#[local] Hint Resolve browsing_add_url_details : browsing.

Lemma browsing_add_url_until_saved url title description tags private :
  browsing (W:=W) (E:=E)
    (add_url_until_saved url title description tags private).
Proof. unfold add_url_until_saved. browse. Qed.

Lemma browsing_add_url_verify : browsing (W:=W) (E:=E) add_url_verify.
Proof. unfold add_url_verify. browse. Qed.

#[local] Hint Resolve browsing_add_url_until_saved browsing_add_url_verify
  : browsing.

Lemma browsing_add_url url title description tags private :
  browsing (W:=W) (E:=E) (add_url url title description tags private).
Proof. unfold add_url, add_url_body. browse. Qed.

Lemma browsing_find_link_elements (l : list string) (limit : Z) :
  browsing (W:=W) (E:=E) (find_link_elements l limit).
Proof. induction l; cbn [find_link_elements]; browse. Qed.

Lemma browsing_filter_external (l : list E) : browsing (filter_external l).
Proof. induction l; cbn [filter_external]; browse. Qed.

#[local] Hint Resolve browsing_find_link_elements browsing_filter_external
  : browsing.

Lemma browsing_find_external_anchors (limit : Z) :
  browsing (W:=W) (E:=E) (find_external_anchors limit).
Proof. unfold find_external_anchors. browse. Qed.

Lemma browsing_find_links_in_containers (l : list string) (limit : Z) :
  browsing (W:=W) (E:=E) (find_links_in_containers l limit).
Proof. induction l; cbn [find_links_in_containers]; browse. Qed.

Lemma browsing_anchor_title (a : E) : browsing (anchor_title a).
Proof. unfold anchor_title. browse. Qed.

Lemma browsing_first_external (l : list E) : browsing (first_external l).
Proof. induction l; cbn [first_external]; browse. Qed.

#[local] Hint Resolve browsing_find_external_anchors
  browsing_find_links_in_containers browsing_anchor_title
  browsing_first_external : browsing.

Lemma browsing_find_link_inside (el : E) (l : list string) :
  browsing (find_link_inside el l).
Proof. induction l; cbn [find_link_inside]; browse. Qed.

Lemma browsing_find_description (el : E) (l : list string) (d : string) :
  browsing (find_description el l d).
Proof. revert d. induction l; intros d; cbn [find_description]; browse. Qed.

Lemma browsing_tag_texts (l : list E) : browsing (tag_texts l).
Proof. induction l; cbn [tag_texts]; browse. Qed.

#[local] Hint Resolve browsing_find_link_inside browsing_find_description
  browsing_tag_texts : browsing.

Lemma browsing_find_tags (el : E) (l : list string) :
  browsing (find_tags el l).
Proof. induction l; cbn [find_tags]; browse. Qed.

#[local] Hint Resolve browsing_find_tags : browsing.

Lemma browsing_parse_link_element (el : E) :
  browsing (parse_link_element el).
Proof. unfold parse_link_element, link_url_and_title. browse. Qed.

#[local] Hint Resolve browsing_parse_link_element : browsing.

Lemma browsing_extract_links (l : list E) (links : list link_info) :
  browsing (extract_links l links).
Proof. revert links. induction l; intros links; cbn [extract_links]; browse. Qed.

#[local] Hint Resolve browsing_extract_links : browsing.

Lemma browsing_get_links (limit : Z) :
  browsing (W:=W) (E:=E) (get_links limit).
Proof. unfold get_links, get_links_body, open_list_page, collect_links,
    choose_link_elements.
  browse. Qed.

(** [login] is the one method that writes the flag: it leaves it as it was,
    or sets it on returning [True]. *)
Lemma login_flag username password (s : ShaarliClient W E) :
  (driver s <> None -> driver (snd (login username password s)) <> None)
  /\ ((is_logged_in (snd (login username password s)) = is_logged_in s
       /\ fst (login username password s) <> Ok true)
      \/ (fst (login username password s) = Ok true
          /\ is_logged_in (snd (login username password s)) = true)).
Proof.
  unfold login, bind, read.
  destruct (driver s) as [w|] eqn:Hd; cbn [fst snd].
  2: { cbn. rewrite Hd. intuition congruence. }
  assert (Hw : driver s <> None) by (rewrite Hd; discriminate).
  unfold try_except, login_body, bind.
  pose proof (browsing_login_until_submitted username password s) as H1.
  destruct (login_until_submitted username password s) as [[[|]|x] s1];
    cbn [fst snd] in H1.
  2,3: (try rewrite except_false; cbn; unfold same_object in H1;
        intuition congruence).
  unfold login_verify, bind.
  pose proof (browsing_sleep 3 s1) as H2.
  destruct (time_sleep 3 s1) as [[[]|x] s2]; cbn [fst snd] in H2.
  2: (rewrite except_false; cbn; assert (H := same_object_trans _ _ _ H1 H2);
      unfold same_object in H; intuition congruence).
  pose proof (browsing_query CCurrentUrl drv_current_url s2) as H3.
  unfold driver_current_url.
  destruct (query CCurrentUrl drv_current_url s2) as [[u|x] s3];
    cbn [fst snd] in H3.
  2: (rewrite except_false; cbn;
      assert (H := same_object_trans _ _ _ H1 (same_object_trans _ _ _ H2 H3));
      unfold same_object in H; intuition congruence).
  assert (H13 := same_object_trans _ _ _ H1 (same_object_trans _ _ _ H2 H3)).
  assert (Hcheck : browsing (W:=W) (E:=E)
            (if negb (PyStr.contains "login" u) then ret true else _is_logged_in)).
  { destruct (negb _); [apply browsing_ret | apply browsing__is_logged_in]. }
  specialize (Hcheck s3).
  destruct ((if negb (PyStr.contains "login" u) then ret true else _is_logged_in) s3)
    as [[[|]|x] s4]; cbn [fst snd] in Hcheck; try rewrite except_false; cbn;
    assert (H := same_object_trans _ _ _ H13 Hcheck);
    unfold same_object in H; intuition congruence.
Qed.

End Frame_methods.

(** ** The verdicts of [login] and [add_url] *)

Section Verdicts.

Context {W E : Type} {D : WebDriver W E}.

(** C2, as amended.  Let the login form have been submitted, and let
    [page] be the browser after the settle delay, with current URL
    [current_url].  The marker check holds if the three queries for the
    partial link texts "Logout", "Tools" and "Shaare" all answer and one of
    them finds a link; if one of them raises it fails, whatever the others
    find.  [login] returns [True] exactly when [current_url] does not
    contain "login" or the marker check holds; in particular it returns
    [True] for every URL without "login", whatever the page holds.  The
    logged-in flag is set where [login] returns [True] and is as before
    where it returns [False]. *)
Theorem login_success_criterion (username password : string)
  (s s1 : ShaarliClient W E) (w : W) (current_url : string) :
  driver s <> None ->
  login_until_submitted username password s = (Ok true, s1) ->
  driver s1 = Some w ->
  drv_current_url (drv_sleep 3 w) = Ok current_url ->
  let page := drv_sleep 3 w in
  let verdict :=
    negb (PyStr.contains "login" current_url) || marker_check page in
  fst (login username password s) = Ok verdict
  /\ is_logged_in (snd (login username password s))
     = (verdict || is_logged_in s)
  /\ (PyStr.contains "login" current_url = false ->
      fst (login username password s) = Ok true).
Proof.
  intros Hs Hsub Hd1 Hurl page verdict.
  assert (Hflag : is_logged_in s1 = is_logged_in s).
  { pose proof (browsing_login_until_submitted username password s) as H.
    rewrite Hsub in H. apply H. }
  assert (Hlogin : login username password s
                   = try_except login_verify (fun _ => ret false) s1).
  { unfold login, bind, read. destruct (driver s); [|congruence].
    unfold try_except, login_body, bind. rewrite Hsub.
    destruct (login_verify s1) as [[b|x] s2]; [reflexivity|].
    rewrite except_false. reflexivity. }
  rewrite Hlogin. clear Hlogin.
  set (r := try_except login_verify (fun _ => ret false) s1).
  assert (Hrun : fst r = Ok verdict
                 /\ is_logged_in (snd r) = (verdict || is_logged_in s1)).
  { subst r.
    unfold try_except, login_verify, bind, time_sleep, driver_current_url, query.
    cbn. rewrite Hd1. cbn. rewrite Hurl.
    subst verdict.
    destruct (PyStr.contains "login" current_url); cbn [negb orb].
    - unfold _is_logged_in, try_except, bind, find_elements, query. cbn.
      unfold marker_check, marker_links, page.
      destruct (drv_find_elements None PARTIAL_LINK_TEXT "Logout" (drv_sleep 3 w))
        as [l1|x1]; cbn; [|split; reflexivity].
      destruct (drv_find_elements None PARTIAL_LINK_TEXT "Tools" (drv_sleep 3 w))
        as [l2|x2]; cbn; [|split; reflexivity].
      destruct (drv_find_elements None PARTIAL_LINK_TEXT "Shaare" (drv_sleep 3 w))
        as [l3|x3]; cbn; [|split; reflexivity].
      destruct (nonempty l1 || nonempty l2 || nonempty l3); cbn;
        split; reflexivity.
    - cbn. split; reflexivity. }
  destruct Hrun as [Hres Hset].
  split; [exact Hres|]. split.
  - rewrite Hset, Hflag. reflexivity.
  - intros Hno. rewrite Hres. subst verdict. rewrite Hno. reflexivity.
Qed.

(** C6.  Let the save control have been clicked, and let [current_url] be
    the current URL after the settle delay.  Then [add_url] returns [True]
    if [current_url] contains neither "add-shaare" nor "admin", and [False]
    if it contains either. *)
Theorem add_url_success_criterion (url title description tags : string)
  (private : bool) (s s1 : ShaarliClient W E) (w : W) (current_url : string) :
  driver s <> None ->
  is_logged_in s = true ->
  add_url_until_saved url title description tags private s = (Ok true, s1) ->
  driver s1 = Some w ->
  drv_current_url (drv_sleep 3 w) = Ok current_url ->
  fst (add_url url title description tags private s)
  = Ok (negb (PyStr.contains "add-shaare" current_url)
        && negb (PyStr.contains "admin" current_url)).
Proof.
  intros Hs Hlog Hsaved Hd1 Hurl.
  unfold add_url, bind, read. destruct (driver s); [|congruence].
  rewrite Hlog. cbn [negb].
  unfold try_except, add_url_body, bind. rewrite Hsaved.
  unfold add_url_verify, bind, time_sleep, driver_current_url, query.
  cbn. rewrite Hd1. cbn. rewrite Hurl.
  destruct (negb (PyStr.contains "add-shaare" current_url)
            && negb (PyStr.contains "admin" current_url)); reflexivity.
Qed.

(** With the preconditions met, each public method returns what its body
    returns, and [False] (or the empty list) where the body raises. *)
Lemma public_operations_body_results (s : ShaarliClient W E) :
  (forall username password,
      driver s <> None ->
      fst (login username password s)
      = Ok match fst (login_body username password s) with
           | Ok b => b
           | Raise _ => false
           end)
  /\ (forall url title description tags private,
        driver s <> None -> is_logged_in s = true ->
        fst (add_url url title description tags private s)
        = Ok match fst (add_url_body url title description tags private s) with
             | Ok b => b
             | Raise _ => false
             end)
  /\ (forall limit,
        is_logged_in s = true ->
        fst (get_links limit s)
        = Ok match fst (get_links_body limit s) with
             | Ok links => links
             | Raise _ => []
             end).
Proof.
  split; [|split].
  - intros username password Hd.
    unfold login, bind, read. destruct (driver s); [|congruence].
    unfold try_except.
    destruct (login_body username password s) as [[b|x] s']; [reflexivity|].
    rewrite except_false. reflexivity.
  - intros url title description tags private Hd Hlog.
    unfold add_url, bind, read.
    destruct (driver s); [|congruence]. rewrite Hlog. cbn [negb].
    unfold try_except.
    destruct (add_url_body url title description tags private s)
      as [[b|x] s']; [reflexivity|].
    rewrite except_false. reflexivity.
  - intros limit Hlog. unfold get_links, bind, read. rewrite Hlog. cbn [negb].
    unfold try_except.
    destruct (get_links_body limit s) as [[l|x] s']; reflexivity.
Qed.

End Verdicts.

(** ** The logged-in flag over the life of a client *)

Section Lifetime.

Context {W E : Type} {D : WebDriver W E}.

(** Every method but [login] leaves the same object. *)
Lemma run_op_same_object (op : Op) (s : ShaarliClient W E) :
  (forall username password, op <> Login username password) ->
  same_object s (run_op op s).
Proof.
  intros Hop. destruct op; cbn [run_op].
  - apply browsing_start_driver.
  - apply browsing_close.
  - apply browsing_start_driver.
  - apply browsing_close.
  - apply browsing_test_connectivity.
  - apply browsing_wait_for_page_ready.
  - apply browsing_check_for_iframes.
  - apply browsing_try_interact.
  - apply browsing_debug_page_elements.
  - exfalso. eapply Hop. reflexivity.
  - apply browsing__is_logged_in.
  - apply browsing_add_url.
  - apply browsing_get_links.
Qed.

Lemma op_is_login (op : Op (E:=E)) :
  (exists username password, op = Login username password)
  \/ (forall username password, op <> Login username password).
Proof.
  destruct op; try (right; discriminate).
  left. eexists. eexists. reflexivity.
Qed.

Lemma run_op_keeps_session (op : Op) (s : ShaarliClient W E) :
  is_logged_in s = true -> driver s <> None ->
  is_logged_in (run_op op s) = true /\ driver (run_op op s) <> None.
Proof.
  intros Hlog Hd.
  destruct (op_is_login op) as [(u & p & ->) | Hop].
  - cbn [run_op]. pose proof (login_flag u p s) as H. intuition congruence.
  - pose proof (run_op_same_object op s Hop) as H.
    unfold same_object in H. intuition congruence.
Qed.

Lemma run_ops_keep_session (ops : list Op) (s : ShaarliClient W E) :
  is_logged_in s = true -> driver s <> None ->
  is_logged_in (run_ops ops s) = true /\ driver (run_ops ops s) <> None.
Proof.
  revert s. induction ops as [|op ops IH]; intros s Hlog Hd; cbn.
  - split; assumption.
  - destruct (run_op_keeps_session op s Hlog Hd) as [H1 H2].
    apply IH; assumption.
Qed.

(** C10.  No method resets the flag; only a [login] that returns [True]
    sets it; and once a [login] has returned [True], whatever methods are
    called afterwards ([close] and failed logins included), [add_url] and
    [get_links] pass their precondition checks and return a value. *)
Theorem is_logged_in_monotone :
  (forall (op : Op) (s : ShaarliClient W E),
      is_logged_in s = true -> is_logged_in (run_op op s) = true)
  /\ (forall (op : Op) (s : ShaarliClient W E),
        is_logged_in s = false -> is_logged_in (run_op op s) = true ->
        exists username password,
          op = Login username password
          /\ fst (login username password s) = Ok true)
  /\ (forall username password (s : ShaarliClient W E) (after : list Op),
        fst (login username password s) = Ok true ->
        let s' := run_ops after (snd (login username password s)) in
        is_logged_in s' = true
        /\ (forall url title description tags private,
              exists b,
                fst (add_url url title description tags private s') = Ok b)
        /\ (forall limit,
              exists links, fst (get_links limit s') = Ok links)).
Proof.
  split; [|split].
  - intros op s Hlog.
    destruct (op_is_login op) as [(u & p & ->) | Hop].
    + cbn [run_op]. pose proof (login_flag u p s) as H. intuition congruence.
    + pose proof (run_op_same_object op s Hop) as H.
      unfold same_object in H. intuition congruence.
  - intros op s Hoff Hon.
    destruct (op_is_login op) as [(u & p & ->) | Hop].
    + exists u, p. cbn [run_op] in Hon.
      pose proof (login_flag u p s) as H.
      split; [reflexivity|]. intuition congruence.
    + pose proof (run_op_same_object op s Hop) as H.
      unfold same_object in H. exfalso. intuition congruence.
  - intros username password s after Hok s'.
    assert (Hd : driver s <> None).
    { intros Hnone. revert Hok. unfold login, bind, read. rewrite Hnone.
      discriminate. }
    pose proof (login_flag username password s) as [Hdrv Hflag].
    assert (Hlog1 : is_logged_in (snd (login username password s)) = true)
      by intuition congruence.
    destruct (run_ops_keep_session after _ Hlog1 (Hdrv Hd)) as [Hlog' Hd'].
    fold s' in Hlog', Hd'.
    split; [exact Hlog'|]. split.
    + intros url title description tags private.
      destruct (public_operations_body_results s') as (_ & Hadd & _).
      eexists. apply Hadd; assumption.
    + intros limit.
      destruct (public_operations_body_results s') as (_ & _ & Hget).
      eexists. apply Hget; assumption.
Qed.

End Lifetime.

(** ** The preconditions of the public methods *)

Section Preconditions.

Context {W E : Type} {D : WebDriver W E}.

Lemma flag_stays_false (ops : list Op) (s : ShaarliClient W E) :
  is_logged_in s = false -> never_logged_in ops s ->
  is_logged_in (run_ops ops s) = false.
Proof.
  revert s. induction ops as [|op ops IH]; intros s Hoff Hnever; cbn.
  - exact Hoff.
  - destruct Hnever as [Hop Hrest]. apply IH; [|exact Hrest].
    destruct (op_is_login op) as [(u & p & ->) | Hother].
    + cbn [run_op]. pose proof (login_flag u p s) as H. intuition congruence.
    + pose proof (run_op_same_object op s Hother) as H.
      unfold same_object in H. intuition congruence.
Qed.

(** C7.  Without a driver, [login] and [add_url] raise; without the
    logged-in flag, [add_url] and [get_links] raise; the object is left as
    it was.  The flag is off in a new client and after any run of methods
    in which no [login] returned [True], so there both raise.  With the
    preconditions met, none of the three public methods raises: each
    returns what its body returns, and [False] (or the empty list) where
    the body raises. *)
Theorem public_operations_faults (username password : string)
  (url title description tags : string) (private : bool) (limit : Z) :
  (forall s : ShaarliClient W E,
      driver s = None ->
      login username password s
      = (Raise (RuntimeError "WebDriver not initialized. Call start_driver() first."), s)
      /\ add_url url title description tags private s
         = (Raise (RuntimeError "WebDriver not initialized"), s))
  /\ (forall s : ShaarliClient W E,
        driver s <> None -> is_logged_in s = false ->
        add_url url title description tags private s
        = (Raise (RuntimeError "Not logged in. Call login() first."), s))
  /\ (forall s : ShaarliClient W E,
        is_logged_in s = false ->
        get_links limit s
        = (Raise (RuntimeError "Not logged in. Call login() first."), s))
  /\ (forall base headless tmo (ops : list Op),
        let s : ShaarliClient W E := run_ops ops (__init__ base headless tmo) in
        never_logged_in ops (__init__ base headless tmo) ->
        (exists msg,
            add_url url title description tags private s
            = (Raise (RuntimeError msg), s))
        /\ get_links limit s
           = (Raise (RuntimeError "Not logged in. Call login() first."), s))
  /\ (forall s : ShaarliClient W E,
        driver s <> None ->
        fst (login username password s)
        = Ok match fst (login_body username password s) with
             | Ok b => b
             | Raise _ => false
             end)
  /\ (forall s : ShaarliClient W E,
        driver s <> None -> is_logged_in s = true ->
        fst (add_url url title description tags private s)
        = Ok match fst (add_url_body url title description tags private s) with
             | Ok b => b
             | Raise _ => false
             end)
  /\ (forall s : ShaarliClient W E,
        is_logged_in s = true ->
        fst (get_links limit s)
        = Ok match fst (get_links_body limit s) with
             | Ok links => links
             | Raise _ => []
             end).
Proof.
  assert (Hadd : forall s : ShaarliClient W E,
             is_logged_in s = false ->
             exists msg, add_url url title description tags private s
                         = (Raise (RuntimeError msg), s)).
  { intros s Hoff. unfold add_url, bind, read.
    destruct (driver s); [rewrite Hoff|]; eexists; reflexivity. }
  assert (Hget : forall s : ShaarliClient W E,
             is_logged_in s = false ->
             get_links limit s
             = (Raise (RuntimeError "Not logged in. Call login() first."), s)).
  { intros s Hoff. unfold get_links, bind, read. rewrite Hoff. reflexivity. }
  split; [|split; [|split; [|split; [|split; [|split]]]]].
  - intros s Hd. split.
    + unfold login, bind, read. rewrite Hd. reflexivity.
    + unfold add_url, bind, read. rewrite Hd. reflexivity.
  - intros s Hd Hoff. unfold add_url, bind, read.
    destruct (driver s); [|congruence]. rewrite Hoff. reflexivity.
  - exact Hget.
  - intros base headless tmo ops s Hnever.
    assert (Hoff : is_logged_in s = false)
      by (apply flag_stays_false; [reflexivity | exact Hnever]).
    split; [apply Hadd | apply Hget]; exact Hoff.
  - intros s Hd. apply public_operations_body_results, Hd.
  - intros s Hd Hlog. apply public_operations_body_results; assumption.
  - intros s Hlog. apply public_operations_body_results, Hlog.
Qed.

End Preconditions.


(** ** The urls [get_links] returns *)

Section Extraction.

Context {W E : Type} {D : WebDriver W E}.

Variable w : W.
Variable base : string.

Lemma ensures_ret {A} (P : A -> Prop) (a : A) :
  P a -> ensures (E:=E) w base P (ret a).
Proof. intros H s Hd Hb. cbn. auto. Qed.

Lemma ensures_read_base :
  ensures (E:=E) w base (fun b => b = base) (read base_url).
Proof. intros s Hd Hb. cbn. auto. Qed.

Lemma ensures_query {A} (c : Call E) (f : W -> Res A) :
  ensures w base (fun a => f w = Ok a) (query c f).
Proof.
  intros s Hd Hb. unfold query. rewrite Hd. cbn.
  destruct (f w); auto.
Qed.

Lemma ensures_weaken {A} (Q P : A -> Prop) (c : M W E A) :
  (forall a, Q a -> P a) -> ensures w base Q c -> ensures w base P c.
Proof.
  intros HQP Hc s Hd Hb. destruct (Hc s Hd Hb) as (H1 & H2 & H3).
  repeat split; try assumption.
  destruct (fst (c s)); auto.
Qed.

Lemma ensures_bind {A B} (Q : A -> Prop) (P : B -> Prop)
  (c : M W E A) (k : A -> M W E B) :
  ensures w base Q c -> (forall a, Q a -> ensures w base P (k a)) ->
  ensures w base P (bind c k).
Proof.
  intros Hc Hk s Hd Hb. destruct (Hc s Hd Hb) as (H1 & H2 & H3).
  unfold bind. destruct (c s) as [[a|x] s1]; cbn in *.
  - apply (Hk a H1 s1 H2 H3).
  - auto.
Qed.

Lemma ensures_try {A} (P : A -> Prop) (c : M W E A) (h : exn -> M W E A) :
  ensures w base P c -> (forall e, ensures w base P (h e)) ->
  ensures w base P (try_except c h).
Proof.
  intros Hc Hh s Hd Hb. destruct (Hc s Hd Hb) as (H1 & H2 & H3).
  unfold try_except. destruct (c s) as [[a|x] s1]; cbn in *.
  - auto.
  - apply (Hh x s1 H2 H3).
Qed.

Lemma ensures_query_any {A} (c : Call E) (f : W -> Res A) :
  ensures w base (fun _ => True) (query c f).
Proof.
  eapply ensures_weaken; [|apply ensures_query]. intros a _. exact I.
Qed.

(** Bodies made of queries keep the browser and the base URL, whatever
    they return. *)
Ltac keeps :=
  repeat first
    [ progress intros
    | assumption
    | match goal with
      | H : forall _, ensures _ _ _ _ |- _ => apply H
      end
    | apply ensures_ret; exact I
    | apply ensures_query_any
    | apply (ensures_bind (fun _ => True))
    | apply ensures_try
    | match goal with
      | |- ensures _ _ _ (match ?x with _ => _ end) => destruct x
      end ].

Lemma keeps_anchor_title (a : E) :
  ensures w base (fun _ => True) (anchor_title a).
Proof. unfold anchor_title, element_text, get_attribute. keeps. Qed.

Lemma keeps_find_description (el : E) (l : list string) (d : string) :
  ensures w base (fun _ => True) (find_description el l d).
Proof.
  revert d. induction l as [|sel l IH]; intros d; cbn [find_description];
    unfold find_element, element_text; keeps.
Qed.

Lemma keeps_tag_texts (l : list E) :
  ensures w base (fun _ => True) (tag_texts l).
Proof.
  induction l as [|te l IH]; cbn [tag_texts]; unfold element_text; keeps.
Qed.

Lemma keeps_find_tags (el : E) (l : list string) :
  ensures w base (fun _ => True) (find_tags el l).
Proof.
  pose proof keeps_tag_texts.
  induction l as [|sel l IH]; cbn [find_tags]; unfold find_elements; keeps.
Qed.

(** The first anchor of a list that passes the filter. *)
Lemma first_external_spec (l : list E) :
  ensures w base
    (fun found => forall fl, found = Some fl -> external_anchor w base fl)
    (first_external l).
Proof.
  induction l as [|fl l IH]; cbn [first_external].
  - apply ensures_ret. discriminate.
  - eapply ensures_bind; [apply ensures_query|]. intros href Hhref.
    eapply ensures_bind; [apply ensures_read_base|]. intros b ->.
    destruct (is_external base href) eqn:Hext; [|exact IH].
    apply ensures_ret. intros fl' [= <-]. exists href. auto.
Qed.

Lemma find_link_inside_spec (el : E) (l : list string) :
  ensures w base
    (fun found => forall fl, found = Some fl -> external_anchor w base fl)
    (find_link_inside el l).
Proof.
  induction l as [|sel l IH]; cbn [find_link_inside].
  - apply ensures_ret. discriminate.
  - eapply ensures_bind.
    + apply ensures_try.
      * eapply ensures_bind; [apply ensures_query|]. intros found _.
        destruct (nonempty found); [apply first_external_spec|].
        apply ensures_ret. discriminate.
      * intros _. apply ensures_ret. discriminate.
    + intros [fl|] Hfl; [|exact IH].
      apply ensures_ret. exact Hfl.
Qed.

(** The anchors kept by the filter of tiers 2 and 3. *)
Lemma filter_external_spec (l : list E) :
  ensures w base (Forall (external_anchor w base)) (filter_external l).
Proof.
  induction l as [|link l IH]; cbn [filter_external].
  - apply ensures_ret. constructor.
  - eapply ensures_bind; [apply ensures_query|]. intros href Hhref.
    eapply ensures_bind; [apply ensures_read_base|]. intros b ->.
    eapply ensures_bind; [exact IH|]. intros kept Hkept.
    apply ensures_ret.
    destruct (is_external base href) eqn:Hext; [|exact Hkept].
    constructor; [|exact Hkept]. exists href. auto.
Qed.

Lemma Forall_firstn {A} (P : A -> Prop) (n : nat) (l : list A) :
  Forall P l -> Forall P (firstn n l).
Proof.
  intros H. revert n. induction H as [|x l Hx Hl IH]; intros [|n]; cbn;
    constructor; auto.
Qed.

Lemma Forall_slice_to {A} (P : A -> Prop) (n : Z) (l : list A) :
  Forall P l -> Forall P (PyStr.slice_to n l).
Proof.
  intros H. unfold PyStr.slice_to.
  destruct (0 <=? n)%Z; apply Forall_firstn, H.
Qed.

Lemma find_external_anchors_spec (limit : Z) :
  ensures (E:=E) w base (Forall (external_anchor w base))
    (find_external_anchors limit).
Proof.
  unfold find_external_anchors. apply ensures_try.
  - eapply ensures_bind; [apply ensures_query|]. intros all_links _.
    eapply ensures_bind; [apply filter_external_spec|]. intros kept Hkept.
    destruct (nonempty kept); apply ensures_ret.
    + apply Forall_slice_to, Hkept.
    + constructor.
  - intros _. apply ensures_ret. constructor.
Qed.

Lemma find_links_in_containers_spec (l : list string) (limit : Z) :
  ensures w base (Forall (external_anchor w base))
    (find_links_in_containers l limit).
Proof.
  induction l as [|sel l IH]; cbn [find_links_in_containers].
  - apply ensures_ret. constructor.
  - eapply ensures_bind
      with (Q := fun hit => forall els, hit = Some els ->
                                        Forall (external_anchor w base) els).
    + apply ensures_try; [|intros _; apply ensures_ret; discriminate].
      eapply ensures_bind; [apply ensures_query|]. intros container _.
      eapply ensures_bind; [apply ensures_query|]. intros container_links _.
      destruct (nonempty container_links);
        [|apply ensures_ret; discriminate].
      eapply ensures_bind; [apply filter_external_spec|]. intros kept Hkept.
      destruct (nonempty kept); apply ensures_ret; [|discriminate].
      intros els [= <-]. apply Forall_slice_to, Hkept.
    + intros [els|] Hels; [|exact IH].
      apply ensures_ret. apply Hels. reflexivity.
Qed.

(** The candidates of tier 1 are elements its selectors match. *)
Lemma find_link_elements_spec (l : list string) (limit : Z) :
  ensures w base (Forall (tier1_match w l)) (find_link_elements l limit).
Proof.
  induction l as [|sel l IH]; cbn [find_link_elements].
  - apply ensures_ret. constructor.
  - eapply ensures_bind
      with (Q := fun hit => forall els, hit = Some els ->
                                        Forall (tier1_match w (sel :: l)) els).
    + apply ensures_try; [|intros _; apply ensures_ret; discriminate].
      eapply ensures_bind; [apply ensures_query|]. intros elements Hfound.
      destruct (nonempty elements); apply ensures_ret; [|discriminate].
      intros els [= <-]. apply Forall_slice_to.
      apply Forall_forall. intros el Hel.
      exists sel, elements. cbn. auto.
    + intros [els|] Hels.
      * apply ensures_ret. apply Hels. reflexivity.
      * eapply ensures_weaken; [|exact IH].
        intros els. apply Forall_impl.
        intros el (s0 & es & Hin & Hf & He). exists s0, es. cbn. auto.
Qed.

Lemma choose_link_elements_spec (limit : Z) :
  ensures (E:=E) w base (Forall (candidate w base))
    (choose_link_elements limit).
Proof.
  unfold choose_link_elements.
  eapply ensures_bind with (Q := Forall (candidate w base)).
  { eapply ensures_weaken; [|apply find_link_elements_spec].
    intros els. apply Forall_impl. intros el H. right. exact H. }
  intros l1 H1.
  eapply ensures_bind with (Q := Forall (candidate w base)).
  { destruct (nonempty l1); [apply ensures_ret, H1|].
    eapply ensures_weaken; [|apply find_external_anchors_spec].
    intros els. apply Forall_impl. intros el H. left. exact H. }
  intros l2 H2.
  destruct (nonempty l2); [apply ensures_ret, H2|].
  eapply ensures_weaken; [|apply find_links_in_containers_spec].
  intros els. apply Forall_impl. intros el H. left. exact H.
Qed.

(** The url taken for a candidate: the href of an external anchor found
    inside it, or its own href where it is itself an anchor. *)
Lemma link_url_and_title_spec (el : E) :
  ensures w base
    (fun found => forall url title, found = Some (url, title) ->
       is_external base url = true
       \/ (drv_tag_name el w = Ok "a" /\ drv_get_attribute el "href" w = Ok url))
    (link_url_and_title el).
Proof.
  unfold link_url_and_title.
  eapply ensures_bind; [apply ensures_query|]. intros tag Htag.
  destruct (tag =? "a") eqn:Ha.
  - apply String.eqb_eq in Ha. subst tag.
    eapply ensures_bind; [apply ensures_query|]. intros url Hurl.
    eapply ensures_bind; [apply keeps_anchor_title|]. intros title _.
    apply ensures_ret. intros url' title' [= <- <-]. right. auto.
  - eapply ensures_bind; [apply find_link_inside_spec|]. intros [le|] Hle.
    + destruct (Hle le eq_refl) as (href & Hhref & Hext).
      eapply ensures_bind; [apply ensures_query|]. intros url Hurl.
      cbn in Hurl. rewrite Hhref in Hurl. injection Hurl as <-.
      eapply ensures_bind; [apply keeps_anchor_title|]. intros title _.
      apply ensures_ret. intros url' title' [= <- <-]. left. exact Hext.
    + apply ensures_ret. discriminate.
Qed.

Lemma is_external_contains (href : option string) :
  is_external base href = true ->
  exists u, href = Some u /\ u <> "" /\ PyStr.contains base u = false.
Proof.
  unfold is_external. destruct href as [u|]; [|discriminate]. cbn.
  intros H. apply andb_prop in H as [Ht H]. apply andb_prop in H as [_ Hb].
  exists u. repeat split.
  - intros ->. discriminate.
  - destruct (PyStr.contains base u); [discriminate | reflexivity].
Qed.

Lemma parse_link_element_spec (el : E) :
  candidate w base el ->
  ensures w base
    (fun parsed => forall info, parsed = Some info -> url_invariant w base info)
    (parse_link_element el).
Proof.
  intros Hcand. unfold parse_link_element.
  eapply ensures_bind; [apply link_url_and_title_spec|].
  intros [[url title]|] Hfound; [|apply ensures_ret; discriminate].
  specialize (Hfound url title eq_refl).
  eapply ensures_bind with (Q := fun _ => True);
    [unfold tag_name; keeps|]. intros tag _.
  eapply ensures_bind with (Q := fun _ => True).
  { destruct (negb (tag =? "a")); [apply keeps_find_description|keeps]. }
  intros description _.
  eapply ensures_bind with (Q := fun _ => True);
    [unfold tag_name; keeps|]. intros tag' _.
  eapply ensures_bind with (Q := fun _ => True).
  { destruct (negb (tag' =? "a")); [apply keeps_find_tags|keeps]. }
  intros tags _.
  destruct (PyStr.truthy_opt url) eqn:Htruthy;
    apply ensures_ret; [|discriminate].
  intros info [= <-]. unfold url_invariant. cbn [li_url].
  destruct url as [u|]; [|discriminate]. cbn in Htruthy.
  exists u. split; [reflexivity|]. split; [intros ->; discriminate|].
  destruct Hfound as [Hext | [Htag Hhref]].
  - left. destruct (is_external_contains _ Hext) as (u' & [= <-] & _ & H).
    exact H.
  - destruct Hcand as [(href & Hhref' & Hext) | Htier].
    + left. rewrite Hhref in Hhref'. injection Hhref' as <-.
      destruct (is_external_contains _ Hext) as (u' & [= <-] & _ & H).
      exact H.
    + right. exists el. split; [split; assumption | exact Hhref].
Qed.

Lemma extract_links_spec (l : list E) :
  forall links,
    Forall (candidate w base) l -> Forall (url_invariant w base) links ->
    ensures w base (Forall (url_invariant w base)) (extract_links l links).
Proof.
  induction l as [|el l IH]; intros links Hl Hlinks; cbn [extract_links].
  - apply ensures_ret, Hlinks.
  - inversion Hl as [|? ? Hel Hrest]; subst.
    eapply ensures_bind.
    + apply ensures_try; [apply parse_link_element_spec, Hel|].
      intros _. apply ensures_ret. discriminate.
    + intros [info|] Hinfo; [|apply IH; assumption].
      apply IH; [assumption|]. apply Forall_app. split; [assumption|].
      constructor; [apply Hinfo; reflexivity | constructor].
Qed.

(** On the page the browser is on, every record returned has a non-empty
    url, and the url does not contain the base URL unless it is the href
    of a tier-1 candidate that is itself an anchor: the candidates of
    tiers 2 and 3, and the anchors found inside containers, are filtered. *)
Lemma collect_links_urls (limit : Z) :
  ensures (E:=E) w base (Forall (url_invariant w base))
    (collect_links limit).
Proof.
  unfold collect_links.
  eapply ensures_bind; [apply choose_link_elements_spec|].
  intros link_elements Hcands.
  destruct (negb (nonempty link_elements)).
  - eapply ensures_bind with (Q := fun _ => True);
      [unfold driver_page_source; keeps|].
    intros _ _. apply ensures_ret. constructor.
  - apply extract_links_spec; [exact Hcands | constructor].
Qed.

End Extraction.

Section Extraction_of_get_links.

Context {W E : Type} {D : WebDriver W E}.

Lemma browsing_open_list_page : browsing (W:=W) (E:=E) open_list_page.
Proof.
  unfold open_list_page.
  repeat first
    [ apply browsing_bind; [|intros ?]
    | apply browsing_read | apply browsing_command
    | apply browsing_wait_for_page_ready | apply browsing_debug_page_elements ].
Qed.

(** The same of [get_links]: with [w] the browser once the list page is
    open, every record it returns has a non-empty url that does not
    contain the base URL, or is the href of a tier-1 candidate that is
    itself an anchor. *)
Lemma get_links_urls (limit : Z) (s : ShaarliClient W E) (w : W) :
  driver (snd (open_list_page s)) = Some w ->
  match fst (get_links limit s) with
  | Ok links => Forall (url_invariant w (base_url s)) links
  | Raise _ => True
  end.
Proof.
  intros Hw. unfold get_links, bind, read.
  destruct (is_logged_in s); cbn [negb]; [|exact I].
  unfold try_except, get_links_body, bind.
  pose proof (browsing_open_list_page s) as Hsame.
  destruct (open_list_page s) as [[[]|x] s1]; cbn [fst snd] in *.
  - destruct Hsame as (Hbase & _).
    destruct (collect_links_urls w (base_url s) limit s1 Hw Hbase)
      as (H & _ & _).
    destruct (collect_links limit s1) as [[links|x] s2]; cbn in *.
    + exact H.
    + constructor.
  - constructor.
Qed.

End Extraction_of_get_links.

(** ** Runs on the small browser *)

Section Runs.

(** C1.  A list page of [http://shaarli.example] on which the selector
    [.link] matches the tag link
    [<a class="link" href="http://shaarli.example/?searchtags=rocq">rocq</a>]:
    the candidate is itself an anchor, its href is taken as it is, and
    [get_links] returns a record whose url contains the base URL. *)
Theorem get_links_emits_same_origin_url :
  is_logged_in Toy.logged_in = true
  /\ base_url Toy.logged_in = Toy.shaarli
  /\ fst (get_links 10 Toy.logged_in)
     = Ok [ mk_link_info (Some "http://shaarli.example/?searchtags=rocq")
              "rocq" "" "" ]
  /\ PyStr.contains (base_url Toy.logged_in)
       "http://shaarli.example/?searchtags=rocq" = true.
Proof. vm_compute. repeat split. Qed.

Lemma login_success_criterion_witness :
  (let s := Toy.started "http://login.example" in
   let page :=
     drv_sleep 3
       (Toy.world_of (snd (login_until_submitted "admin" "secret" s))) in
   let verdict :=
     negb (PyStr.contains "login" "http://login.example/")
     || marker_check page in
   fst (login "admin" "secret" s) = Ok verdict
   /\ is_logged_in (snd (login "admin" "secret" s))
      = (verdict || is_logged_in s)
   /\ (PyStr.contains "login" "http://login.example/" = false ->
       fst (login "admin" "secret" s) = Ok true))
  /\ (let s := Toy.started Toy.shaarli in
      let page :=
        drv_sleep 3
          (Toy.world_of (snd (login_until_submitted "admin" "secret" s))) in
      let verdict :=
        negb (PyStr.contains "login" "http://shaarli.example/")
        || marker_check page in
      fst (login "admin" "secret" s) = Ok verdict
      /\ is_logged_in (snd (login "admin" "secret" s))
         = (verdict || is_logged_in s)
      /\ (PyStr.contains "login" "http://shaarli.example/" = false ->
          fst (login "admin" "secret" s) = Ok true)).
Proof.
  split; intros s.
  - refine (login_success_criterion "admin" "secret" s
              (snd (login_until_submitted "admin" "secret" s))
              (Toy.world_of (snd (login_until_submitted "admin" "secret" s)))
              "http://login.example/" _ _ _ _).
    + vm_compute. discriminate.
    + vm_compute. reflexivity.
    + vm_compute. reflexivity.
    + vm_compute. reflexivity.
  - refine (login_success_criterion "admin" "secret" s
              (snd (login_until_submitted "admin" "secret" s))
              (Toy.world_of (snd (login_until_submitted "admin" "secret" s)))
              "http://shaarli.example/" _ _ _ _).
    + vm_compute. discriminate.
    + vm_compute. reflexivity.
    + vm_compute. reflexivity.
    + vm_compute. reflexivity.
Defined.

(** The two runs of the witness.  On [http://login.example] every URL
    contains "login", and the login succeeds by the Logout link of the page
    it arrives at; on [http://shaarli.example] it succeeds by the URL. *)
Example login_by_marker_and_by_url :
  (let r := login "admin" "secret" (Toy.started "http://login.example") in
   drv_current_url (Toy.world_of (snd r)) = Ok "http://login.example/"
   /\ PyStr.contains "login" "http://login.example/" = true
   /\ marker_check (Toy.world_of (snd r)) = true
   /\ fst r = Ok true
   /\ is_logged_in (snd r) = true)
  /\ (let r := login "admin" "secret" (Toy.started Toy.shaarli) in
      drv_current_url (Toy.world_of (snd r)) = Ok "http://shaarli.example/"
      /\ PyStr.contains "login" "http://shaarli.example/" = false
      /\ fst r = Ok true
      /\ is_logged_in (snd r) = true).
Proof. vm_compute. repeat split. Qed.

(** C2, as stated, fails: the same site in a browser in which the query
    for "Tools" raises.  After the form is submitted the URL contains
    "login" and the page shows a Logout link, which the first marker query
    finds; the second raises, and [login] returns [False]. *)
Lemma login_marker_query_raises :
  let s := Toy.started "http://login.example" in
  let r := login_until_submitted (D := ToyWith.broken_marker) "admin" "secret" s in
  let page := drv_sleep (WebDriver := ToyWith.broken_marker) 3 (Toy.world_of (snd r)) in
  let out := login (D := ToyWith.broken_marker) "admin" "secret" s in
  fst r = Ok true
  /\ drv_current_url (WebDriver := ToyWith.broken_marker) page
     = Ok "http://login.example/"
  /\ PyStr.contains "login" "http://login.example/" = true
  /\ drv_find_elements (WebDriver := ToyWith.broken_marker)
       None PARTIAL_LINK_TEXT "Logout" page = Ok [0]
  /\ drv_find_elements (WebDriver := ToyWith.broken_marker)
       None PARTIAL_LINK_TEXT "Tools" page
     = Raise (WebDriverException "unknown error")
  /\ marker_check (D := ToyWith.broken_marker) page = false
  /\ fst out = Ok false
  /\ is_logged_in (snd out) = false.
Proof. vm_compute. repeat split. Qed.

Lemma first_match_priority_witness :
  first_match username_selectors (Toy.on_page Toy.shaarli "http://shaarli.example/login")
  = (Ok (Some 0),
     add_calls [ CFindElements None NAME "login";
                 CFindElements None NAME "username" ]
       (Toy.on_page Toy.shaarli "http://shaarli.example/login")).
Proof.
  refine (first_match_priority username_selectors 1 (NAME, "username") 0
            (Toy.on_page Toy.shaarli "http://shaarli.example/login")
            (Toy.world_of (Toy.on_page Toy.shaarli "http://shaarli.example/login"))
            _ _ _ _).
  - vm_compute. reflexivity.
  - reflexivity.
  - intros j r' Hj Hr'. destruct j as [|j]; [|lia].
    injection Hr' as <-. vm_compute. reflexivity.
  - vm_compute. reflexivity.
Defined.

Lemma try_interact_escalates_witness :
  let s := Toy.on_page "http://covered.example" "http://covered.example/login" in
  let direct := tactic_direct 0 "click" None s in
  let scrolled := tactic_scrolled 0 "click" None (snd direct) in
  let scripted := tactic_scripted 0 "click" None (snd scrolled) in
  ("click" = "click" \/ ("click" = "send_keys" /\ PyStr.truthy_opt None = true))
  /\ try_interact_with_element (Some 0) "click" None s =
       (if is_ok (fst direct) then (Ok true, snd direct)
        else if is_ok (fst scrolled) then (Ok true, snd scrolled)
        else if is_ok (fst scripted) then (Ok true, snd scripted)
        else (Ok false, snd scripted)).
Proof.
  intros s direct scrolled scripted. split.
  - left. reflexivity.
  - exact (proj1 (try_interact_escalates 0 "click" None s (or_introl eq_refl))).
Defined.

(** On that page the banner intercepts both native clicks, and the script
    click goes through. *)
Example covered_button_is_clicked_by_script :
  let s := Toy.on_page "http://covered.example" "http://covered.example/login" in
  fst (tactic_direct 0 "click" None s)
  = Raise (WebDriverException "element click intercepted")
  /\ fst (tactic_scrolled 0 "click" None (snd (tactic_direct 0 "click" None s)))
     = Raise (WebDriverException "element click intercepted")
  /\ fst (try_interact_with_element (Some 0) "click" None s) = Ok true.
Proof. vm_compute. repeat split. Qed.

(** C9, as stated, fails: with an empty text the second tactic still
    scrolls the element into view and pauses, on a field that could have
    been typed into. *)
Lemma send_keys_without_text_still_scrolls :
  let s := Toy.on_page Toy.shaarli "http://shaarli.example/login" in
  try_interact_with_element (Some 0) "send_keys" (Some "") s <> (Ok false, s)
  /\ calls (snd (try_interact_with_element (Some 0) "send_keys" (Some "") s))
     = calls s ++ [CExecuteScript scroll_script [ArgElem 0]; CSleep 1].
Proof.
  split.
  - intros H.
    apply (f_equal (fun r => length (calls (snd r)))) in H.
    vm_compute in H. discriminate.
  - vm_compute. reflexivity.
Qed.

Lemma try_interact_send_keys_without_text_witness :
  try_interact_with_element (Some 0) "send_keys" (Some "")
    (Toy.on_page Toy.shaarli "http://shaarli.example/login")
  = (Ok false,
     snd (scroll_into_view 0 (Toy.on_page Toy.shaarli "http://shaarli.example/login"))).
Proof.
  exact (proj1 (try_interact_send_keys_without_text 0 (Some "")
                  (Toy.on_page Toy.shaarli "http://shaarli.example/login") eq_refl)).
Defined.

(** C5, as stated, fails: on [http://framed.example/login] the top
    document yields no username field, the login input sits in the one
    iframe, and the search returns it with the session still inside that
    iframe; [switch_to.default_content()] is not called. *)
Lemma iframe_hit_stays_in_frame :
  let s := Toy.on_page "http://framed.example" "http://framed.example/login" in
  let r := find_username_in_iframes [1] s in
  fst (find_username_in_document s) = Ok None
  /\ fst (check_for_iframes s) = Ok [1]
  /\ fst r = Ok (Some 2)
  /\ Toy.context (Toy.world_of s) = None
  /\ Toy.context (Toy.world_of (snd r)) = Some 1
  /\ ~ In CSwitchToDefaultContent (calls (snd r)).
Proof.
  vm_compute. repeat split; try reflexivity.
  intros H. repeat (destruct H as [H|H]; [discriminate|]). exact H.
Qed.

Lemma iframe_fallback_witness :
  let s := Toy.on_page "http://portal.example" "http://portal.example/login" in
  let w := Toy.world_of s in
  let s0 := add_calls (document_calls w) s in
  (let w1 := after_passed w [1] in
   find_username [1; 2; 3] s
   = (Ok (Some 4),
      moved (enter_frame w1 2)
        (passed_calls w [1] ++ CSwitchToFrame 2 :: hit_queries (enter_frame w1 2))
        s0)
   /\ forallb is_query (hit_queries (enter_frame w1 2)) = true)
  /\ (let w1 := after_passed (D := ToyWith.broken_frame) w [1] in
      find_username (D := ToyWith.broken_frame) [1; 2; 3] s
      = (Ok (Some 4),
         moved (enter_frame (D := ToyWith.broken_frame) w1 2)
           (passed_calls (D := ToyWith.broken_frame) w [1]
              ++ CSwitchToFrame 2
                 :: hit_queries (D := ToyWith.broken_frame)
                      (enter_frame (D := ToyWith.broken_frame) w1 2))
           (add_calls (document_calls (D := ToyWith.broken_frame) w) s))
      /\ forallb is_query
           (hit_queries (D := ToyWith.broken_frame)
              (enter_frame (D := ToyWith.broken_frame) w1 2)) = true).
Proof.
  intros s w s0. split.
  - refine (proj2 (proj2 (proj2 (iframe_fallback (D := Toy.browser)
                                   [1; 2; 3] s w _ _)))
              [1] 2 [3] 4 _ _ _ _).
    + vm_compute. reflexivity.
    + vm_compute. reflexivity.
    + reflexivity.
    + split; [left | exact I].
      split; [vm_compute; reflexivity|].
      split; vm_compute; reflexivity.
    + vm_compute. reflexivity.
    + vm_compute. reflexivity.
  - refine (proj2 (proj2 (proj2 (iframe_fallback (D := ToyWith.broken_frame)
                                   [1; 2; 3] s w _ _)))
              [1] 2 [3] 4 _ _ _ _).
    + vm_compute. reflexivity.
    + vm_compute. reflexivity.
    + reflexivity.
    + split; [right | exact I].
      split; vm_compute; reflexivity.
    + vm_compute. reflexivity.
    + vm_compute. reflexivity.
Defined.

(** The run of the witness: the advertisement is visited and left, the
    field is found in the second iframe, where the session stays, and the
    third iframe is not visited.  Where the advertisement cannot be
    entered the switches are the same and no query is made for it. *)
Example portal_login_field_in_second_iframe :
  let s := Toy.on_page "http://portal.example" "http://portal.example/login" in
  let r := find_username [1; 2; 3] s in
  let r' := find_username (D := ToyWith.broken_frame) [1; 2; 3] s in
  let switches := filter (fun c => negb (is_query c)) in
  fst (check_for_iframes s) = Ok [1; 2; 3]
  /\ fst r = Ok (Some 4)
  /\ Toy.context (Toy.world_of (snd r)) = Some 2
  /\ switches (calls (snd r))
     = switches (calls s)
       ++ [CSwitchToFrame 1; CSwitchToDefaultContent; CSwitchToFrame 2]
  /\ fst r' = Ok (Some 4)
  /\ switches (calls (snd r'))
     = switches (calls s)
       ++ [CSwitchToFrame 1; CSwitchToDefaultContent; CSwitchToFrame 2]
  /\ length (calls (snd r')) < length (calls (snd r)).
Proof. vm_compute. repeat split. repeat constructor. Qed.

(** The iframes are a last resort.  On [http://search.example/login] no
    rule of the username plan matches in the main document and an iframe
    is present, yet the search box of the main document, found by the
    third approach, is taken as the username field, and the iframe is not
    visited. *)
Example input_scan_preempts_iframes :
  let s := Toy.on_page "http://search.example" "http://search.example/login" in
  let r := find_username [1] s in
  plan_hit (Toy.world_of s) username_selectors = None
  /\ fst (check_for_iframes s) = Ok [1]
  /\ fst r = Ok (Some 0)
  /\ forallb is_query (skipn (length (calls s)) (calls (snd r))) = true.
Proof. vm_compute. repeat split. Qed.

Lemma add_url_success_criterion_witness :
  fst (add_url "https://rocq-prover.org" "Rocq" "a prover" "rocq coq" true
         Toy.logged_in) = Ok true.
Proof.
  refine (add_url_success_criterion "https://rocq-prover.org" "Rocq"
            "a prover" "rocq coq" true Toy.logged_in
            (snd (add_url_until_saved "https://rocq-prover.org" "Rocq"
                    "a prover" "rocq coq" true Toy.logged_in))
            (Toy.world_of (snd (add_url_until_saved "https://rocq-prover.org"
                              "Rocq" "a prover" "rocq coq" true Toy.logged_in)))
            "http://shaarli.example/" _ _ _ _ _).
  - vm_compute. discriminate.
  - vm_compute. reflexivity.
  - vm_compute. reflexivity.
  - vm_compute. reflexivity.
  - vm_compute. reflexivity.
Defined.

Lemma public_operations_faults_witness :
  fst (login "admin" "secret" (__init__ Toy.shaarli true 10))
  = Raise (RuntimeError "WebDriver not initialized. Call start_driver() first.")
  /\ fst (add_url "https://rocq-prover.org" "" "" "" false (Toy.started Toy.shaarli))
     = Raise (RuntimeError "Not logged in. Call login() first.")
  /\ fst (get_links 10 (Toy.started Toy.shaarli))
     = Raise (RuntimeError "Not logged in. Call login() first.")
  /\ fst (get_links 10 (run_ops [StartDriver; TestConnectivity; Close]
                          (__init__ Toy.shaarli true 10)))
     = Raise (RuntimeError "Not logged in. Call login() first.")
  /\ fst (login "admin" "secret" (Toy.started Toy.shaarli)) = Ok true
  /\ fst (add_url "https://rocq-prover.org" "" "" "" false Toy.logged_in) = Ok true
  /\ fst (get_links 10 (snd (close Toy.logged_in))) = Ok [].
Proof.
  destruct (public_operations_faults (W:=Toy.world) (E:=Toy.elem)
              "admin" "secret" "https://rocq-prover.org" "" "" "" false 10)
    as (H1 & H2 & H3 & H4 & H5 & H6 & H7).
  split; [|split; [|split; [|split; [|split; [|split]]]]].
  - rewrite (proj1 (H1 (__init__ Toy.shaarli true 10) eq_refl)). reflexivity.
  - rewrite H2; [reflexivity | vm_compute; discriminate | reflexivity].
  - rewrite H3; reflexivity.
  - rewrite (proj2 (H4 Toy.shaarli true 10
                      [StartDriver; TestConnectivity; Close]
                      (conj I (conj I (conj I I))))).
    reflexivity.
  - rewrite H5; [vm_compute; reflexivity | vm_compute; discriminate].
  - rewrite H6; [vm_compute; reflexivity | vm_compute; discriminate
                | vm_compute; reflexivity].
  - rewrite H7; vm_compute; reflexivity.
Defined.

Lemma is_logged_in_monotone_witness :
  is_logged_in (run_op Close Toy.logged_in) = true
  /\ (exists username password,
        Login (E:=Toy.elem) "admin" "secret" = Login username password
        /\ fst (login username password (Toy.started Toy.shaarli)) = Ok true)
  /\ (exists links,
        fst (get_links 10
               (run_ops [Close; Login "admin" "secret"; StartDriver]
                  (snd (login "admin" "secret" (Toy.started Toy.shaarli)))))
        = Ok links).
Proof.
  destruct (is_logged_in_monotone (W:=Toy.world) (E:=Toy.elem)) as (H1 & H2 & H3).
  split; [|split].
  - apply H1. vm_compute. reflexivity.
  - apply (H2 (Login "admin" "secret") (Toy.started Toy.shaarli)).
    + reflexivity.
    + vm_compute. reflexivity.
  - refine (proj2 (proj2 (H3 "admin" "secret" (Toy.started Toy.shaarli)
                            [Close; Login "admin" "secret"; StartDriver] _)) 10%Z).
    vm_compute. reflexivity.
Defined.

End Runs.

(** * Further properties of the methods *)

Section Helpers_run.

Context {W E : Type} {D : WebDriver W E}.

Lemma query_none {A} (c : Call E) (f : W -> Res A) (s : ShaarliClient W E) :
  driver s = None -> query c f s = (Raise AttributeError, s).
Proof. intros H. unfold query. rewrite H. reflexivity. Qed.

Lemma command_none {A} (c : Call E) (f : W -> Res A * W)
  (s : ShaarliClient W E) :
  driver s = None -> command c f s = (Raise AttributeError, s).
Proof. intros H. unfold command. rewrite H. reflexivity. Qed.

Lemma returns_ret {A} (a : A) (s : ShaarliClient W E) (x : exn) :
  fst (ret a s) <> Raise x.
Proof. discriminate. Qed.

Lemma returns_try {A} (c : M W E A) (h : exn -> M W E A) :
  (forall e s x, fst (h e s) <> Raise x) ->
  forall s x, fst (try_except c h s) <> Raise x.
Proof.
  intros Hh s x. unfold try_except.
  destruct (c s) as [[a|e] s']; [discriminate | apply Hh].
Qed.

Lemma returns_bind {A B} (c : M W E A) (k : A -> M W E B) :
  (forall s x, fst (c s) <> Raise x) ->
  (forall a s x, fst (k a s) <> Raise x) ->
  forall s x, fst (bind c k s) <> Raise x.
Proof.
  intros Hc Hk s x. unfold bind. specialize (Hc s).
  destruct (c s) as [[a|e] s']; [apply Hk|].
  exfalso. apply (Hc e). reflexivity.
Qed.

(** The interaction engine returns a boolean, whatever the driver does. *)
Lemma try_interact_returns (element : option E) (action : string)
  (text : option string) (s : ShaarliClient W E) (x : exn) :
  fst (try_interact_with_element element action text s) <> Raise x.
Proof.
  revert s x. unfold try_interact_with_element.
  destruct element as [el|]; [|intros; discriminate].
  repeat first
    [ apply returns_bind; [apply returns_try; intros; apply returns_ret|]
    | intros [|]
    | intros; apply returns_ret ].
Qed.

Lemma consulted_miss (w : W) (plan : list Selector) :
  plan_hit w plan = None -> consulted w plan = plan.
Proof.
  induction plan as [|r plan IH]; cbn; [reflexivity|].
  destruct (rule_matches w r); [discriminate|].
  intros H. rewrite IH by exact H. reflexivity.
Qed.

Lemma plan_hit_none (w : W) (plan : list Selector) :
  (forall r, In r plan -> rule_matches w r = None) -> plan_hit w plan = None.
Proof.
  induction plan as [|r plan IH]; cbn; intros H; [reflexivity|].
  rewrite (H r) by auto. apply IH. intros r' Hr'. apply H. auto.
Qed.

(** X6.  A plan none of whose rules matches (or whose queries raise) is a
    miss, not an error: the resolver returns [None] after querying every
    rule once, in order, and the browser is as before. *)
Theorem first_match_not_found (plan : list Selector)
  (s : ShaarliClient W E) (w : W) :
  driver s = Some w ->
  (forall r, In r plan -> rule_matches w r = None) ->
  first_match plan s = (Ok None, add_calls (map rule_call plan) s).
Proof.
  intros Hd Hnone. rewrite (first_match_run plan s w Hd).
  rewrite (plan_hit_none w plan Hnone).
  rewrite (consulted_miss w plan (plan_hit_none w plan Hnone)).
  reflexivity.
Qed.

(** X7.  [debug_page_elements] never raises, whatever the page and the
    driver do; the calls it makes are read-only queries, and the object and
    the browser are as before. *)
Theorem debug_page_elements_reads_only (s : ShaarliClient W E) :
  exists queries,
    debug_page_elements s = (Ok tt, add_calls queries s)
    /\ forallb is_query queries = true.
Proof.
  destruct (driver s) as [w|] eqn:Hd.
  - exists (debug_calls w). apply debug_page_elements_run, Hd.
  - exists []. split; [|reflexivity]. rewrite add_calls_nil.
    unfold debug_page_elements, try_except, bind, find_elements.
    rewrite (query_none _ _ s Hd). reflexivity.
Qed.

Lemma log_iframes_run (iframes : list E) (s : ShaarliClient W E) (w : W) :
  driver s = Some w ->
  exists r l,
    log_iframes iframes s = (r, add_calls l s)
    /\ forallb is_query l = true
    /\ is_ok r = forallb (attributes_readable w) iframes.
Proof.
  intros Hd. revert s Hd.
  induction iframes as [|f rest IH]; intros s Hd; cbn [log_iframes forallb].
  - exists (Ok tt), []. rewrite add_calls_nil. auto.
  - unfold bind at 1. unfold get_attribute at 1.
    rewrite (query_run _ _ s w Hd). unfold attributes_readable at 1.
    destruct (drv_get_attribute f "src" w) as [src|x]; cbn [is_ok andb].
    2: { exists (Raise x), [CGetAttribute f "src"]. auto. }
    unfold bind at 1. unfold get_attribute at 1.
    rewrite (query_run _ _ (add_calls _ s) w Hd).
    destruct (drv_get_attribute f "name" w) as [name|x]; cbn [is_ok].
    2: { exists (Raise x), [CGetAttribute f "src"; CGetAttribute f "name"].
         rewrite add_calls_app. auto. }
    destruct (IH (add_calls [CGetAttribute f "name"]
                    (add_calls [CGetAttribute f "src"] s)) Hd)
      as (r & l & Hrun & Hl & Hr).
    exists r, ([CGetAttribute f "src"; CGetAttribute f "name"] ++ l).
    rewrite Hrun, !add_calls_app. cbn [app]. auto.
Qed.

(** X8.  [check_for_iframes] never raises and only queries.  It returns
    the iframes found when the [src] and [name] of each can be read; when
    the search raises, or when reading an attribute of one of them raises,
    it returns the empty list, although iframes may be there. *)
Theorem check_for_iframes_result (s : ShaarliClient W E) (w : W) :
  driver s = Some w ->
  exists queries,
    forallb is_query queries = true
    /\ check_for_iframes s
       = (Ok match drv_find_elements None TAG_NAME "iframe" w with
             | Ok iframes =>
                 if forallb (attributes_readable w) iframes then iframes
                 else []
             | Raise _ => []
             end,
          add_calls queries s).
Proof.
  intros Hd. unfold check_for_iframes, try_except, bind at 1.
  unfold find_elements. rewrite (query_run _ _ s w Hd).
  destruct (drv_find_elements None TAG_NAME "iframe" w) as [[|f rest]|x].
  - exists [CFindElements None TAG_NAME "iframe"]. auto.
  - cbn [nonempty]. unfold bind.
    destruct (log_iframes_run (f :: rest) (add_calls [CFindElements None TAG_NAME "iframe"] s) w Hd)
      as (r & l & Hrun & Hl & Hr).
    rewrite Hrun. rewrite <- Hr.
    exists (CFindElements None TAG_NAME "iframe" :: l).
    split; [exact Hl|].
    destruct r; cbn; rewrite add_calls_app; reflexivity.
  - exists [CFindElements None TAG_NAME "iframe"]. auto.
Qed.

(** X9.  [_is_logged_in] never raises and only queries.  It returns
    [True] when all three marker queries answer and one of them finds a
    link; when one of the queries raises it returns [False], whatever the
    others find. *)
Theorem _is_logged_in_result (s : ShaarliClient W E) (w : W) :
  driver s = Some w ->
  exists queries,
    forallb is_query queries = true
    /\ _is_logged_in s
       = (Ok match marker_links w "Logout", marker_links w "Tools",
                   marker_links w "Shaare" with
             | Some logout_elements, Some admin_elements, Some add_elements =>
                 nonempty logout_elements || nonempty admin_elements
                 || nonempty add_elements
             | _, _, _ => false
             end,
          add_calls queries s).
Proof.
  intros Hd. unfold _is_logged_in, try_except, bind, find_elements, marker_links.
  rewrite (query_run _ _ s w Hd).
  destruct (drv_find_elements None PARTIAL_LINK_TEXT "Logout" w) as [l1|x].
  2: { eexists. split; [|reflexivity]. reflexivity. }
  rewrite (query_run _ _ (add_calls _ s) w Hd).
  destruct (drv_find_elements None PARTIAL_LINK_TEXT "Tools" w) as [l2|x].
  2: { eexists. rewrite add_calls_app. split; [|reflexivity]. reflexivity. }
  rewrite (query_run _ _ (add_calls _ (add_calls _ s)) w Hd).
  destruct (drv_find_elements None PARTIAL_LINK_TEXT "Shaare" w) as [l3|x];
    eexists; rewrite !add_calls_app; (split; [|reflexivity]); reflexivity.
Qed.

(** X10.  [wait_for_page_ready] never raises: every timeout is swallowed.
    When the wait for the ready state fails, it returns at once, without
    the settle delay and without the jQuery wait; when it succeeds, the
    one-second delay and the two-second jQuery wait follow, and a failure
    of the latter changes nothing. *)
Theorem wait_for_page_ready_never_raises (tmo : nat) (s : ShaarliClient W E) :
  fst (wait_for_page_ready tmo s) = Ok tt
  /\ (forall w,
        driver s = Some w ->
        calls (snd (wait_for_page_ready tmo s))
        = calls s
          ++ if is_ok (fst (drv_wait_until tmo ReadyStateComplete w))
             then [CWaitUntil tmo ReadyStateComplete; CSleep 1;
                   CWaitUntil 2 JQueryIdle]
             else [CWaitUntil tmo ReadyStateComplete]).
Proof.
  split.
  - unfold wait_for_page_ready, try_except.
    match goal with |- context [match ?c s with _ => _ end] =>
      destruct (c s) as [[[]|x] s'] end; reflexivity.
  - intros w Hd. unfold wait_for_page_ready, try_except, bind at 1.
    unfold wait_until at 1. rewrite (command_run _ _ s w Hd).
    destruct (drv_wait_until tmo ReadyStateComplete w) as [[[]|x] w1];
      cbn [fst snd is_ok]; [|reflexivity].
    unfold bind, time_sleep, wait_until, command. cbn.
    destruct (drv_wait_until 2 JQueryIdle (drv_sleep 1 w1)) as [[[]|x] w2];
      cbn; rewrite <- !app_assoc; reflexivity.
Qed.


(** X12.  An action that is neither "click" nor "send_keys" with a text is
    not an error: on any element the call returns [False], and the only
    thing done is the scroll (and pause) of the second tactic. *)
Theorem try_interact_unsupported_action (el : E) (action : string)
  (text : option string) (s : ShaarliClient W E) :
  action <> "click" ->
  action <> "send_keys" \/ PyStr.truthy_opt text = false ->
  try_interact_with_element (Some el) action text s
  = (Ok false, snd (scroll_into_view el s)).
Proof.
  intros Hclick Hkeys.
  assert (Hc : (action =? "click") = false) by (apply String.eqb_neq, Hclick).
  assert (Hk : ((action =? "send_keys") && PyStr.truthy_opt text) = false).
  { destruct Hkeys as [H | H].
    - apply String.eqb_neq in H. rewrite H. reflexivity.
    - rewrite H. apply andb_false_r. }
  unfold try_interact_with_element, scroll_into_view.
  rewrite Hc, Hk.
  unfold bind, try_except, ret, execute_script, command, time_sleep.
  destruct (driver s) as [w|]; cbn; [|reflexivity].
  destruct (drv_execute_script scroll_script [ArgElem el] w) as [[[]|x] w'];
    reflexivity.
Qed.

(** X20.  An iframe the session cannot switch into does not end the search:
    [switch_to.default_content()] is called and the search goes on with the
    next iframe.  When that call raises too, the search raises (and [login]
    then returns [False]). *)
Theorem search_iframes_skips_broken_frame (f : E) (rest : list E)
  (s : ShaarliClient W E) (w : W) (x : exn) :
  driver s = Some w ->
  fst (drv_switch_to_frame f w) = Raise x ->
  let s' := moved (leave_frame (enter_frame w f))
              [CSwitchToFrame f; CSwitchToDefaultContent] s in
  (fst (drv_switch_to_default_content (enter_frame w f)) = Ok tt ->
   search_iframes (f :: rest) s = search_iframes rest s')
  /\ (forall x',
        fst (drv_switch_to_default_content (enter_frame w f)) = Raise x' ->
        search_iframes (f :: rest) s = (Raise x', s')).
Proof.
  intros Hd Hin s'.
  assert (Hgen : search_iframes (f :: rest) s
                 = match fst (drv_switch_to_default_content (enter_frame w f)) with
                   | Ok _ => search_iframes rest s'
                   | Raise e => (Raise e, s')
                   end).
  { subst s'. cbn [search_iframes]. unfold bind at 1. unfold try_except.
    unfold bind at 1. unfold switch_to_frame.
    rewrite (command_run _ _ s w Hd). rewrite Hin.
    fold (enter_frame w f).
    unfold bind at 1. unfold switch_to_default_content.
    rewrite (command_run _ _ _ (enter_frame w f)) by reflexivity.
    fold (leave_frame (enter_frame w f)). rewrite moved_moved. cbn [app].
    destruct (fst (drv_switch_to_default_content (enter_frame w f)));
      reflexivity. }
  split.
  - intros H. rewrite Hgen, H. reflexivity.
  - intros x' H. rewrite Hgen, H. reflexivity.
Qed.

(** X21.  In the main document the selector plan comes first: when one of
    its rules matches, that element is the username field, and neither the
    forms nor the inputs of the page are queried. *)
Theorem find_username_plan_first (s : ShaarliClient W E) (w : W) (e : E) :
  driver s = Some w ->
  plan_hit w username_selectors = Some e ->
  find_username_in_document s
  = (Ok (Some e),
     add_calls (map rule_call (consulted w username_selectors)) s).
Proof.
  intros Hd Hhit. unfold find_username_in_document, bind.
  rewrite (first_match_run username_selectors s w Hd). rewrite Hhit.
  reflexivity.
Qed.

Lemma tick_turn_miss (b : By) (v : string) (s : ShaarliClient W E) (w : W)
  (k : list E -> M W E bool) :
  driver s = Some w ->
  rule_matches w (b, v) = None ->
  (forall s', k [] s' = (Ok false, s')) ->
  try_except (bind (find_elements None b v) k) (fun _ => ret false) s
  = (Ok false, add_calls [rule_call (b, v)] s).
Proof.
  intros Hd Hnone Hk. unfold try_except, bind.
  rewrite (find_elements_run s w b v Hd).
  unfold rule_matches in Hnone. cbn [fst snd] in Hnone.
  destruct (drv_find_elements None b v w) as [[|e l]|x]; try discriminate.
  - rewrite Hk. reflexivity.
  - reflexivity.
Qed.

(** X15.  An optional field is filled on a best-effort basis:
    [fill_first_match] never raises; where no rule of its plan matches it
    only queries the rules; where one matches it hands the first element
    found to the interaction engine with the text, and drops the outcome. *)
Theorem fill_first_match_best_effort (plan : list Selector) (text : string)
  (s : ShaarliClient W E) (w : W) :
  driver s = Some w ->
  let s1 := add_calls (map rule_call (consulted w plan)) s in
  fill_first_match plan text s
  = (Ok tt,
     match plan_hit w plan with
     | Some field =>
         snd (try_interact_with_element (Some field) "send_keys" (Some text) s1)
     | None => s1
     end).
Proof.
  intros Hd. revert s Hd.
  induction plan as [|[b v] rest IH]; intros s Hd.
  - cbn. rewrite add_calls_nil. reflexivity.
  - cbn [fill_first_match plan_hit consulted] in *.
    destruct (rule_matches w (b, v)) as [e|] eqn:Hrule.
    + unfold bind at 1. unfold try_except. unfold bind at 1.
      rewrite (find_elements_run s w b v Hd).
      unfold rule_matches in Hrule. cbn [fst snd] in Hrule.
      destruct (drv_find_elements None b v w) as [[|e' l]|x]; try discriminate.
      injection Hrule as ->. cbn [map].
      unfold bind.
      destruct (try_interact_with_element (Some e) "send_keys" (Some text) _)
        as [[r|x] s2] eqn:Hfill; cbn.
      * reflexivity.
      * exfalso.
        assert (H : fst (try_interact_with_element (Some e) "send_keys"
                           (Some text) (add_calls [rule_call (b, v)] s))
                    = Raise x) by (rewrite Hfill; reflexivity).
        revert H. apply try_interact_returns.
    + unfold bind at 1.
      rewrite tick_turn_miss with (w := w); auto.
      rewrite (IH (add_calls [rule_call (b, v)] s) Hd).
      rewrite add_calls_app. cbn [app map]. reflexivity.
Qed.

(** X22.  The private checkbox is clicked only if it is not yet ticked:
    with [cb] the first element the plan finds, [tick_first_match] queries
    the rules up to the matching one and [cb.is_selected()], and then
    clicks [cb] through the interaction engine if that answered [False],
    and does nothing more if it answered [True]. *)
Theorem tick_first_match_only_if_unticked (plan : list Selector)
  (s : ShaarliClient W E) (w : W) (cb : E) (selected : bool) :
  driver s = Some w ->
  plan_hit w plan = Some cb ->
  drv_is_selected cb w = Ok selected ->
  let s1 := add_calls (map rule_call (consulted w plan) ++ [CIsSelected cb]) s in
  tick_first_match plan s
  = (Ok tt,
     if selected then s1
     else snd (try_interact_with_element (Some cb) "click" None s1)).
Proof.
  intros Hd. revert s Hd.
  induction plan as [|[b v] rest IH]; intros s Hd Hhit Hsel; [discriminate|].
  cbn [tick_first_match plan_hit consulted] in *.
  destruct (rule_matches w (b, v)) as [e|] eqn:Hrule.
  - injection Hhit as ->. unfold bind at 1. unfold try_except. unfold bind at 1.
    rewrite (find_elements_run s w b v Hd).
    unfold rule_matches in Hrule. cbn [fst snd] in Hrule.
    destruct (drv_find_elements None b v w) as [[|e l]|x]; try discriminate.
    injection Hrule as ->.
    unfold bind at 1. unfold is_selected.
    rewrite (query_run _ _ (add_calls _ s) w Hd). rewrite Hsel.
    rewrite add_calls_app. cbn [map app].
    destruct selected; cbn [negb].
    + reflexivity.
    + unfold bind.
      destruct (try_interact_with_element (Some cb) "click" None _)
        as [[r|x] s2] eqn:Hclick; cbn.
      * reflexivity.
      * exfalso.
        assert (H : fst (try_interact_with_element (Some cb) "click" None
                           (add_calls [rule_call (b, v); CIsSelected cb] s))
                    = Raise x) by (rewrite Hclick; reflexivity).
        revert H. apply try_interact_returns.
  - unfold bind at 1.
    rewrite tick_turn_miss with (w := w); auto.
    rewrite (IH (add_calls [rule_call (b, v)] s) Hd Hhit Hsel).
    rewrite add_calls_app. cbn [app]. reflexivity.
Qed.

End Helpers_run.

(** ** What [get_links] returns *)

Section Records.

Context {W E : Type} {D : WebDriver W E}.

Lemma yields_ret {A} (P : A -> Prop) (a : A) :
  P a -> yields (W:=W) (E:=E) P (ret a).
Proof. intros H s. exact H. Qed.

Lemma yields_bind {A B} (Q : A -> Prop) (P : B -> Prop)
  (c : M W E A) (k : A -> M W E B) :
  yields Q c -> (forall a, Q a -> yields P (k a)) -> yields P (bind c k).
Proof.
  intros Hc Hk s. unfold bind. specialize (Hc s).
  destruct (c s) as [[a|x] s1]; cbn in *; [apply (Hk a Hc s1) | exact I].
Qed.

Lemma yields_any {A} (c : M W E A) : yields (fun _ => True) c.
Proof. intros s. destruct (fst (c s)); exact I. Qed.

Lemma yields_then {A B} (P : B -> Prop) (c : M W E A) (k : A -> M W E B) :
  (forall a, yields P (k a)) -> yields P (bind c k).
Proof.
  intros Hk. apply (yields_bind (fun _ => True)); [apply yields_any|].
  intros a _. apply Hk.
Qed.

Lemma yields_try {A} (P : A -> Prop) (c : M W E A) (h : exn -> M W E A) :
  yields P c -> (forall e, yields P (h e)) -> yields P (try_except c h).
Proof.
  intros Hc Hh s. unfold try_except. specialize (Hc s).
  destruct (c s) as [[a|x] s1]; cbn in *; [exact Hc | apply Hh].
Qed.

Lemma slice_to_length {A} (limit : Z) (l : list A) :
  (0 <= limit)%Z -> length (PyStr.slice_to limit l) <= Z.to_nat limit.
Proof.
  intros H. unfold PyStr.slice_to.
  destruct (Z.leb_spec 0 limit); [apply firstn_le_length | lia].
Qed.

Section Bounded.

Variable limit : Z.
Hypothesis limit_nonneg : (0 <= limit)%Z.

Let short (l : list E) : Prop := length l <= Z.to_nat limit.

Lemma find_link_elements_short (selectors : list string) :
  yields short (find_link_elements selectors limit).
Proof.
  induction selectors as [|sel rest IH]; cbn [find_link_elements].
  - apply yields_ret. unfold short. cbn. lia.
  - apply (yields_bind (fun hit => forall l, hit = Some l -> short l)).
    + apply yields_try; [|intros _; apply yields_ret; discriminate].
      apply yields_then. intros elements.
      destruct (nonempty elements); apply yields_ret; [|discriminate].
      intros l [= <-]. apply slice_to_length, limit_nonneg.
    + intros [l|] Hl; [apply yields_ret, Hl; reflexivity | exact IH].
Qed.

Lemma find_external_anchors_short :
  yields (W:=W) short (find_external_anchors limit).
Proof.
  unfold find_external_anchors. apply yields_try.
  - apply yields_then. intros all_links. apply yields_then. intros kept.
    destruct (nonempty kept); apply yields_ret.
    + apply slice_to_length, limit_nonneg.
    + unfold short. cbn. lia.
  - intros _. apply yields_ret. unfold short. cbn. lia.
Qed.

Lemma find_links_in_containers_short (selectors : list string) :
  yields short (find_links_in_containers selectors limit).
Proof.
  induction selectors as [|sel rest IH]; cbn [find_links_in_containers].
  - apply yields_ret. unfold short. cbn. lia.
  - apply (yields_bind (fun hit => forall l, hit = Some l -> short l)).
    + apply yields_try; [|intros _; apply yields_ret; discriminate].
      apply yields_then. intros container. apply yields_then. intros links.
      destruct (nonempty links); [|apply yields_ret; discriminate].
      apply yields_then. intros kept.
      destruct (nonempty kept); apply yields_ret; [|discriminate].
      intros l [= <-]. apply slice_to_length, limit_nonneg.
    + intros [l|] Hl; [apply yields_ret, Hl; reflexivity | exact IH].
Qed.

Lemma choose_link_elements_short :
  yields (W:=W) short (choose_link_elements limit).
Proof.
  unfold choose_link_elements.
  apply (yields_bind short); [apply find_link_elements_short|]. intros l1 H1.
  apply (yields_bind short).
  { destruct (nonempty l1); [apply yields_ret, H1|].
    apply find_external_anchors_short. }
  intros l2 H2.
  destruct (nonempty l2); [apply yields_ret, H2|].
  apply find_links_in_containers_short.
Qed.

End Bounded.

(** One record at most per candidate. *)
Lemma extract_links_length (l : list E) :
  forall links,
    yields (fun r => length r <= length links + length l)
      (extract_links l links).
Proof.
  induction l as [|el l IH]; intros links; cbn [extract_links].
  - apply yields_ret. cbn. lia.
  - apply yields_then. intros [info|]; intros s.
    + specialize (IH (links ++ [info]) s).
      destruct (fst (extract_links l (links ++ [info]) s)); [|exact I].
      rewrite length_app in IH. cbn in *. lia.
    + specialize (IH links s).
      destruct (fst (extract_links l links s)); [|exact I].
      cbn in *. lia.
Qed.

(** X2.  For a limit that is not negative, [get_links] returns at most
    [limit] records. *)
Theorem get_links_at_most_limit (limit : Z) (s s' : ShaarliClient W E)
  (links : list link_info) :
  (0 <= limit)%Z ->
  get_links limit s = (Ok links, s') ->
  (Z.of_nat (length links) <= limit)%Z.
Proof.
  intros Hlimit Hrun.
  assert (H : yields (W:=W) (fun r : list link_info => length r <= Z.to_nat limit)
                (get_links limit)).
  { unfold get_links. apply yields_then. intros logged.
    destruct (negb logged); [intros s0; exact I|].
    apply yields_try; [|intros _; apply yields_ret; cbn; lia].
    unfold get_links_body. apply yields_then. intros _.
    unfold collect_links.
    apply (yields_bind (fun l : list E => length l <= Z.to_nat limit));
      [apply choose_link_elements_short, Hlimit|].
    intros cands Hc.
    destruct (negb (nonempty cands)).
    - apply yields_then. intros _. apply yields_ret. cbn. lia.
    - intros s0. pose proof (extract_links_length cands [] s0) as He.
      destruct (fst (extract_links cands [] s0)); [|exact I].
      cbn in He. lia. }
  specialize (H s). rewrite Hrun in H. cbn in H. lia.
Qed.

Lemma anchor_title_truthy (a : E) :
  yields (fun title => title <> "") (anchor_title a).
Proof.
  unfold anchor_title. apply yields_then. intros text.
  destruct (PyStr.truthy (PyStr.strip text)) eqn:Ht.
  - apply yields_ret. intros H. rewrite H in Ht. discriminate.
  - apply yields_then. intros alt.
    destruct (PyStr.truthy_opt alt) eqn:Ha; apply yields_ret; [|discriminate].
    destruct alt as [t|]; [|discriminate]. cbn in *.
    intros H. rewrite H in Ha. discriminate.
Qed.

Lemma parse_link_element_title (el : E) :
  yields (fun parsed => forall info, parsed = Some info -> li_title info <> "")
    (parse_link_element el).
Proof.
  unfold parse_link_element.
  apply (yields_bind
           (fun found => forall url title, found = Some (url, title) ->
                                           title <> "")).
  - unfold link_url_and_title. apply yields_then. intros tag.
    destruct (tag =? "a").
    + apply yields_then. intros url.
      apply (yields_bind (fun title => title <> ""));
        [apply anchor_title_truthy|].
      intros title Ht. apply yields_ret. intros u t [= <- <-]. exact Ht.
    + apply yields_then. intros [le|]; [|apply yields_ret; discriminate].
      apply yields_then. intros url.
      apply (yields_bind (fun title => title <> ""));
        [apply anchor_title_truthy|].
      intros title Ht. apply yields_ret. intros u t [= <- <-]. exact Ht.
  - intros [[url title]|] Hfound; [|apply yields_ret; discriminate].
    specialize (Hfound url title eq_refl).
    repeat (apply yields_then; intros ?).
    destruct (PyStr.truthy_opt url); apply yields_ret; [|discriminate].
    intros info [= <-]. exact Hfound.
Qed.

Lemma extract_links_titles (l : list E) :
  forall links,
    Forall (fun r => li_title r <> "") links ->
    yields (Forall (fun r => li_title r <> "")) (extract_links l links).
Proof.
  induction l as [|el l IH]; intros links Hlinks; cbn [extract_links].
  - apply yields_ret, Hlinks.
  - eapply yields_bind.
    + apply yields_try; [apply parse_link_element_title|].
      intros _. apply yields_ret. discriminate.
    + intros [info|] Hinfo; [|apply IH, Hlinks].
      apply IH. apply Forall_app. split; [exact Hlinks|].
      constructor; [apply Hinfo; reflexivity | constructor].
Qed.

(** X3.  Every record [get_links] returns has a title that is not empty:
    the stripped link text, else the [title] attribute, else "No title". *)
Theorem get_links_titles_not_empty (limit : Z) (s s' : ShaarliClient W E)
  (links : list link_info) :
  get_links limit s = (Ok links, s') ->
  Forall (fun r => li_title r <> "") links.
Proof.
  intros Hrun.
  assert (H : yields (W:=W) (Forall (fun r => li_title r <> ""))
                (get_links limit)).
  { unfold get_links. apply yields_then. intros logged.
    destruct (negb logged); [intros s0; exact I|].
    apply yields_try; [|intros _; apply yields_ret; constructor].
    unfold get_links_body. apply yields_then. intros _.
    unfold collect_links. apply yields_then. intros cands.
    destruct (negb (nonempty cands)).
    - apply yields_then. intros _. apply yields_ret. constructor.
    - apply extract_links_titles. constructor. }
  specialize (H s). rewrite Hrun in H. exact H.
Qed.

(** X1.  With [w] the browser once the list page is open, every record
    [get_links] returns has a url that is a non-empty string; and the url
    does not contain the base URL, unless it is the href of a tier-1
    candidate that is itself an anchor. *)
Theorem get_links_url_invariant (limit : Z) (s s' : ShaarliClient W E)
  (w : W) (links : list link_info) :
  driver (snd (open_list_page s)) = Some w ->
  get_links limit s = (Ok links, s') ->
  Forall (url_invariant w (base_url s)) links.
Proof.
  intros Hw Hrun. pose proof (get_links_urls limit s w Hw) as H.
  rewrite Hrun in H. exact H.
Qed.

End Records.

(** ** [get_links] only reads the page *)

Section Scraping.

Context {W E : Type} {D : WebDriver W E}.

Lemma scraping_ret {A} (a : A) : scraping (W:=W) (E:=E) (ret a).
Proof.
  intros w base. exists (Ok a), []. split; [reflexivity|].
  intros s _ _. rewrite add_calls_nil. reflexivity.
Qed.

Lemma scraping_read_base : scraping (W:=W) (E:=E) (read base_url).
Proof.
  intros w base. exists (Ok base), []. split; [reflexivity|].
  intros s _ Hb. rewrite add_calls_nil. unfold read. rewrite Hb. reflexivity.
Qed.

Lemma scraping_query {A} (c : Call E) (f : W -> Res A) :
  is_query c = true -> scraping (query c f).
Proof.
  intros Hc w base. exists (f w), [c]. split; [cbn; rewrite Hc; reflexivity|].
  intros s Hd _. apply query_run, Hd.
Qed.

Lemma scraping_bind {A B} (c : M W E A) (k : A -> M W E B) :
  scraping c -> (forall a, scraping (k a)) -> scraping (bind c k).
Proof.
  intros Hc Hk w base. destruct (Hc w base) as (r & l & Hl & Hrun).
  destruct r as [a|x].
  - destruct (Hk a w base) as (r' & l' & Hl' & Hrun').
    exists r', (l ++ l'). split; [rewrite forallb_app, Hl, Hl'; reflexivity|].
    intros s Hd Hb. unfold bind. rewrite (Hrun s Hd Hb).
    rewrite (Hrun' (add_calls l s) Hd Hb). rewrite add_calls_app. reflexivity.
  - exists (Raise x), l. split; [exact Hl|].
    intros s Hd Hb. unfold bind. rewrite (Hrun s Hd Hb). reflexivity.
Qed.

Lemma scraping_try {A} (c : M W E A) (h : exn -> M W E A) :
  scraping c -> (forall e, scraping (h e)) -> scraping (try_except c h).
Proof.
  intros Hc Hh w base. destruct (Hc w base) as (r & l & Hl & Hrun).
  destruct r as [a|x].
  - exists (Ok a), l. split; [exact Hl|].
    intros s Hd Hb. unfold try_except. rewrite (Hrun s Hd Hb). reflexivity.
  - destruct (Hh x w base) as (r' & l' & Hl' & Hrun').
    exists r', (l ++ l'). split; [rewrite forallb_app, Hl, Hl'; reflexivity|].
    intros s Hd Hb. unfold try_except. rewrite (Hrun s Hd Hb).
    rewrite (Hrun' (add_calls l s) Hd Hb). rewrite add_calls_app. reflexivity.
Qed.

Ltac scrape :=
  unfold find_elements, find_element, get_attribute, tag_name, element_text,
    driver_page_source;
  repeat first
    [ progress intros
    | assumption
    | match goal with
      | H : _ |- _ => apply H
      end
    | apply scraping_ret | apply scraping_read_base
    | apply scraping_query; reflexivity
    | apply scraping_bind | apply scraping_try
    | match goal with
      | |- scraping (match ?x with _ => _ end) => destruct x
      end ].

Lemma scraping_find_link_elements (l : list string) (limit : Z) :
  scraping (W:=W) (E:=E) (find_link_elements l limit).
Proof. induction l; cbn [find_link_elements]; scrape. Qed.

Lemma scraping_filter_external (l : list E) : scraping (filter_external l).
Proof. induction l; cbn [filter_external]; scrape. Qed.

Lemma scraping_find_external_anchors (limit : Z) :
  scraping (W:=W) (E:=E) (find_external_anchors limit).
Proof.
  pose proof scraping_filter_external. unfold find_external_anchors. scrape.
Qed.

Lemma scraping_find_links_in_containers (l : list string) (limit : Z) :
  scraping (W:=W) (E:=E) (find_links_in_containers l limit).
Proof.
  pose proof scraping_filter_external.
  induction l; cbn [find_links_in_containers]; scrape.
Qed.

Lemma scraping_anchor_title (a : E) : scraping (anchor_title a).
Proof. unfold anchor_title. scrape. Qed.

Lemma scraping_first_external (l : list E) : scraping (first_external l).
Proof. induction l; cbn [first_external]; scrape. Qed.

Lemma scraping_find_link_inside (el : E) (l : list string) :
  scraping (find_link_inside el l).
Proof.
  pose proof scraping_first_external.
  induction l; cbn [find_link_inside]; scrape.
Qed.

Lemma scraping_find_description (el : E) (l : list string) (d : string) :
  scraping (find_description el l d).
Proof. revert d. induction l; intros d; cbn [find_description]; scrape. Qed.

Lemma scraping_tag_texts (l : list E) : scraping (tag_texts l).
Proof. induction l; cbn [tag_texts]; scrape. Qed.

Lemma scraping_find_tags (el : E) (l : list string) :
  scraping (find_tags el l).
Proof.
  pose proof scraping_tag_texts. induction l; cbn [find_tags]; scrape.
Qed.

Lemma scraping_parse_link_element (el : E) : scraping (parse_link_element el).
Proof.
  pose proof scraping_anchor_title. pose proof (scraping_find_link_inside el).
  pose proof (scraping_find_description el).
  pose proof (scraping_find_tags el).
  unfold parse_link_element, link_url_and_title. scrape.
Qed.

Lemma scraping_extract_links (l : list E) (links : list link_info) :
  scraping (extract_links l links).
Proof.
  pose proof scraping_parse_link_element.
  revert links. induction l; intros links; cbn [extract_links]; scrape.
Qed.

Lemma scraping_collect_links (limit : Z) :
  scraping (W:=W) (E:=E) (collect_links limit).
Proof.
  pose proof scraping_find_link_elements.
  pose proof scraping_find_external_anchors.
  pose proof scraping_find_links_in_containers.
  pose proof scraping_extract_links.
  unfold collect_links, choose_link_elements. scrape.
Qed.

(** X4.  Once the list page is open, [get_links] only reads it: the calls
    of lines 780-969 are queries and the browser is as before; and reading
    the unchanged page again makes the same queries and gives the same
    records in the same order. *)
Theorem collect_links_repeatable (limit : Z) (s : ShaarliClient W E) (w : W) :
  driver s = Some w ->
  exists queries,
    forallb is_query queries = true
    /\ snd (collect_links limit s) = add_calls queries s
    /\ collect_links limit (snd (collect_links limit s))
       = (fst (collect_links limit s), add_calls (queries ++ queries) s).
Proof.
  intros Hd.
  destruct (scraping_collect_links limit w (base_url s)) as (r & l & Hl & Hrun).
  exists l. split; [exact Hl|].
  rewrite (Hrun s Hd eq_refl). cbn [fst snd]. split; [reflexivity|].
  rewrite (Hrun (add_calls l s) Hd eq_refl). rewrite add_calls_app.
  reflexivity.
Qed.

End Scraping.

(** ** The calls the methods make *)

Section Calls.

Context {W E : Type} {D : WebDriver W E}.

Variable P : Call E -> Prop.

Lemma emits_ret {A} (a : A) : emits (W:=W) P (ret a).
Proof. intros s. exists []. cbn. rewrite app_nil_r. auto. Qed.

Lemma emits_raise {A} (e : exn) : emits (W:=W) (A:=A) P (raise e).
Proof. intros s. exists []. cbn. rewrite app_nil_r. auto. Qed.

Lemma emits_read {A} (f : ShaarliClient W E -> A) : emits P (read f).
Proof. intros s. exists []. cbn. rewrite app_nil_r. auto. Qed.

Lemma emits_query {A} (c : Call E) (f : W -> Res A) :
  P c -> emits P (query c f).
Proof.
  intros Hc s. unfold query. destruct (driver s); cbn.
  - exists [c]. auto.
  - exists []. rewrite app_nil_r. auto.
Qed.

Lemma emits_command {A} (c : Call E) (f : W -> Res A * W) :
  P c -> emits P (command c f).
Proof.
  intros Hc s. unfold command. destruct (driver s) as [w|]; cbn.
  - destruct (f w). cbn. exists [c]. auto.
  - exists []. rewrite app_nil_r. auto.
Qed.

Lemma emits_sleep (n : nat) : P (CSleep n) -> emits (W:=W) P (time_sleep n).
Proof. intros Hc s. exists [CSleep n]. cbn. auto. Qed.

Lemma emits_bind {A B} (c : M W E A) (k : A -> M W E B) :
  emits P c -> (forall a, emits P (k a)) -> emits P (bind c k).
Proof.
  intros Hc Hk s. unfold bind. destruct (Hc s) as (l & Hl & HP).
  destruct (c s) as [[a|x] s1]; cbn in *.
  - destruct (Hk a s1) as (l' & Hl' & HP').
    exists (l ++ l'). rewrite Hl', Hl, app_assoc. split; [reflexivity|].
    apply Forall_app. auto.
  - exists l. auto.
Qed.

Lemma emits_try {A} (c : M W E A) (h : exn -> M W E A) :
  emits P c -> (forall e, emits P (h e)) -> emits P (try_except c h).
Proof.
  intros Hc Hh s. unfold try_except. destruct (Hc s) as (l & Hl & HP).
  destruct (c s) as [[a|x] s1]; cbn in *.
  - exists l. auto.
  - destruct (Hh x s1) as (l' & Hl' & HP').
    exists (l ++ l'). rewrite Hl', Hl, app_assoc. split; [reflexivity|].
    apply Forall_app. auto.
Qed.

End Calls.

Ltac emit :=
  unfold find_elements, find_element, get_attribute, tag_name, element_text,
    driver_page_source, driver_get, wait_until, execute_script,
    element_click, element_clear, element_send_keys;
  repeat first
    [ progress intros
    | assumption
    | match goal with
      | H : _ |- _ => apply H
      end
    | apply emits_ret | apply emits_read | apply emits_raise
    | apply emits_query; first [reflexivity | exact I | cbn; auto]
    | apply emits_command; first [reflexivity | exact I | cbn; auto]
    | apply emits_sleep; first [reflexivity | exact I | cbn; auto]
    | apply emits_bind | apply emits_try
    | match goal with
      | |- emits _ (match ?x with _ => _ end) => destruct x
      end ].

Section Calls_of_methods.

Context {W E : Type} {D : WebDriver W E}.

(** X13.  Whatever the action and the text, the interaction engine acts on
    the element it was given and on nothing else: every call it makes is a
    click, clear or send_keys on that element, a script with that element
    as its first argument, or a pause. *)
Theorem try_interact_touches_only (el : E) (action : string)
  (text : option string) (s : ShaarliClient W E) :
  exists l,
    calls (snd (try_interact_with_element (Some el) action text s))
    = calls s ++ l
    /\ Forall (touches el) l.
Proof.
  revert s. change (emits (touches el)
                      (try_interact_with_element (Some el) action text)).
  unfold try_interact_with_element. emit.
Qed.



End Calls_of_methods.

(** ** Pages on which a workflow cannot go on *)

Section Dead_ends.

Context {W E : Type} {D : WebDriver W E}.

(** X14.  The title field is what tells that the second page of the form
    was reached: where no rule of the title plan matches, the details step
    returns [False] after the title rules and the debug queries; nothing is
    typed or clicked, and the save control is not looked for. *)
Theorem add_url_details_without_title_field
  (title description tags : string) (private : bool)
  (s : ShaarliClient W E) (w : W) :
  driver s = Some w ->
  plan_hit w title_selectors = None ->
  add_url_details title description tags private s
  = (Ok false, add_calls (map rule_call title_selectors ++ debug_calls w) s)
  /\ forallb is_query (map rule_call title_selectors ++ debug_calls w) = true.
Proof.
  intros Hd Hnone. split.
  - unfold add_url_details, bind at 1.
    rewrite (first_match_run title_selectors s w Hd), Hnone.
    rewrite (consulted_miss w title_selectors Hnone).
    unfold bind.
    destruct (debug_page_elements_run
                (add_calls (map rule_call title_selectors) s) w Hd) as [-> _].
    rewrite add_calls_app. reflexivity.
  - rewrite forallb_app, rule_calls_are_queries.
    destruct (debug_page_elements_run s w Hd) as [_ ->]. reflexivity.
Qed.

(** X16.  Where the add page shows no URL field, [add_url] returns [False]
    after the rules of the URL plan and the debug queries: nothing is typed
    or clicked, and no submit control is looked for. *)
Theorem add_url_without_url_field
  (url title description tags : string) (private : bool)
  (s s1 : ShaarliClient W E) (w1 : W) :
  is_logged_in s = true ->
  bind (driver_get (base_url s ++ "/admin/add-shaare"))
       (fun _ => wait_for_page_ready 10) s = (Ok tt, s1) ->
  driver s1 = Some w1 ->
  plan_hit w1 url_selectors = None ->
  add_url url title description tags private s
  = (Ok false, add_calls (map rule_call url_selectors ++ debug_calls w1) s1).
Proof.
  intros Hlog Hopen Hd1 Hnone.
  assert (Hd : driver s <> None).
  { intros Hn. revert Hopen. unfold bind, driver_get.
    rewrite (command_none _ _ s Hn). discriminate. }
  unfold add_url, bind at 1, read. destruct (driver s); [|congruence].
  unfold bind at 1. rewrite Hlog. cbn [negb].
  unfold try_except, add_url_body, bind at 1.
  unfold add_url_until_saved, bind at 1, read.
  revert Hopen. unfold bind at 1 2.
  destruct (driver_get (base_url s ++ "/admin/add-shaare") s) as [[[]|x] s0];
    [|discriminate].
  intros Hwait. unfold bind at 1. rewrite Hwait.
  unfold bind at 1.
  rewrite (first_match_run url_selectors s1 w1 Hd1), Hnone.
  rewrite (consulted_miss w1 url_selectors Hnone).
  unfold bind.
  destruct (debug_page_elements_run
              (add_calls (map rule_call url_selectors) s1) w1 Hd1) as [-> _].
  rewrite add_calls_app. reflexivity.
Qed.

(** X23.  Where no input element appears on the login page within the
    timeout, or the wait for one raises otherwise, [login] returns [False]
    right after that wait: no field is looked for, nothing is typed, and
    the logged-in flag is as it was. *)
Theorem login_without_inputs (username password : string)
  (s s1 : ShaarliClient W E) (w1 : W) (iframes : list E) (x : exn) :
  bind (driver_get (base_url s ++ "/login"))
       (fun _ => bind (wait_for_page_ready 10)
       (fun _ => bind check_for_iframes
       (fun found => bind debug_page_elements
       (fun _ => ret found)))) s = (Ok iframes, s1) ->
  driver s1 = Some w1 ->
  fst (drv_wait_until (timeout s) PresenceOfInput w1) = Raise x ->
  login username password s
  = (Ok false,
     moved (snd (drv_wait_until (timeout s) PresenceOfInput w1))
       [CWaitUntil (timeout s) PresenceOfInput] s1)
  /\ is_logged_in (snd (login username password s)) = is_logged_in s.
Proof.
  intros Hopen Hd1 Hwait.
  assert (Hd : driver s <> None).
  { intros Hn. revert Hopen. unfold bind, driver_get.
    rewrite (command_none _ _ s Hn). discriminate. }
  assert (Hsame : same_object s s1).
  { assert (Hb : browsing (W:=W) (E:=E)
               (bind (driver_get (base_url s ++ "/login"))
                  (fun _ => bind (wait_for_page_ready 10)
                  (fun _ => bind check_for_iframes
                  (fun found => bind debug_page_elements
                  (fun _ => ret found)))))).
    { repeat first
        [ apply browsing_bind; [|intros ?]
        | apply browsing_command | apply browsing_ret
        | apply browsing_wait_for_page_ready | apply browsing_check_for_iframes
        | apply browsing_debug_page_elements ]. }
    specialize (Hb s). rewrite Hopen in Hb. exact Hb. }
  assert (Hrun : login username password s
                 = (Ok false,
                    moved (snd (drv_wait_until (timeout s) PresenceOfInput w1))
                      [CWaitUntil (timeout s) PresenceOfInput] s1)).
  { unfold login, bind at 1, read. destruct (driver s); [|congruence].
    revert Hopen.
    unfold try_except at 1. unfold login_body, login_until_submitted.
    unfold bind, read.
    destruct (driver_get (base_url s ++ "/login") s) as [[[]|e0] sa];
      [|discriminate].
    destruct (wait_for_page_ready 10 sa) as [[[]|e1] sb]; [|discriminate].
    destruct (check_for_iframes sb) as [[found|e2] sc]; [|discriminate].
    destruct (debug_page_elements sc) as [[[]|e3] sd]; [|discriminate].
    cbn [ret]. intros [= <- <-].
    destruct Hsame as (_ & Htmo & _). rewrite Htmo.
    unfold try_except, wait_until. rewrite (command_run _ _ sd w1 Hd1).
    rewrite Hwait. destruct x; reflexivity. }
  split; [exact Hrun|].
  rewrite Hrun. cbn. apply Hsame.
Qed.

End Dead_ends.

(** ** Strings: the base URL and the link filter *)

Section Strings.

Local Open Scope string_scope.

Lemma append_nil_r (s : string) : s ++ "" = s.
Proof. induction s as [|c s IH]; cbn; [reflexivity | rewrite IH; reflexivity]. Qed.

Lemma append_assoc (a b c : string) : (a ++ b) ++ c = a ++ (b ++ c).
Proof. induction a as [|x a IH]; cbn; [reflexivity | rewrite IH; reflexivity]. Qed.

Lemma rev_string_app (a b : string) :
  PyStr.rev_string (a ++ b) = PyStr.rev_string b ++ PyStr.rev_string a.
Proof.
  induction a as [|x a IH]; cbn.
  - rewrite append_nil_r. reflexivity.
  - rewrite IH, append_assoc. reflexivity.
Qed.

Lemma rev_string_involutive (s : string) :
  PyStr.rev_string (PyStr.rev_string s) = s.
Proof.
  induction s as [|c s IH]; cbn; [reflexivity|].
  rewrite rev_string_app, IH. reflexivity.
Qed.

Lemma slashes_snoc (k : nat) : slashes k ++ "/" = String "/" (slashes k).
Proof. induction k as [|k IH]; cbn; [reflexivity | rewrite IH; reflexivity]. Qed.

Lemma rev_slashes (k : nat) : PyStr.rev_string (slashes k) = slashes k.
Proof.
  induction k as [|k IH]; cbn; [reflexivity|].
  rewrite IH. apply slashes_snoc.
Qed.

Lemma lstrip_slashes (s : string) :
  exists k,
    s = slashes k ++ PyStr.lstrip_chars (fun c => Ascii.eqb c "/") s
    /\ forall rest, PyStr.lstrip_chars (fun c => Ascii.eqb c "/") s
                    <> String "/" rest.
Proof.
  induction s as [|c s (k & Hk & Hhead)]; cbn.
  - exists 0. split; [reflexivity | discriminate].
  - destruct (Ascii.eqb c "/") eqn:Hc.
    + apply Ascii.eqb_eq in Hc. subst c. exists (S k). cbn.
      split; [rewrite <- Hk; reflexivity | exact Hhead].
    + exists 0. split; [reflexivity|].
      intros rest [= -> _]. discriminate.
Qed.

(** The url as given is the stored base URL followed by slashes only, and
    the stored base URL does not end in a slash. *)
Lemma rstrip_slash_spec (url : string) :
  (exists k, url = PyStr.rstrip_slash url ++ slashes k)
  /\ forall v, PyStr.rstrip_slash url <> v ++ "/".
Proof.
  unfold PyStr.rstrip_slash, PyStr.rstrip_chars.
  destruct (lstrip_slashes (PyStr.rev_string url)) as (k & Hk & Hhead).
  set (L := PyStr.lstrip_chars (fun c => Ascii.eqb c "/") (PyStr.rev_string url)) in *.
  split.
  - exists k. rewrite <- (rev_string_involutive url) at 1.
    rewrite Hk, rev_string_app, rev_slashes. reflexivity.
  - intros v Hv. apply (f_equal PyStr.rev_string) in Hv.
    rewrite rev_string_involutive, rev_string_app in Hv. cbn in Hv.
    apply (Hhead _ Hv).
Qed.

Lemma prefix_iff (n h : string) :
  String.prefix n h = true <-> exists post, h = n ++ post.
Proof.
  revert h. induction n as [|a n IH]; intros h.
  - split; [intros _; exists h; reflexivity | intros _; destruct h; reflexivity].
  - destruct h as [|b h].
    + split; [discriminate | intros (post & H); discriminate].
    + simpl. destruct (ascii_dec a b) as [->|Hab].
      * split.
        -- intros H. apply IH in H as (post & ->). exists post. reflexivity.
        -- intros (post & H). injection H as H. apply IH. exists post. exact H.
      * split; [discriminate|]. intros (post & H). injection H as H1 H2.
        congruence.
Qed.

Lemma PyStr_contains_nil (hay : string) : PyStr.contains "" hay = true.
Proof. destruct hay; reflexivity. Qed.

Lemma contains_iff (needle hay : string) :
  PyStr.contains needle hay = true <-> occurs_in needle hay.
Proof.
  unfold occurs_in. induction hay as [|c hay IH]; cbn [PyStr.contains].
  - destruct (prefix needle "") eqn:Hp.
    + split; [|reflexivity]. intros _. apply prefix_iff in Hp as (post & H).
      exists "", post. exact H.
    + split; [discriminate|]. intros (pre & post & H).
      destruct pre; [|discriminate]. cbn in H.
      assert (Hp' : prefix needle "" = true)
        by (apply prefix_iff; exists post; exact H).
      congruence.
  - destruct (prefix needle (String c hay)) eqn:Hp.
    + split; [|reflexivity]. intros _. apply prefix_iff in Hp as (post & H).
      exists "", post. exact H.
    + rewrite IH. split.
      * intros (pre & post & H). exists (String c pre), post.
        rewrite H. reflexivity.
      * intros (pre & post & H). destruct pre as [|c' pre].
        -- cbn in H.
           assert (Hp' : prefix needle (String c hay) = true)
             by (apply prefix_iff; exists post; exact H).
           congruence.
        -- injection H as _ H. exists pre, post. exact H.
Qed.

End Strings.

(** White space beyond ASCII is stripped as well: a no-break space
    (U+00A0, bytes C2 A0) and an em space (U+2003, bytes E2 80 83) go; the
    letter a with a grave accent (U+00E0, bytes C3 A0) stays. *)
Example strip_unicode_spaces :
  let nbsp := String (ascii_of_nat 194) (String (ascii_of_nat 160) "") in
  let emsp :=
    String (ascii_of_nat 226)
      (String (ascii_of_nat 128) (String (ascii_of_nat 131) "")) in
  let agrave := String (ascii_of_nat 195) (String (ascii_of_nat 160) "") in
  PyStr.strip (nbsp ++ " Rocq prover " ++ emsp ++ nbsp)%string = "Rocq prover"
  /\ PyStr.strip (agrave ++ " " ++ nbsp)%string = agrave
  /\ PyStr.strip (nbsp ++ emsp)%string = "".
Proof. vm_compute. repeat split. Qed.

Section Configuration.

Context {W E : Type} {D : WebDriver W E}.

(** X17.  Trailing slashes of the configured URL do not matter: the base
    URL a new client stores is the given url without its trailing slashes,
    so it never ends in a slash (and [base_url + "/login"] has exactly one
    there). *)
Theorem init_strips_trailing_slashes (url : string) (headless : bool)
  (tmo : nat) :
  let base := base_url (__init__ (W:=W) (E:=E) url headless tmo) in
  (exists k, url = (base ++ slashes k)%string)
  /\ forall v, base <> (v ++ "/")%string.
Proof. cbn. apply rstrip_slash_spec. Qed.

(** X18.  The filter of tiers 2 and 3 and of the container branch keeps
    exactly the hrefs that are strings in which "http" occurs and the base
    URL does not occur, anywhere.  With an empty base URL (a client
    configured with "" or "/") it keeps nothing. *)
Theorem is_external_iff (base : string) (href : option string) :
  (is_external base href = true
   <-> exists u, href = Some u /\ occurs_in "http" u /\ ~ occurs_in base u)
  /\ is_external "" href = false.
Proof.
  split.
  - unfold is_external. destruct href as [u|]; cbn.
    + rewrite !andb_true_iff, negb_true_iff, contains_iff.
      rewrite <- not_true_iff_false, contains_iff.
      split.
      * intros (_ & Hh & Hb). exists u. auto.
      * intros (u' & [= <-] & Hh & Hb). repeat split; try assumption.
        destruct Hh as (pre & post & ->).
        destruct pre; reflexivity.
    + split; [discriminate | intros (u & H & _); discriminate].
  - unfold is_external. destruct href as [u|]; [|reflexivity]. cbn.
    rewrite PyStr_contains_nil. rewrite !andb_false_r. reflexivity.
Qed.

End Configuration.

(** ** The example run *)

Section Main_run.

Context {W E : Type} {D : WebDriver W E}.






End Main_run.

(** ** Further runs on the small browser *)

Section More_runs.

Lemma get_links_url_invariant_witness :
  Forall (url_invariant (Toy.world_of (snd (open_list_page Toy.logged_in)))
            (base_url Toy.logged_in))
    [ mk_link_info (Some "http://shaarli.example/?searchtags=rocq")
        "rocq" "" "" ].
Proof.
  refine (get_links_url_invariant 10 Toy.logged_in
            (snd (get_links 10 Toy.logged_in)) _ _ _ _);
    vm_compute; reflexivity.
Defined.

Lemma get_links_at_most_limit_witness :
  (0 <= 10)%Z
  /\ (Z.of_nat (length [ mk_link_info
                           (Some "http://shaarli.example/?searchtags=rocq")
                           "rocq" "" "" ]) <= 10)%Z.
Proof.
  split; [discriminate|].
  refine (get_links_at_most_limit 10 Toy.logged_in
            (snd (get_links 10 Toy.logged_in)) _ _ _).
  - discriminate.
  - vm_compute. reflexivity.
Defined.

Lemma get_links_titles_not_empty_witness :
  Forall (fun r => li_title r <> "")
    [ mk_link_info (Some "http://shaarli.example/?searchtags=rocq")
        "rocq" "" "" ].
Proof.
  refine (get_links_titles_not_empty 10 Toy.logged_in
            (snd (get_links 10 Toy.logged_in)) _ _).
  vm_compute. reflexivity.
Defined.

Lemma collect_links_repeatable_witness :
  let s := Toy.on_page Toy.shaarli "http://shaarli.example/" in
  exists queries,
    forallb is_query queries = true
    /\ snd (collect_links 10 s) = add_calls queries s
    /\ collect_links 10 (snd (collect_links 10 s))
       = (fst (collect_links 10 s), add_calls (queries ++ queries) s).
Proof.
  intros s. refine (collect_links_repeatable 10 s (Toy.world_of s) _).
  vm_compute. reflexivity.
Defined.

Lemma first_match_not_found_witness :
  let s := Toy.on_page Toy.shaarli "http://shaarli.example/" in
  first_match password_selectors s
  = (Ok None, add_calls (map rule_call password_selectors) s).
Proof.
  intros s.
  refine (first_match_not_found password_selectors s (Toy.world_of s) _ _).
  - vm_compute. reflexivity.
  - intros r Hr.
    repeat (destruct Hr as [<-|Hr]; [vm_compute; reflexivity|]).
    destruct Hr.
Defined.

Lemma check_for_iframes_result_witness :
  fst (check_for_iframes
         (Toy.on_page "http://framed.example" "http://framed.example/login"))
  = Ok [1].
Proof.
  destruct (check_for_iframes_result
              (Toy.on_page "http://framed.example" "http://framed.example/login")
              (Toy.world_of (Toy.on_page "http://framed.example"
                               "http://framed.example/login")))
    as (queries & _ & H).
  - vm_compute. reflexivity.
  - rewrite H. cbn [fst]. vm_compute. reflexivity.
Defined.

Lemma _is_logged_in_result_witness :
  fst (_is_logged_in (Toy.on_page Toy.shaarli "http://shaarli.example/"))
  = Ok true.
Proof.
  destruct (_is_logged_in_result
              (Toy.on_page Toy.shaarli "http://shaarli.example/")
              (Toy.world_of (Toy.on_page Toy.shaarli "http://shaarli.example/")))
    as (queries & _ & H).
  - vm_compute. reflexivity.
  - rewrite H. cbn [fst]. vm_compute. reflexivity.
Defined.

Lemma wait_for_page_ready_never_raises_witness :
  let s := Toy.started Toy.shaarli in
  fst (wait_for_page_ready 10 s) = Ok tt
  /\ calls (snd (wait_for_page_ready 10 s))
     = calls s ++ [CWaitUntil 10 ReadyStateComplete; CSleep 1;
                   CWaitUntil 2 JQueryIdle].
Proof.
  intros s.
  destruct (wait_for_page_ready_never_raises 10 s) as [H1 H2].
  split; [exact H1|].
  rewrite (H2 (Toy.world_of s)); [|vm_compute; reflexivity].
  vm_compute. reflexivity.
Defined.


Lemma try_interact_unsupported_action_witness :
  let s := Toy.on_page Toy.shaarli "http://shaarli.example/login" in
  try_interact_with_element (Some 2) "hover" None s
  = (Ok false, snd (scroll_into_view 2 s)).
Proof.
  intros s.
  refine (try_interact_unsupported_action 2 "hover" None s _ _).
  - discriminate.
  - left. discriminate.
Defined.

Lemma search_iframes_skips_broken_frame_witness :
  let s := Toy.on_page "http://framed.example" "http://framed.example/login" in
  search_iframes (D := ToyWith.broken_frame) [1] s
  = search_iframes (D := ToyWith.broken_frame) []
      (moved (leave_frame (D := ToyWith.broken_frame)
                (enter_frame (D := ToyWith.broken_frame) (Toy.world_of s) 1))
         [CSwitchToFrame 1; CSwitchToDefaultContent] s).
Proof.
  intros s.
  refine (proj1 (search_iframes_skips_broken_frame (D := ToyWith.broken_frame)
                   1 [] s (Toy.world_of s)
                   (WebDriverException "no such frame") _ _) _).
  - vm_compute. reflexivity.
  - vm_compute. reflexivity.
  - vm_compute. reflexivity.
Defined.

Lemma find_username_plan_first_witness :
  let s := Toy.on_page Toy.shaarli "http://shaarli.example/login" in
  find_username_in_document s
  = (Ok (Some 0),
     add_calls (map rule_call (consulted (Toy.world_of s) username_selectors)) s).
Proof.
  intros s. refine (find_username_plan_first s (Toy.world_of s) 0 _ _);
    vm_compute; reflexivity.
Defined.

Lemma tick_first_match_only_if_unticked_witness :
  let s := Toy.on_page Toy.shaarli "http://shaarli.example/admin/shaare" in
  let s1 := add_calls (map rule_call (consulted (Toy.world_of s) private_selectors)
                         ++ [CIsSelected 3]) s in
  tick_first_match private_selectors s
  = (Ok tt, snd (try_interact_with_element (Some 3) "click" None s1)).
Proof.
  intros s s1.
  refine (tick_first_match_only_if_unticked private_selectors s
            (Toy.world_of s) 3 false _ _ _); vm_compute; reflexivity.
Defined.

Lemma fill_first_match_best_effort_witness :
  let s := Toy.on_page Toy.shaarli "http://shaarli.example/admin/shaare" in
  let s1 := add_calls (map rule_call (consulted (Toy.world_of s) tags_selectors)) s in
  fill_first_match tags_selectors "rocq coq" s
  = (Ok tt,
     match plan_hit (Toy.world_of s) tags_selectors with
     | Some field =>
         snd (try_interact_with_element (Some field) "send_keys"
                (Some "rocq coq") s1)
     | None => s1
     end).
Proof.
  intros s s1.
  refine (fill_first_match_best_effort tags_selectors "rocq coq" s
            (Toy.world_of s) _).
  vm_compute. reflexivity.
Defined.

Lemma add_url_details_without_title_field_witness :
  let s := Toy.on_page Toy.shaarli "http://shaarli.example/admin/add-shaare" in
  add_url_details "Rocq" "" "" false s
  = (Ok false,
     add_calls (map rule_call title_selectors ++ debug_calls (Toy.world_of s)) s).
Proof.
  intros s.
  refine (proj1 (add_url_details_without_title_field "Rocq" "" "" false s
                   (Toy.world_of s) _ _)); vm_compute; reflexivity.
Defined.

Lemma add_url_without_url_field_witness :
  let s := snd (login "admin" "secret" (Toy.started "http://framed.example")) in
  let s1 := snd (bind (driver_get (base_url s ++ "/admin/add-shaare"))
                   (fun _ => wait_for_page_ready 10) s) in
  add_url "https://rocq-prover.org" "Rocq" "" "" false s
  = (Ok false,
     add_calls (map rule_call url_selectors ++ debug_calls (Toy.world_of s1)) s1).
Proof.
  intros s s1.
  refine (add_url_without_url_field "https://rocq-prover.org" "Rocq" "" ""
            false s s1 (Toy.world_of s1) _ _ _ _); vm_compute; reflexivity.
Defined.

Lemma login_without_inputs_witness :
  let s := Toy.started "http://covered.example" in
  let s1 := snd (bind (driver_get (base_url s ++ "/login"))
                   (fun _ => bind (wait_for_page_ready 10)
                   (fun _ => bind check_for_iframes
                   (fun found => bind debug_page_elements
                   (fun _ => ret found)))) s) in
  login "admin" "secret" s
  = (Ok false,
     moved (snd (drv_wait_until (timeout s) PresenceOfInput (Toy.world_of s1)))
       [CWaitUntil (timeout s) PresenceOfInput] s1).
Proof.
  intros s s1.
  refine (proj1 (login_without_inputs (D := Toy.browser) "admin" "secret" s s1
                   (Toy.world_of s1) [] TimeoutException _ _ _));
    vm_compute; reflexivity.
Defined.


End More_runs.
